(** * The predictive analytics engine of the Copilot ROI platform

    A shallow embedding of the four estimators of
    [copilot-platform/ml-services/src/main.py]
    ([AdoptionPredictor.predict], [ROIPredictor.predict],
    [UserSegmenter.segment], [ChurnPredictor.predict]), of the handlers
    that serve them and of the git statistics of [analyze_git_stats.py]
    ([parse_git_log], [analyze_commits], [print_report], [main]), with
    the proofs of the properties stated about them.

    Python's [float] is IEEE-754 binary64: it is embedded as Rocq's
    primitive [float], whose operations are specified by [SpecFloat].
    A number read from a data frame is a [numpy.float64]: the same
    binary64 values and arithmetic, with NumPy's own [round].  Python's
    [int] is unbounded: it is embedded as [Z].  Exceptions are values of
    an error monad, and the wall clock read by [datetime.now()] is an
    explicit argument.  The records of the requests are typed as the
    specification types them: rates and interaction counts are floats,
    and a historical record may lack its rate. *)

From Stdlib Require Import ZArith List Sorted String Ascii Bool Lia Floats.
From Stdlib Require Import Reals Lra Psatz.
From Stdlib Require Import NArith DecimalString DecimalN DecimalPos Decimal Permutation.
Import ListNotations.
Set Warnings "-inexact-float".

(** ** The Python runtime used by the engine *)

Module Py.

(** The exceptions the engine can raise. *)
Inductive exn : Set :=
| KeyError
| ZeroDivisionError
| OverflowError
| ValueError.

Inductive result (A : Type) : Type :=
| Ok (a : A)
| Raise (e : exn).
Arguments Ok {A} a.
Arguments Raise {A} e.

Definition bind {A B : Type} (c : result A) (k : A -> result B) : result B :=
  match c with
  | Ok a => k a
  | Raise e => Raise e
  end.

Notation "x <- c ;; k" := (bind c (fun x => k))
  (at level 61, c at next level, right associativity).

(** A [for] loop that appends one element per iteration: the first
    iteration that raises aborts the whole loop. *)
Fixpoint mapM {A B : Type} (f : A -> result B) (l : list A) : result (list B) :=
  match l with
  | [] => Ok []
  | x :: l' =>
      y <- f x ;;
      ys <- mapM f l' ;;
      Ok (y :: ys)
  end.

(** [range(a, b)]: the [n] integers from [a] on, for [n = b - a]. *)
Fixpoint range_from (a : Z) (n : nat) : list Z :=
  match n with
  | O => []
  | S n' => a :: range_from (a + 1) n'
  end.

Definition range (a b : Z) : list Z := range_from a (Z.to_nat (b - a)).

(** [len(l)], and the largest size of a container ([sys.maxsize]). *)
Definition len {A : Type} (l : list A) : Z := Z.of_nat (List.length l).
Definition sys_maxsize : Z := 2 ^ 63 - 1.

(** *** int and float *)

(** An integer as an unrounded binary number. *)
Definition SF_of_sign_mag (s : bool) (n : Z) : spec_float :=
  match n with
  | Z0 => S754_zero s
  | Zpos p => S754_finite s p 0
  | Zneg p => S754_finite (negb s) p 0
  end.

(** [float(n)] for an arbitrary [int]: rounded to nearest, ties to even;
    [OverflowError] ("int too large to convert to float") beyond the
    binary64 range. *)
Definition float_of_int (n : Z) : result float :=
  match binary_normalize prec emax n 0 false with
  | S754_infinity _ => Raise OverflowError
  | s => Ok (SF2Prim s)
  end.

(** The conversion of a container size, as in [len(df) * 0.15]: sizes
    are at most [sys_maxsize], far below the binary64 range, so this
    conversion never raises. *)
Definition float_of_ssize (n : Z) : float :=
  SF2Prim (binary_normalize prec emax n 0 false).

(** [a / b] on two [int]s: the correctly rounded quotient. *)
Definition int_truediv (a b : Z) : result float :=
  if (b =? 0)%Z then Raise ZeroDivisionError
  else match SFdiv prec emax (SF_of_sign_mag false a) (SF_of_sign_mag false b) with
       | S754_infinity _ => Raise OverflowError
       | s => Ok (SF2Prim s)
       end.

(** [x / y] on two [float]s. *)
Definition float_truediv (x y : float) : result float :=
  if (y =? 0)%float then Raise ZeroDivisionError else Ok (x / y)%float.

(** [int(x)]: truncation toward zero. *)
Definition int_of_float (x : float) : result Z :=
  match Prim2SF x with
  | S754_nan => Raise ValueError
  | S754_infinity _ => Raise OverflowError
  | S754_zero _ => Ok 0%Z
  | S754_finite s m e => Ok (cond_Zopp s (Z.shiftl (Zpos m) e))
  end.

(** The nearest integer to [a / b] for [0 < b], ties to even. *)
Definition round_half_even (a b : Z) : Z :=
  let q := (a / b)%Z in
  match (2 * (a mod b) ?= b)%Z with
  | Lt => q
  | Eq => if Z.even q then q else (q + 1)%Z
  | Gt => (q + 1)%Z
  end.

(** The binary64 number nearest to the decimal [hundredths / 100], with
    sign [s]. *)
Definition decimal (s : bool) (hundredths : Z) : float :=
  SF2Prim (SFdiv prec emax (SF_of_sign_mag s hundredths) (S754_finite false 100 0)).

(** [round(x, 2)] on a [float]: the exact value of [x] is rounded to
    two decimals (ties to even) and the decimal is converted back to
    the nearest binary64 number; infinities and NaN are returned
    unchanged. *)
Definition round2 (x : float) : float :=
  match Prim2SF x with
  | S754_finite s m e =>
      let hundredths :=
        if (0 <=? e)%Z then (Zpos m * 2 ^ e * 100)%Z
        else round_half_even (Zpos m * 100) (2 ^ (- e)) in
      decimal s hundredths
  | _ => x
  end.

(** [max(a, b)] and [min(a, b)]: the first argument is kept unless the
    second is strictly greater (resp. smaller). *)
Definition max (a b : float) : float := if (a <? b)%float then b else a.
Definition min (a b : float) : float := if (b <? a)%float then b else a.

(** *** str and dict *)

Definition lower_ascii (c : ascii) : ascii :=
  let n := nat_of_ascii c in
  if (65 <=? n)%nat && (n <=? 90)%nat then ascii_of_nat (n + 32) else c.

(** [s.lower()].  Every key of the engine's tables is ASCII and holds no
    letter that a non-ASCII character lowers to, so lowering the ASCII
    letters decides the same lookups. *)
Fixpoint lower (s : string) : string :=
  match s with
  | EmptyString => EmptyString
  | String c s' => String (lower_ascii c) (lower s')
  end.

(** [d.get(key, default)] on a dict literal. *)
Fixpoint dict_get {V : Type} (d : list (string * V)) (key : string) (default : V) : V :=
  match d with
  | [] => default
  | (k, v) :: d' => if String.eqb key k then v else dict_get d' key default
  end.

End Py.
Import Py.

(** ** [datetime] *)

Module Datetime.

(** A [datetime] is the number of microseconds since [datetime.min]
    (0001-01-01T00:00:00); [datetime.max] is the last microsecond of
    9999-12-31, day 3652059 of the calendar. *)
Definition us_per_day : Z := 86400000000.
Definition max : Z := 3652059 * us_per_day - 1.

Definition valid (t : Z) : Prop := (0 <= t <= max)%Z.

(** [timedelta(days=d)]. *)
Definition timedelta_days (d : Z) : result Z :=
  if (Z.abs d <=? 999999999)%Z then Ok (d * us_per_day)%Z else Raise OverflowError.

(** [t + delta]: "date value out of range" outside the calendar. *)
Definition add (t delta : Z) : result Z :=
  let r := (t + delta)%Z in
  if (0 <=? r)%Z && (r <=? max)%Z then Ok r else Raise OverflowError.

(** [(a - b).days]. *)
Definition days_between (a b : Z) : Z := ((a - b) / us_per_day)%Z.

End Datetime.

(** ** [pandas.Series] statistics *)

Module Pandas.

(** The two statistics the churn estimator asks of a column. *)
Class SeriesStats : Type := {
  mean : list float -> float;
  std : list float -> float
}.

Definition notna (l : list float) : list float :=
  filter (fun x => (x =? x)%float) l.

Definition sum (l : list float) : float :=
  fold_left PrimFloat.add l 0%float.

(** [Series.mean()]: missing values are skipped; the mean of no value
    is NaN.  The values are added from left to right; pandas adds a
    column of eight or more values by partial sums, which can change the
    last bit of the sum.  The general theorems on the churn estimator
    hold for every [SeriesStats], so for either order of addition; the
    instance below serves to evaluate the worked examples. *)
Definition nanmean (l : list float) : float :=
  let v := notna l in
  (sum v / float_of_ssize (len v))%float.

(** [Series.std()]: the sample standard deviation ([ddof = 1]), NaN
    when fewer than two values are present. *)
Definition nanstd (l : list float) : float :=
  let v := notna l in
  if (len v <=? 1)%Z then nan
  else
    let avg := (sum v / float_of_ssize (len v))%float in
    let sqr := map (fun x => ((avg - x) * (avg - x))%float) v in
    PrimFloat.sqrt (sum sqr / float_of_ssize (len v - 1))%float.

#[global] Instance pandas_stats : SeriesStats :=
  {| mean := nanmean; std := nanstd |}.

End Pandas.

(** ** NumPy scalars *)

Module Numpy.

(** C's [rint]: the nearest integer, ties to even. *)
Definition rint (x : float) : float :=
  match Prim2SF x with
  | S754_finite s m e =>
      if (0 <=? e)%Z then x
      else match round_half_even (Zpos m) (2 ^ (- e))%Z with
           | Zpos n => SF2Prim (binary_round prec emax s n 0)
           | _ => SF2Prim (S754_zero s)
           end
  | _ => x
  end.

(** [round(x, 2)] on a [numpy.float64]: NumPy scales by 100, rounds to
    an integer and scales back, so the result can differ from Python's
    [round] in the last decimal. *)
Definition numpy_round2 (x : float) : float := (rint (x * 100) / 100)%float.

End Numpy.
Import Numpy.

(** ** AdoptionPredictor *)

Module AdoptionPredictor.
Local Open Scope float_scope.

(** One record of the history: the float under its key
    ['adoption_rate'], or [None] when the record has no such key. *)
Record HistoricalPoint : Set := { adoption_rate_item : option float }.

Definition has_adoption_rate (point : HistoricalPoint) : bool :=
  match adoption_rate_item point with
  | Some _ => true
  | None => false
  end.

(** The cell of a record in the column ['adoption_rate'] of the data
    frame: NaN when the record has no such key. *)
Definition hist_adoption_rate (point : HistoricalPoint) : float :=
  match adoption_rate_item point with
  | Some rate => rate
  | None => nan
  end.

(** [df['adoption_rate']]: the data frame has the column when some
    record has the key, and [KeyError] is raised when none has. *)
Definition column (historical_data : list HistoricalPoint) : result (list float) :=
  if existsb has_adoption_rate historical_data
  then Ok (map hist_adoption_rate historical_data)
  else Raise KeyError.

Record ForecastPoint : Set := {
  period : Z;
  adoption_rate : float;
  timestamp : Z
}.

Record ConfidenceBand : Set := {
  ci_period : Z;
  lower_bound : float;
  upper_bound : float
}.

(** The two kinds of binary64 number in the computation: the literals
    are Python [float]s, what is read from the data frame is a
    [numpy.float64].  Both hold the same values and add, multiply and
    compare alike; an operation with a NumPy operand gives a NumPy
    result, and [round] depends on the kind. *)
Inductive scalar : Set :=
| python_float
| numpy_float64.

Definition round_2 (kind : scalar) (x : float) : float :=
  match kind with
  | python_float => round2 x
  | numpy_float64 => numpy_round2 x
  end.

(** The trend read off the history, with the kind of its numbers:
    industry averages when fewer than two points are known, else the
    last rate and the mean slope of the column. *)
Definition trend (historical_data : list HistoricalPoint) : result (scalar * float * float) :=
  if (len historical_data <? 2)%Z then Ok (python_float, 0.65, 0.05)
  else
    adoption_rate <- column historical_data ;;
    let last := List.last adoption_rate nan in
    let first := List.hd nan adoption_rate in
    Ok (numpy_float64,
        last / 100,
        (last - first) / float_of_ssize (len historical_data) / 100).

(** The body of the loop for period [i]; [now] is the clock reading
    taken by this iteration.  [max] and [min] return one of their
    arguments: the clamped rate is the computed number, of the kind of
    the trend, unless a bound, which is a Python [float], replaces
    it. *)
Definition forecast_step (now : Z) (kind : scalar) (base_rate growth_rate : float) (i : Z)
  : result (ForecastPoint * ConfidenceBand) :=
  fi <- float_of_int i ;;
  let predicted_rate := base_rate + growth_rate * fi in
  let kind :=
    if (0.1 <? predicted_rate) && (predicted_rate <? 0.95) then kind else python_float in
  let predicted_rate := Py.min 0.95 (Py.max 0.1 predicted_rate) in
  delta <- Datetime.timedelta_days (30 * i) ;;
  ts <- Datetime.add now delta ;;
  Ok ({| period := i;
         adoption_rate := round_2 kind (predicted_rate * 100);
         timestamp := ts |},
      {| ci_period := i;
         lower_bound := Py.max 0 ((predicted_rate - 0.05) * 100);
         upper_bound := Py.min 100 ((predicted_rate + 0.05) * 100) |}).

(** [clock k] is the value of the [k]-th call of [datetime.now()]
    made by the invocation, counted from 0: iteration [i] makes call
    [i - 1]. *)
Definition predict (clock : Z -> Z) (historical_data : list HistoricalPoint)
    (forecast_periods : Z)
  : result (list ForecastPoint * list ConfidenceBand) :=
  t <- trend historical_data ;;
  let '(kind, base_rate, growth_rate) := t in
  steps <- mapM (fun i => forecast_step (clock (i - 1)%Z) kind base_rate growth_rate i)
                (range 1 (forecast_periods + 1)) ;;
  Ok (map fst steps, map snd steps).

End AdoptionPredictor.

(** ** ROIPredictor *)

Module ROIPredictor.
Local Open Scope float_scope.

Definition industry_multipliers : list (string * float) :=
  [ ("technology", 1.3);
    ("financial_services", 1.2);
    ("healthcare", 1.1);
    ("manufacturing", 1.0);
    ("retail", 0.95);
    ("education", 0.9);
    ("default", 1.0) ]%string.

Definition size_multipliers : list (string * float) :=
  [ ("small", 0.9);
    ("medium", 1.0);
    ("large", 1.1);
    ("enterprise", 1.2) ]%string.

Record YearProjection : Set := {
  costs : Z;
  benefits : float;
  roi : float
}.

Record ROIProjection : Set := {
  predicted_roi : float;
  year1 : YearProjection;
  year2 : YearProjection;
  year3 : YearProjection;
  breakeven_month : Z;
  confidence_score : float
}.

(** [round((benefits - costs) / costs * 100, 2)], [costs] an [int]. *)
Definition year_roi (year_benefits : float) (year_costs : Z) : result float :=
  c <- float_of_int year_costs ;;
  let gain := year_benefits - c in
  c' <- float_of_int year_costs ;;
  ratio <- float_truediv gain c' ;;
  Ok (round2 (ratio * 100)).

Definition year_projection (year_benefits : float) (year_costs : Z)
  : result YearProjection :=
  r <- year_roi year_benefits year_costs ;;
  Ok {| costs := year_costs; benefits := round2 year_benefits; roi := r |}.

Definition predict (employee_count : Z) (industry company_size : string)
  : result ROIProjection :=
  let base_roi := 200 in
  let industry_mult := dict_get industry_multipliers (lower industry) 1.0 in
  let size_mult := dict_get size_multipliers (lower company_size) 1.0 in
  let predicted_roi := base_roi * industry_mult * size_mult in
  let cost_per_user := 360%Z in
  let productivity_gain_per_user := 1200%Z in
  let year1_costs := (employee_count * cost_per_user + employee_count * 150)%Z in
  g1 <- float_of_int (employee_count * productivity_gain_per_user) ;;
  let year1_benefits := g1 * 0.6 in
  let year2_costs := (employee_count * cost_per_user)%Z in
  g2 <- float_of_int (employee_count * productivity_gain_per_user) ;;
  let year2_benefits := g2 * 0.8 in
  let year3_costs := (employee_count * cost_per_user)%Z in
  g3 <- float_of_int (employee_count * productivity_gain_per_user) ;;
  let year3_benefits := g3 * 0.9 in
  let monthly_benefit := year1_benefits / 12 in
  monthly_cost <- int_truediv year1_costs 12 ;;
  breakeven_month <-
    (if monthly_cost <? monthly_benefit then
       c <- float_of_int year1_costs ;;
       months <- float_truediv c monthly_benefit ;;
       int_of_float months
     else Ok 24%Z) ;;
  y1 <- year_projection year1_benefits year1_costs ;;
  y2 <- year_projection year2_benefits year2_costs ;;
  y3 <- year_projection year3_benefits year3_costs ;;
  Ok {| predicted_roi := round2 predicted_roi;
        year1 := y1;
        year2 := y2;
        year3 := y3;
        breakeven_month := breakeven_month;
        confidence_score := 0.85 |}.

End ROIPredictor.

(** ** UserSegmenter *)

Module UserSegmenter.
Local Open Scope string_scope.
Local Open Scope float_scope.

Record Characteristics : Set := {
  engagement_score : Z;
  proficiency_level : string;
  adoption_stage : string
}.

Record Segment : Set := {
  segment_id : string;
  name : string;
  size : Z;
  characteristics : Characteristics
}.

Definition recommendations : list (string * list string) :=
  [ ("champions",
     [ "Engage as peer mentors and trainers";
       "Invite to contribute to best practices library";
       "Recognize achievements publicly" ]);
    ("engaged",
     [ "Provide advanced training opportunities";
       "Share advanced use cases and tips";
       "Encourage peer-to-peer learning" ]);
    ("casual",
     [ "Send personalized feature recommendations";
       "Provide quick-win tutorials";
       "Increase engagement touchpoints" ]);
    ("at_risk",
     [ "Conduct 1-on-1 coaching sessions";
       "Identify and address barriers";
       "Provide simplified onboarding resources" ]) ].

(** The records of [user_data] are only counted, so their type is left
    open; [n_segments] is accepted and never read. *)
Definition segment {User : Type} (user_data : list User) (n_segments : Z)
  : result (list Segment * list (string * list string)) :=
  let n := float_of_ssize (len user_data) in
  champions <- int_of_float (n * 0.15) ;;
  engaged <- int_of_float (n * 0.35) ;;
  casual <- int_of_float (n * 0.35) ;;
  at_risk <- int_of_float (n * 0.15) ;;
  Ok ([ {| segment_id := "champions";
           name := "Champions & Power Users";
           size := champions;
           characteristics :=
             {| engagement_score := 85;
                proficiency_level := "expert";
                adoption_stage := "mastery" |} |};
        {| segment_id := "engaged";
           name := "Engaged Users";
           size := engaged;
           characteristics :=
             {| engagement_score := 65;
                proficiency_level := "advanced";
                adoption_stage := "proficiency" |} |};
        {| segment_id := "casual";
           name := "Casual Users";
           size := casual;
           characteristics :=
             {| engagement_score := 45;
                proficiency_level := "intermediate";
                adoption_stage := "adoption" |} |};
        {| segment_id := "at_risk";
           name := "At-Risk Users";
           size := at_risk;
           characteristics :=
             {| engagement_score := 25;
                proficiency_level := "beginner";
                adoption_stage := "exploration" |} |} ],
      recommendations).

End UserSegmenter.

(** ** ChurnPredictor *)

Module ChurnPredictor.
Import Pandas.
Local Open Scope string_scope.
Local Open Scope float_scope.

(** One record of the history: its date, and its interaction count as
    the binary64 number of a float column.  (A history whose counts are
    all Python [int]s makes an [int64] column, in which the difference
    of two counts wraps around at [2 ^ 63]; such columns are not
    modelled.) *)
Record EngagementRecord : Set := {
  date : Z;
  interactions : float
}.

Inductive RiskLevel : Set := high | medium | low.

Record ChurnAssessment : Set := {
  churn_probability : float;
  risk_level : RiskLevel;
  key_risk_factors : list string
}.

(** The four additive rules, in the order the code applies them. *)
Definition churn_score (days_since_last_activity : Z)
    (avg_daily_interactions engagement_trend deviation : float) : float :=
  let churn_score := 0.0 in
  let churn_score :=
    if (14 <? days_since_last_activity)%Z then churn_score + 0.3 else churn_score in
  let churn_score :=
    if avg_daily_interactions <? 2 then churn_score + 0.3 else churn_score in
  let churn_score :=
    if engagement_trend <? 0 then churn_score + 0.2 else churn_score in
  let churn_score :=
    if 5 <? deviation then churn_score + 0.1 else churn_score in
  churn_score.

Definition level_of (churn_probability : float) : RiskLevel :=
  if 0.7 <? churn_probability then high
  else if 0.4 <? churn_probability then medium
  else low.

Definition risk_factors (days_since_last_activity : Z)
    (avg_daily_interactions engagement_trend : float) : list string :=
  (if (14 <? days_since_last_activity)%Z then ["Inactive for over 2 weeks"] else [])
  ++ (if avg_daily_interactions <? 2 then ["Low engagement level"] else [])
  ++ (if engagement_trend <? 0 then ["Declining usage trend"] else []).

Section Predict.
Context {stats : SeriesStats}.

(** [now] is the one clock reading the invocation takes.  An empty
    history has no ['date'] column. *)
Definition predict (now : Z) (engagement_history : list EngagementRecord)
  : result ChurnAssessment :=
  match engagement_history with
  | [] => Raise KeyError
  | first :: _ =>
      let last := List.last engagement_history first in
      let column := map interactions engagement_history in
      let days_since_last_activity := Datetime.days_between now (date last) in
      let avg_daily_interactions := mean column in
      let engagement_trend := interactions last - interactions first in
      let score :=
        churn_score days_since_last_activity avg_daily_interactions
                    engagement_trend (std column) in
      let churn_probability := Py.min 0.95 score in
      Ok {| churn_probability := round2 churn_probability;
            risk_level := level_of churn_probability;
            key_risk_factors :=
              risk_factors days_since_last_activity avg_daily_interactions
                           engagement_trend |}
  end.
End Predict.

End ChurnPredictor.

(** ** [str] methods used by the git statistics

    Text is the string of its bytes.  The separators and patterns of the
    script are ASCII, so splitting, searching and replacing on bytes is
    what Python does on the decoded text.  [strip], [int] and [lower]
    classify the ASCII characters only: Python's [int] also reads the
    decimal digits of other scripts and skips other spaces, and a slice
    [s[:n]] counts characters where [take] counts bytes.  On ASCII text,
    which is what git prints for counts and dates, they agree; a message
    with other characters is cut earlier by [take] than by the slice. *)

Module Str.
Local Open Scope string_scope.

(** [s.split(sep)] for a one-character separator: never empty. *)
Fixpoint split (sep : ascii) (s : string) : list string :=
  match s with
  | EmptyString => [EmptyString]
  | String c s' =>
      if Ascii.eqb c sep then EmptyString :: split sep s'
      else match split sep s' with
           | [] => [String c EmptyString]
           | w :: ws => String c w :: ws
           end
  end.

(** [sep.join(l)]. *)
Fixpoint join (sep : string) (l : list string) : string :=
  match l with
  | [] => ""
  | [w] => w
  | w :: ws => w ++ sep ++ join sep ws
  end.

(** [c in s] for a character. *)
Fixpoint contains_char (c : ascii) (s : string) : bool :=
  match s with
  | EmptyString => false
  | String c' s' => Ascii.eqb c' c || contains_char c s'
  end.

(** [s.startswith(p)]. *)
Definition startswith (p s : string) : bool := String.prefix p s.

(** [sub in s]. *)
Fixpoint contains (sub s : string) : bool :=
  String.prefix sub s ||
  match s with
  | EmptyString => false
  | String _ s' => contains sub s'
  end.

(** [s.replace(old, new)] for a non-empty [old]: the occurrences are
    found from left to right and do not overlap; [skip] counts the
    characters of the current occurrence that are still to be dropped. *)
Fixpoint replace_from (old new : string) (skip : nat) (s : string) : string :=
  match s with
  | EmptyString => EmptyString
  | String c s' =>
      match skip with
      | S k => replace_from old new k s'
      | O =>
          if String.prefix old s
          then new ++ replace_from old new (String.length old - 1) s'
          else String c (replace_from old new 0 s')
      end
  end.

Definition replace (old new s : string) : string := replace_from old new 0 s.

(** The ASCII characters that [str.strip] removes, and the smaller set
    that [int] skips around a literal. *)
Definition isspace (c : ascii) : bool :=
  let n := nat_of_ascii c in
  ((9 <=? n)%nat && (n <=? 13)%nat) || ((28 <=? n)%nat && (n <=? 32)%nat).

Definition isspace_c (c : ascii) : bool :=
  let n := nat_of_ascii c in
  ((9 <=? n)%nat && (n <=? 13)%nat) || (n =? 32)%nat.

Fixpoint lstrip_with (space : ascii -> bool) (s : string) : string :=
  match s with
  | EmptyString => EmptyString
  | String c s' => if space c then lstrip_with space s' else s
  end.

(** A character is kept on the right when it is not a space or when
    something is kept after it. *)
Fixpoint rstrip_with (space : ascii -> bool) (s : string) : string :=
  match s with
  | EmptyString => EmptyString
  | String c s' =>
      match rstrip_with space s' with
      | EmptyString => if space c then EmptyString else String c EmptyString
      | t => String c t
      end
  end.

(** [s.strip()]. *)
Definition strip (s : string) : string := rstrip_with isspace (lstrip_with isspace s).

(** The truth value of a string: non-empty. *)
Definition truthy (s : string) : bool :=
  match s with
  | EmptyString => false
  | String _ _ => true
  end.

Definition isdigit (c : ascii) : bool :=
  let n := nat_of_ascii c in (48 <=? n)%nat && (n <=? 57)%nat.

Definition digit_value (c : ascii) : Z := (Z.of_nat (nat_of_ascii c) - 48)%Z.

(** The digits of an integer literal, most significant first: single
    underscores may separate digits.  [acc] is the value read so far and
    [after_digit] tells whether the previous character was a digit. *)
Fixpoint digits_value (acc : Z) (after_digit : bool) (s : string) : option Z :=
  match s with
  | EmptyString => if after_digit then Some acc else None
  | String c s' =>
      if isdigit c then digits_value (10 * acc + digit_value c)%Z true s'
      else if Ascii.eqb c "_" then
        if after_digit
        then match s' with
             | EmptyString => None
             | String c' _ => if isdigit c' then digits_value acc false s' else None
             end
        else None
      else None
  end.

Fixpoint count_digits (s : string) : nat :=
  match s with
  | EmptyString => O
  | String c s' => if isdigit c then S (count_digits s') else count_digits s'
  end.

(** [int(s)]: surrounding spaces are skipped and one sign is read;
    [None] stands for [ValueError], which is also raised for more than
    4300 digits. *)
Definition int (s : string) : option Z :=
  let t := rstrip_with isspace_c (lstrip_with isspace_c s) in
  if (4300 <? count_digits t)%nat then None
  else match t with
       | String "+" t' => digits_value 0 false t'
       | String "-" t' => option_map Z.opp (digits_value 0 false t')
       | _ => digits_value 0 false t
       end.

(** [s[:n]]. *)
Definition take (n : nat) (s : string) : string := String.substring 0 n s.

End Str.

(** ** The git statistics script *)

Module GitStats.
Local Open Scope string_scope.

(** The script fails in one way only. *)
Inductive outcome (A : Type) : Type :=
| Returns (a : A)
| IndexError.
Arguments Returns {A} a.
Arguments IndexError {A}.

Record FileChange : Set := {
  added : Z;
  deleted : Z;
  filename : string
}.

Record Commit : Set := {
  hash : string;
  author : string;
  email : string;
  date : string;
  message : string;
  files : list FileChange
}.

(** The commit opened by a header line. *)
Definition header (line : string) : outcome Commit :=
  match Str.split "|" (Str.replace "COMMIT:" "" line) with
  | p0 :: p1 :: p2 :: p3 :: rest =>
      Returns {| hash := p0; author := p1; email := p2; date := p3;
                 message := match rest with p4 :: _ => p4 | [] => "" end;
                 files := [] |}
  | _ => IndexError
  end.

(** The file change of a numstat line: [None] when the line has fewer
    than three fields or a count that is not an integer. *)
Definition numstat (line : string) : option FileChange :=
  match Str.split "009" line with
  | p0 :: p1 :: p2 :: _ =>
      let added := if String.eqb p0 "-" then "0" else p0 in
      let deleted := if String.eqb p1 "-" then "0" else p1 in
      let filename := p2 in
      match Str.int added, Str.int deleted with
      | Some a, Some d => Some {| added := a; deleted := d; filename := filename |}
      | _, _ => None
      end
  | _ => None
  end.

Definition add_file (c : Commit) (f : FileChange) : Commit :=
  {| hash := hash c; author := author c; email := email c; date := date c;
     message := message c; files := files c ++ [f] |}.

(** The state of the loop: the commits closed so far and the commit
    being read. *)
Definition state : Set := (list Commit * option Commit)%type.

Definition close (st : state) : list Commit :=
  match snd st with
  | Some c => fst st ++ [c]
  | None => fst st
  end.

Definition parse_line (st : state) (line : string) : outcome state :=
  if Str.startswith "COMMIT:" line then
    match header line with
    | Returns c => Returns (close st, Some c)
    | IndexError => IndexError
    end
  else
    match snd st with
    | Some c =>
        if Str.truthy (Str.strip line) && Str.contains_char "009" line then
          match numstat line with
          | Some f => Returns (fst st, Some (add_file c f))
          | None => Returns st
          end
        else Returns st
    | None => Returns st
    end.

Fixpoint parse_lines (st : state) (lines : list string) : outcome (list Commit) :=
  match lines with
  | [] => Returns (close st)
  | line :: lines' =>
      match parse_line st line with
      | Returns st' => parse_lines st' lines'
      | IndexError => IndexError
      end
  end.

(** [parse_git_log], from the text [output] that git printed. *)
Definition parse_git_log (output : string) : outcome (list Commit) :=
  parse_lines ([], None) (Str.split "010" output).

(** *** [analyze_commits] *)

Record ExtensionStats : Set := {
  ext_added : Z;
  ext_deleted : Z;
  ext_files : Z
}.

Record AuthorStats : Set := {
  commits : Z;
  author_added : Z;
  author_deleted : Z
}.

Record Feature : Set := {
  feature_message : string;
  feature_author : string;
  feature_date : string;
  lines : Z
}.

Record Stats : Set := {
  total_commits : Z;
  total_added : Z;
  total_deleted : Z;
  by_extension : list (string * ExtensionStats);
  by_author : list (string * AuthorStats);
  features : list Feature
}.

(** [d[key] = f(d[key])] on a [defaultdict]: a missing key is created
    with the default value, at the end of the dict. *)
Fixpoint update {V : Type} (d : list (string * V)) (key : string) (default : V) (f : V -> V)
  : list (string * V) :=
  match d with
  | [] => [(key, f default)]
  | (k, v) :: d' =>
      if String.eqb key k then (k, f v) :: d'
      else (k, v) :: update d' key default f
  end.

Definition extension (filename : string) : string :=
  if Str.contains_char "." filename
  then List.last (Str.split "." filename) ""
  else "no-extension".

Definition keywords : list string := ["add"; "implement"; "create"; "fix"; "feature"].

Definition sum_lines (fs : list FileChange) : Z :=
  fold_left (fun acc f => (acc + (added f + deleted f))%Z) fs 0%Z.

(** The running totals of the loops. *)
Record totals : Set := {
  t_added : Z;
  t_deleted : Z;
  t_by_extension : list (string * ExtensionStats);
  t_by_author : list (string * AuthorStats);
  t_features : list Feature
}.

Definition count_file (a : string) (t : totals) (file_info : FileChange) : totals :=
  let added := added file_info in
  let deleted := deleted file_info in
  let filename := filename file_info in
  let by_author :=
    update (t_by_author t) a {| commits := 0; author_added := 0; author_deleted := 0 |}
      (fun s => {| commits := commits s; author_added := (author_added s + added)%Z;
                   author_deleted := author_deleted s |}) in
  let by_author :=
    update by_author a {| commits := 0; author_added := 0; author_deleted := 0 |}
      (fun s => {| commits := commits s; author_added := author_added s;
                   author_deleted := (author_deleted s + deleted)%Z |}) in
  let ext := extension filename in
  let zero := {| ext_added := 0; ext_deleted := 0; ext_files := 0 |} in
  let by_extension :=
    update (t_by_extension t) ext zero
      (fun s => {| ext_added := (ext_added s + added)%Z; ext_deleted := ext_deleted s;
                   ext_files := ext_files s |}) in
  let by_extension :=
    update by_extension ext zero
      (fun s => {| ext_added := ext_added s; ext_deleted := (ext_deleted s + deleted)%Z;
                   ext_files := ext_files s |}) in
  let by_extension :=
    update by_extension ext zero
      (fun s => {| ext_added := ext_added s; ext_deleted := ext_deleted s;
                   ext_files := (ext_files s + 1)%Z |}) in
  {| t_added := (t_added t + added)%Z;
     t_deleted := (t_deleted t + deleted)%Z;
     t_by_extension := by_extension;
     t_by_author := by_author;
     t_features := t_features t |}.

Definition count_commit (t : totals) (commit : Commit) : totals :=
  let a := author commit in
  let by_author :=
    update (t_by_author t) a {| commits := 0; author_added := 0; author_deleted := 0 |}
      (fun s => {| commits := (commits s + 1)%Z; author_added := author_added s;
                   author_deleted := author_deleted s |}) in
  let t := {| t_added := t_added t; t_deleted := t_deleted t;
              t_by_extension := t_by_extension t; t_by_author := by_author;
              t_features := t_features t |} in
  let t := fold_left (count_file a) (files commit) t in
  if (0 <? len (files commit))%Z then
    let total_lines := sum_lines (files commit) in
    if (50 <? total_lines)%Z
       || existsb (fun keyword => Str.contains keyword (lower (message commit))) keywords
    then {| t_added := t_added t; t_deleted := t_deleted t;
            t_by_extension := t_by_extension t; t_by_author := t_by_author t;
            t_features := t_features t ++
              [ {| feature_message := message commit;
                   feature_author := a;
                   feature_date := Str.take 10 (date commit);
                   lines := total_lines |} ] |}
    else t
  else t.

Definition has_files (c : Commit) : bool :=
  match files c with
  | [] => false
  | _ :: _ => true
  end.

Definition analyze_commits (commits : list Commit) : Stats :=
  let non_merge_commits := filter has_files commits in
  let t := fold_left count_commit non_merge_commits
             {| t_added := 0; t_deleted := 0; t_by_extension := []; t_by_author := [];
                t_features := [] |} in
  {| total_commits := len non_merge_commits;
     total_added := t_added t;
     total_deleted := t_deleted t;
     by_extension := t_by_extension t;
     by_author := t_by_author t;
     features := t_features t |}.

End GitStats.

(** ** [datetime.isoformat] *)

Module Isoformat.
Local Open Scope Z_scope.

(** [str(n)] for a natural number, and [n] printed with [%0<width>d]. *)
Definition digits (n : Z) : string := NilZero.string_of_uint (N.to_uint (Z.to_N n)).

Fixpoint zeros (k : nat) : string :=
  match k with
  | O => EmptyString
  | S k' => String "0" (zeros k')
  end.

Definition zfill (width : nat) (n : Z) : string :=
  let d := digits n in
  (zeros (width - String.length d) ++ d)%string.

Definition days_before_month (month : Z) : Z :=
  match month with
  | 1 => 0 | 2 => 31 | 3 => 59 | 4 => 90 | 5 => 120 | 6 => 151
  | 7 => 181 | 8 => 212 | 9 => 243 | 10 => 273 | 11 => 304 | _ => 334
  end.

Definition days_in_month (month : Z) : Z :=
  match month with
  | 2 => 28
  | 4 | 6 | 9 | 11 => 30
  | _ => 31
  end.

(** The year, month and day of the proleptic Gregorian ordinal [n],
    where day 1 is 0001-01-01. *)
Definition ord2ymd (n : Z) : Z * Z * Z :=
  let n := n - 1 in
  let n400 := n / 146097 in
  let n := n mod 146097 in
  let year := n400 * 400 + 1 in
  let n100 := n / 36524 in
  let n := n mod 36524 in
  let n4 := n / 1461 in
  let n := n mod 1461 in
  let n1 := n / 365 in
  let n := n mod 365 in
  let year := year + n100 * 100 + n4 * 4 + n1 in
  if (n1 =? 4) || (n100 =? 4) then (year - 1, 12, 31)
  else
    let leapyear := (n1 =? 3) && (negb (n4 =? 24) || (n100 =? 3)) in
    let month := Z.shiftr (n + 50) 5 in
    let preceding :=
      days_before_month month + (if (2 <? month) && leapyear then 1 else 0) in
    let '(month, preceding) :=
      if n <? preceding
      then (month - 1,
            preceding - (days_in_month (month - 1)
                         + (if (month - 1 =? 2) && leapyear then 1 else 0)))
      else (month, preceding) in
    (year, month, n - preceding + 1).

(** [t.isoformat()] for the datetime [t], in microseconds since
    0001-01-01T00:00:00: the fraction is printed when it is not zero. *)
Definition isoformat (t : Z) : string :=
  let '(year, month, day) := ord2ymd (t / Datetime.us_per_day + 1) in
  let us := t mod Datetime.us_per_day in
  let hour := us / 3600000000 in
  let minute := us / 60000000 mod 60 in
  let second := us / 1000000 mod 60 in
  let microsecond := us mod 1000000 in
  (zfill 4 year ++ "-" ++ zfill 2 month ++ "-" ++ zfill 2 day ++ "T"
   ++ zfill 2 hour ++ ":" ++ zfill 2 minute ++ ":" ++ zfill 2 second
   ++ (if (microsecond =? 0)%Z then "" else "." ++ zfill 6 microsecond))%string.

End Isoformat.

(** ** [float(s)] on a string *)

Module FloatLiteral.
Local Open Scope Z_scope.

(** Underscores may only stand between two digits. *)
Fixpoint underscores_ok (after_digit : bool) (s : string) : bool :=
  match s with
  | EmptyString => true
  | String c s' =>
      if Ascii.eqb c "_" then
        after_digit
        && match s' with
           | EmptyString => false
           | String c' _ => Str.isdigit c'
           end
        && underscores_ok false s'
      else underscores_ok (Str.isdigit c) s'
  end.

Fixpoint remove_underscores (s : string) : string :=
  match s with
  | EmptyString => EmptyString
  | String c s' =>
      if Ascii.eqb c "_" then remove_underscores s' else String c (remove_underscores s')
  end.

(** The longest prefix of digits, and what follows it. *)
Fixpoint span_digits (s : string) : string * string :=
  match s with
  | EmptyString => (EmptyString, EmptyString)
  | String c s' =>
      if Str.isdigit c
      then let '(d, rest) := span_digits s' in (String c d, rest)
      else (EmptyString, s)
  end.

Fixpoint digits_to_Z (acc : Z) (s : string) : Z :=
  match s with
  | EmptyString => acc
  | String c s' => digits_to_Z (10 * acc + Str.digit_value c) s'
  end.

Definition read_sign (s : string) : bool * string :=
  match s with
  | EmptyString => (false, s)
  | String c s' =>
      if Ascii.eqb c "+" then (false, s')
      else if Ascii.eqb c "-" then (true, s')
      else (false, s)
  end.

(** The exponent after the mantissa: nothing, or [e] or [E], a sign and
    at least one digit, up to the end of the text. *)
Definition read_exponent (s : string) : option Z :=
  match s with
  | EmptyString => Some 0
  | String c s' =>
      if Ascii.eqb c "e" || Ascii.eqb c "E" then
        let '(negative, s'') := read_sign s' in
        match span_digits s'' with
        | (String d ds, EmptyString) =>
            let e := digits_to_Z 0 (String d ds) in
            Some (if negative then - e else e)
        | _ => None
        end
      else None
  end.

(** The decimal [mantissa * 10 ^ exponent] rounded to the nearest
    binary64 number. *)
Definition round_decimal (negative : bool) (mantissa exponent : Z) : float :=
  if 0 <=? exponent
  then SF2Prim (binary_normalize prec emax
                  ((if negative then - mantissa else mantissa) * 10 ^ exponent) 0 negative)
  else SF2Prim (SFdiv prec emax (SF_of_sign_mag negative mantissa)
                  (SF_of_sign_mag false (10 ^ (- exponent)))).

(** A number: digits, an optional point and more digits, with a digit
    on one side of the point at least, and an optional exponent. *)
Definition read_number (negative : bool) (s : string) : option float :=
  let '(int_part, rest) := span_digits s in
  let '(frac_part, rest) :=
    match rest with
    | EmptyString => (EmptyString, rest)
    | String c rest' => if Ascii.eqb c "." then span_digits rest' else (EmptyString, rest)
    end in
  match int_part, frac_part with
  | EmptyString, EmptyString => None
  | _, _ =>
      match read_exponent rest with
      | Some e =>
          Some (round_decimal negative
                  (digits_to_Z 0 (int_part ++ frac_part))
                  (e - Z.of_nat (String.length frac_part)))
      | None => None
      end
  end.

(** [float(s)]: [None] stands for [ValueError]. *)
Definition float_of_str (s : string) : option float :=
  let t := Str.rstrip_with Str.isspace_c (Str.lstrip_with Str.isspace_c s) in
  if underscores_ok false t then
    let '(negative, u) := read_sign (remove_underscores t) in
    let word := lower u in
    if String.eqb word "inf" || String.eqb word "infinity"
    then Some (if negative then neg_infinity else infinity)
    else if String.eqb word "nan" then Some nan
    else read_number negative u
  else None.

End FloatLiteral.

(** ** The request handlers *)

Module Api.
Local Open Scope string_scope.

(** A value of a result dict, and pydantic's reading of it as a [float]
    field: a number is converted, a text must be a float literal. *)
Inductive value : Set :=
| Int (n : Z)
| Float (f : float)
| Text (s : string).

(** What a handler catches: an exception of the engine, or pydantic's
    [ValidationError] for a response that does not fit its model. *)
Inductive failure : Set :=
| Raised (e : exn)
| ValidationError.

(** What a handler answers: its response model, or the
    [HTTPException] it raises with the message of the failure as
    detail. *)
Inductive reply (A : Type) : Type :=
| Response (a : A)
| HTTPException (status_code : Z) (detail : failure).
Arguments Response {A} a.
Arguments HTTPException {A} status_code detail.

Definition validate_float (v : value) : failure + float :=
  match v with
  | Float f => inr f
  | Int n =>
      match float_of_int n with
      | Ok f => inr f
      | Raise e => inl (Raised e)
      end
  | Text s =>
      match FloatLiteral.float_of_str s with
      | Some f => inr f
      | None => inl ValidationError
      end
  end.

(** A field of type [Dict[str, float]]. *)
Fixpoint validate_dict (d : list (string * value)) : failure + list (string * float) :=
  match d with
  | [] => inr []
  | (k, v) :: d' =>
      match validate_float v with
      | inl e => inl e
      | inr f =>
          match validate_dict d' with
          | inl e => inl e
          | inr fs => inr ((k, f) :: fs)
          end
      end
  end.

(** A field of type [List[Dict[str, float]]]. *)
Fixpoint validate_dicts (l : list (list (string * value)))
  : failure + list (list (string * float)) :=
  match l with
  | [] => inr []
  | d :: l' =>
      match validate_dict d with
      | inl e => inl e
      | inr fs =>
          match validate_dicts l' with
          | inl e => inl e
          | inr fss => inr (fs :: fss)
          end
      end
  end.

(** *** [POST /predict/adoption] *)

Record AdoptionPredictionRequest : Set := {
  adoption_organization_id : string;
  historical_data : list AdoptionPredictor.HistoricalPoint;
  forecast_periods : Z
}.

Record AdoptionPredictionResponse : Set := {
  adoption_response_organization_id : string;
  predictions : list (list (string * float));
  confidence_intervals : list (list (string * float));
  key_drivers : list string;
  adoption_recommendations : list string
}.

(** The dicts that the predictor appends. *)
Definition prediction_dict (p : AdoptionPredictor.ForecastPoint) : list (string * value) :=
  [ ("period", Int (AdoptionPredictor.period p));
    ("adoption_rate", Float (AdoptionPredictor.adoption_rate p));
    ("timestamp", Text (Isoformat.isoformat (AdoptionPredictor.timestamp p))) ].

Definition confidence_dict (c : AdoptionPredictor.ConfidenceBand) : list (string * value) :=
  [ ("period", Int (AdoptionPredictor.ci_period c));
    ("lower_bound", Float (AdoptionPredictor.lower_bound c));
    ("upper_bound", Float (AdoptionPredictor.upper_bound c)) ].

Definition predict_adoption (clock : Z -> Z) (request : AdoptionPredictionRequest)
  : reply AdoptionPredictionResponse :=
  match AdoptionPredictor.predict clock (historical_data request) (forecast_periods request) with
  | Raise e => HTTPException 500 (Raised e)
  | Ok (predictions, confidence_intervals) =>
      match validate_dicts (map prediction_dict predictions) with
      | inl e => HTTPException 500 e
      | inr ps =>
          match validate_dicts (map confidence_dict confidence_intervals) with
          | inl e => HTTPException 500 e
          | inr cs =>
              Response
                {| adoption_response_organization_id := adoption_organization_id request;
                   predictions := ps;
                   confidence_intervals := cs;
                   key_drivers :=
                     [ "Training completion rate"; "Champion engagement";
                       "Feature availability"; "Leadership support" ];
                   adoption_recommendations :=
                     [ "Increase training accessibility"; "Activate champion program";
                       "Communicate quick wins"; "Measure and share success stories" ] |}
          end
      end
  end.

(** *** [POST /predict/roi] *)

Record ROIPredictionRequest : Set := {
  roi_organization_id : string;
  employee_count : Z;
  industry : string;
  company_size : string
}.

Record ROIPredictionResponse : Set := {
  roi_response_organization_id : string;
  predicted_roi : float;
  year1_projection : list (string * float);
  year2_projection : list (string * float);
  year3_projection : list (string * float);
  breakeven_month : Z;
  confidence_score : float
}.

Definition projection_dict (y : ROIPredictor.YearProjection) : list (string * value) :=
  [ ("costs", Int (ROIPredictor.costs y));
    ("benefits", Float (ROIPredictor.benefits y));
    ("roi", Float (ROIPredictor.roi y)) ].

Definition predict_roi (request : ROIPredictionRequest) : reply ROIPredictionResponse :=
  match ROIPredictor.predict (employee_count request) (industry request) (company_size request) with
  | Raise e => HTTPException 500 (Raised e)
  | Ok result =>
      match validate_dict (projection_dict (ROIPredictor.year1 result)) with
      | inl e => HTTPException 500 e
      | inr y1 =>
          match validate_dict (projection_dict (ROIPredictor.year2 result)) with
          | inl e => HTTPException 500 e
          | inr y2 =>
              match validate_dict (projection_dict (ROIPredictor.year3 result)) with
              | inl e => HTTPException 500 e
              | inr y3 =>
                  Response
                    {| roi_response_organization_id := roi_organization_id request;
                       predicted_roi := ROIPredictor.predicted_roi result;
                       year1_projection := y1;
                       year2_projection := y2;
                       year3_projection := y3;
                       breakeven_month := ROIPredictor.breakeven_month result;
                       confidence_score := ROIPredictor.confidence_score result |}
              end
          end
      end
  end.

(** *** [POST /segment/users] *)

Record UserSegmentationRequest (User : Type) : Type := {
  segmentation_organization_id : string;
  user_data : list User;
  n_segments : Z
}.
Arguments segmentation_organization_id {User} _.
Arguments user_data {User} _.
Arguments n_segments {User} _.

Record UserSegmentationResponse : Set := {
  segmentation_response_organization_id : string;
  segments : list UserSegmenter.Segment;
  segment_characteristics : list UserSegmenter.Segment;
  segmentation_recommendations : list (string * list string)
}.

Definition segment_users {User : Type} (request : UserSegmentationRequest User)
  : reply UserSegmentationResponse :=
  match UserSegmenter.segment (user_data request) (n_segments request) with
  | Raise e => HTTPException 500 (Raised e)
  | Ok (segments, recommendations) =>
      Response
        {| segmentation_response_organization_id := segmentation_organization_id request;
           segments := segments;
           segment_characteristics := segments;
           segmentation_recommendations := recommendations |}
  end.

(** *** [POST /predict/churn] *)





(** [d[key]]: [KeyError] for a missing key. *)
Fixpoint dict_getitem {V : Type} (d : list (string * V)) (key : string) : result V :=
  match d with
  | [] => Raise KeyError
  | (k, v) :: d' => if String.eqb key k then Ok v else dict_getitem d' key
  end.

Section Churn.
Context {stats : Pandas.SeriesStats}.

End Churn.

End Api.

(** ** Format specifications *)

(** The three ways the report formats a value: [{n}] and [{n:,}] for an
    int, and a minimal width, which pads text on the right and numbers
    on the left and never cuts. *)
Module Format.
Local Open Scope string_scope.

(** The decimal digits of a natural number. *)
Definition digits (n : N) : string := NilZero.string_of_uint (N.to_uint n).

Definition sign (n : Z) : string := if (n <? 0)%Z then "-" else "".

(** [str(n)]. *)
Definition str (n : Z) : string := sign n ++ digits (Z.abs_N n).

(** A comma before every group of three digits, counted from the
    right. *)
Fixpoint group (digits : string) : string :=
  match digits with
  | "" => ""
  | String c rest =>
      String c (if (0 <? String.length rest)%nat && (String.length rest mod 3 =? 0)%nat
                then "," ++ group rest
                else group rest)
  end.

(** [format(n, ',')]. *)
Definition commas (n : Z) : string := sign n ++ group (digits (Z.abs_N n)).

Fixpoint times (s : string) (n : nat) : string :=
  match n with
  | O => ""
  | S n' => s ++ times s n'
  end.

Definition ljust (width : nat) (s : string) : string :=
  s ++ times " " (width - String.length s).

Definition rjust (width : nat) (s : string) : string :=
  times " " (width - String.length s) ++ s.

End Format.

(** ** [print_report] and [main] *)

Module Report.
Import GitStats.
Local Open Scope string_scope.

(** [sorted(items, key=key, reverse=True)]: the keys decrease, and items
    of equal keys stay in the order they had. *)
Fixpoint insert {A : Type} (key : A -> Z) (x : A) (sorted : list A) : list A :=
  match sorted with
  | [] => [x]
  | y :: sorted' =>
      if (key x <? key y)%Z then y :: insert key x sorted' else x :: sorted
  end.

Definition sorted_reverse {A : Type} (key : A -> Z) (items : list A) : list A :=
  fold_right (insert key) [] items.

(** [enumerate(items, start)]. *)
Fixpoint enumerate {A : Type} (start : Z) (items : list A) : list (Z * A) :=
  match items with
  | [] => []
  | x :: items' => (start, x) :: enumerate (start + 1)%Z items'
  end.

Definition rule : string := Format.times "=" 80.

Definition author_lines (item : string * AuthorStats) : list string :=
  let (author, data) := item in
  [ "   " ++ author ++ ":";
    "      Commits: " ++ Format.str (commits data);
    "      Lines Added: " ++ Format.commas (author_added data);
    "      Lines Deleted: " ++ Format.commas (author_deleted data);
    "      Net: " ++ Format.commas (author_added data - author_deleted data);
    "" ].

Definition ext_total (item : string * ExtensionStats) : Z :=
  (ext_added (snd item) + ext_deleted (snd item))%Z.

(** [sorted_extensions[:15]]. *)
Definition top_extensions (stats : Stats) : list (string * ExtensionStats) :=
  let sorted_extensions := sorted_reverse ext_total (by_extension stats) in
  firstn 15 sorted_extensions.

Definition extension_line (item : string * ExtensionStats) : string :=
  let (ext, data) := item in
  let total := (ext_added data + ext_deleted data)%Z in
  "   ." ++ Format.ljust 20 ext
    ++ " | Files: " ++ Format.rjust 3 (Format.str (ext_files data))
    ++ " | +" ++ Format.rjust 6 (Format.commas (ext_added data))
    ++ " -" ++ Format.rjust 6 (Format.commas (ext_deleted data))
    ++ " | Total: " ++ Format.rjust 7 (Format.commas total).

(** [sorted_features[:20]]. *)
Definition top_features (stats : Stats) : list Feature :=
  let sorted_features := sorted_reverse lines (features stats) in
  firstn 20 sorted_features.

Definition feature_lines (numbered : Z * Feature) : list string :=
  let (i, feature) := numbered in
  [ "   " ++ Format.str i ++ ". [" ++ feature_date feature ++ "] "
      ++ Str.take 90 (feature_message feature);
    "      Author: " ++ feature_author feature
      ++ " | Lines Changed: " ++ Format.commas (lines feature);
    "" ].

(** The lines that [print_report] prints. *)
Definition print_report (stats : Stats) : list string :=
  [ rule;
    "GIT HISTORY ANALYSIS - LAST 7 DAYS";
    rule;
    "";
    "📊 OVERALL STATISTICS";
    "   Total Commits (non-merge): " ++ Format.str (total_commits stats);
    "   Total Lines Added: " ++ Format.commas (total_added stats);
    "   Total Lines Deleted: " ++ Format.commas (total_deleted stats);
    "   Net Lines Changed: " ++ Format.commas (total_added stats - total_deleted stats);
    "";
    "👥 BY AUTHOR" ]
  ++ flat_map author_lines
       (sorted_reverse (fun x => commits (snd x)) (by_author stats))
  ++ [ "📁 BY FILE TYPE" ]
  ++ map extension_line (top_extensions stats)
  ++ [ "";
       "🚀 MAJOR FEATURES/CHANGES (" ++ Format.str (len (features stats))
         ++ " significant commits)";
       "" ]
  ++ flat_map feature_lines (enumerate 1 (top_features stats)).

(** [main] on the output of the git command: the lines printed, and how
    the run ends. *)
Definition main (output : string) : list string * outcome unit :=
  let printed := ["Analyzing git history..."] in
  match parse_git_log output with
  | IndexError => (printed, IndexError)
  | Returns commits =>
      let stats := analyze_commits commits in
      ((printed ++ print_report stats)%list, Returns tt)
  end.

End Report.

(** ** Specification-side definitions *)

(** *** Binary64 numbers as real numbers

    [F2R m e] is the real number [m * 2^e]; [is_float x s a] says that
    [x] is the normal binary64 number of sign [s] and magnitude [a];
    [near a w] says that [a] is [w] up to one unit in the last place. *)

Definition bpow (e : Z) : R := powerRZ 2 e.

Definition F2R (m e : Z) : R := (IZR m * bpow e)%R.

Definition u : R := bpow (-52).

Definition is_float (x : spec_float) (s : bool) (a : R) : Prop :=
  exists m e, x = S754_finite s m e /\ Zpos (digits2_pos m) = 53%Z /\
              (-1074 <= e <= 971)%Z /\ a = F2R (Zpos m) e.

Definition near (a w : R) : Prop := (w * (1 - u) <= a <= w * (1 + u))%R.

(** A binary64 number between 10 and 95, by mantissa and exponent. *)
Definition within_10_95 (x : spec_float) : Prop :=
  exists m e, x = S754_finite false m e /\ (2 ^ 52 <= Zpos m < 2 ^ 53)%Z /\
    ((e = -49 /\ 5629499534213120 <= Zpos m) \/ e = -48 \/ e = -47 \/
     (e = -46 /\ Zpos m <= 6685030696878080))%Z.

(** [10 <= f <= 95] in binary64. *)
Definition rate_ok (f : float) : bool := (10 <=? f)%float && (f <=? 95)%float.

(** The floor of a binary64 number: the largest integer not above it. *)
Definition float_floor (x : float) : Z :=
  match Prim2SF x with
  | S754_finite s m e => Z.shiftl (cond_Zopp s (Zpos m)) e
  | _ => 0%Z
  end.

(** *** The multiplier tables in exact arithmetic

    The multipliers of the ROI estimator as percentages, looked up on
    the lower-cased key, 100 when the key is not listed. *)
Definition industry_percent (industry : string) : Z :=
  let key := lower industry in
  if String.eqb key "technology" then 130
  else if String.eqb key "financial_services" then 120
  else if String.eqb key "healthcare" then 110
  else if String.eqb key "manufacturing" then 100
  else if String.eqb key "retail" then 95
  else if String.eqb key "education" then 90
  else 100.

Definition size_percent (company_size : string) : Z :=
  let key := lower company_size in
  if String.eqb key "small" then 90
  else if String.eqb key "medium" then 100
  else if String.eqb key "large" then 110
  else if String.eqb key "enterprise" then 120
  else 100.

(** [200 * industry_multiplier * size_multiplier], exactly, in hundredths. *)
Definition exact_roi_hundredths (industry company_size : string) : Z :=
  (2 * industry_percent industry * size_percent company_size)%Z.

(** *** Lookup without regard to case

    A name is looked up as the claim words it: two names match when they
    differ at most in the case of ASCII letters, the first key of the
    table that matches gives the value, and the default is taken when
    none matches.  The values are percentages. *)
Definition same_letter (a b : ascii) : bool :=
  let x := nat_of_ascii a in
  let y := nat_of_ascii b in
  (x =? y)%nat
  || ((65 <=? x)%nat && (x <=? 90)%nat && (y =? x + 32)%nat)
  || ((65 <=? y)%nat && (y <=? 90)%nat && (x =? y + 32)%nat).

Fixpoint same_ignoring_case (s t : string) : bool :=
  match s, t with
  | EmptyString, EmptyString => true
  | String a s', String b t' => same_letter a b && same_ignoring_case s' t'
  | _, _ => false
  end.

Fixpoint lookup_ignoring_case (table : list (string * Z)) (name : string) (default : Z) : Z :=
  match table with
  | [] => default
  | (key, value) :: table' =>
      if same_ignoring_case name key then value
      else lookup_ignoring_case table' name default
  end.

Definition industry_table : list (string * Z) :=
  [ ("technology", 130); ("financial_services", 120); ("healthcare", 110);
    ("manufacturing", 100); ("retail", 95); ("education", 90); ("default", 100) ]%string%Z.

Definition size_table : list (string * Z) :=
  [ ("small", 90); ("medium", 100); ("large", 110); ("enterprise", 120) ]%string%Z.

(** No capital ASCII letter occurs in [s]. *)
Definition no_capital (s : string) : bool :=
  forallb (fun c => negb ((65 <=? nat_of_ascii c)%nat && (nat_of_ascii c <=? 90)%nat))
          (list_ascii_of_string s).

(** *** Inputs of the worked examples *)

(** A clock started at noon of 2026-11-03 (day 739923 of the calendar)
    that advances by one microsecond per reading. *)
Definition clock_2026 (k : Z) : Z :=
  (739922 * Datetime.us_per_day + 43200000000 + k)%Z.

(** The same clock one hour later. *)
Definition clock_2026_later (k : Z) : Z := (clock_2026 k + 3600000000)%Z.

Definition history_50_70 : list AdoptionPredictor.HistoricalPoint :=
  [ {| AdoptionPredictor.adoption_rate_item := Some 50%float |};
    {| AdoptionPredictor.adoption_rate_item := Some 70%float |} ].

(** The flat series 63.865, 63.865. *)
Definition history_flat : list AdoptionPredictor.HistoricalPoint :=
  [ {| AdoptionPredictor.adoption_rate_item := Some 63.865%float |};
    {| AdoptionPredictor.adoption_rate_item := Some 63.865%float |} ].

(** Two records without the key ['adoption_rate']. *)
Definition history_no_rate : list AdoptionPredictor.HistoricalPoint :=
  [ {| AdoptionPredictor.adoption_rate_item := None |};
    {| AdoptionPredictor.adoption_rate_item := None |} ].

Definition days_ago (now days : Z) : Z := (now - days * Datetime.us_per_day)%Z.


(** Eleven records 31 days old: ten idle days, then twenty interactions. *)
Definition bursty_history (now : Z) : list ChurnPredictor.EngagementRecord :=
  repeat {| ChurnPredictor.date := days_ago now 31; ChurnPredictor.interactions := 0 |} 10
  ++ [ {| ChurnPredictor.date := days_ago now 31; ChurnPredictor.interactions := 20 |} ].

(** A record dated 14 days, 23 hours and 30 minutes before noon of
    2026-11-03. *)
Definition fortnight_old : list ChurnPredictor.EngagementRecord :=
  [ {| ChurnPredictor.date := (clock_2026 0 - 14 * Datetime.us_per_day - 84600000000)%Z;
       ChurnPredictor.interactions := 5 |} ].

(** The projection for 100 employees of a large technology company. *)
Definition roi_100_technology_large : ROIPredictor.ROIProjection :=
  {| ROIPredictor.predicted_roi := 286;
     ROIPredictor.year1 :=
       {| ROIPredictor.costs := 51000; ROIPredictor.benefits := 72000;
          ROIPredictor.roi := 41.18 |};
     ROIPredictor.year2 :=
       {| ROIPredictor.costs := 36000; ROIPredictor.benefits := 96000;
          ROIPredictor.roi := 166.67 |};
     ROIPredictor.year3 :=
       {| ROIPredictor.costs := 36000; ROIPredictor.benefits := 108000;
          ROIPredictor.roi := 200 |};
     ROIPredictor.breakeven_month := 8;
     ROIPredictor.confidence_score := 0.85 |}.

(** The assessment of a user whose score is exactly 0.7. *)
Definition assessment_0_7 : ChurnPredictor.ChurnAssessment :=
  {| ChurnPredictor.churn_probability := 0.7;
     ChurnPredictor.risk_level := ChurnPredictor.medium;
     ChurnPredictor.key_risk_factors :=
       ["Inactive for over 2 weeks"; "Low engagement level"]%string |}.

(** *** Sums over lists and dicts *)

Definition Zsum (l : list Z) : Z := fold_right Z.add 0%Z l.

Definition dict_sum {V : Type} (g : V -> Z) (d : list (string * V)) : Z :=
  Zsum (map (fun kv => g (snd kv)) d).

(** The per-author and per-extension figures add up to the running
    totals, the commits of the authors to [n_commits] and the files of
    the extensions to [n_files]. *)
Definition balanced (t : GitStats.totals) (n_commits n_files : Z) : Prop :=
  dict_sum GitStats.author_added (GitStats.t_by_author t) = GitStats.t_added t /\
  dict_sum GitStats.author_deleted (GitStats.t_by_author t) = GitStats.t_deleted t /\
  dict_sum GitStats.commits (GitStats.t_by_author t) = n_commits /\
  dict_sum GitStats.ext_added (GitStats.t_by_extension t) = GitStats.t_added t /\
  dict_sum GitStats.ext_deleted (GitStats.t_by_extension t) = GitStats.t_deleted t /\
  dict_sum GitStats.ext_files (GitStats.t_by_extension t) = n_files.

(** *** Features *)

(** The commits reported as features: more than 50 changed lines, or a
    keyword in the message. *)
Definition notable (c : GitStats.Commit) : bool :=
  (50 <? GitStats.sum_lines (GitStats.files c))%Z
  || existsb (fun keyword => Str.contains keyword (lower (GitStats.message c))) GitStats.keywords.

Definition feature_of (c : GitStats.Commit) : GitStats.Feature :=
  {| GitStats.feature_message := GitStats.message c;
     GitStats.feature_author := GitStats.author c;
     GitStats.feature_date := Str.take 10 (GitStats.date c);
     GitStats.lines := GitStats.sum_lines (GitStats.files c) |}.

(** *** The log that git prints

    One header line per commit, in the format the script asks for, then
    one numstat line per changed file (two dashes stand for the counts
    of a binary file), then a blank line. *)

Inductive Counts : Set :=
| Lines (added deleted : N)
| Binary.

Record LoggedFile : Set := {
  logged_counts : Counts;
  logged_name : string
}.

Record LoggedCommit : Set := {
  logged_hash : string;
  logged_author : string;
  logged_email : string;
  logged_date : string;
  logged_subject : string;
  logged_files : list LoggedFile
}.

Definition decimal_digits (n : N) : string := NilZero.string_of_uint (N.to_uint n).

Definition header_fields (c : LoggedCommit) : string :=
  (logged_hash c ++ "|" ++ logged_author c ++ "|" ++ logged_email c ++ "|"
   ++ logged_date c ++ "|" ++ logged_subject c)%string.

Definition header_line (c : LoggedCommit) : string := ("COMMIT:" ++ header_fields c)%string.

Definition numstat_line (f : LoggedFile) : string :=
  match logged_counts f with
  | Lines a d =>
      (decimal_digits a ++ String "009" (decimal_digits d ++ String "009" (logged_name f)))%string
  | Binary => String "-" (String "009" (String "-" (String "009" (logged_name f))))
  end.

Definition commit_lines (c : LoggedCommit) : list string :=
  header_line c :: map numstat_line (logged_files c) ++ [EmptyString].

Definition render_log (log : list LoggedCommit) : string :=
  Str.join (String "010" EmptyString) (flat_map commit_lines log).

(** What the script should read from the log: a binary file changes no
    line. *)
Definition change_of (f : LoggedFile) : GitStats.FileChange :=
  match logged_counts f with
  | Lines a d =>
      {| GitStats.added := Z.of_N a; GitStats.deleted := Z.of_N d;
         GitStats.filename := logged_name f |}
  | Binary =>
      {| GitStats.added := 0%Z; GitStats.deleted := 0%Z; GitStats.filename := logged_name f |}
  end.

Definition commit_of (c : LoggedCommit) : GitStats.Commit :=
  {| GitStats.hash := logged_hash c; GitStats.author := logged_author c;
     GitStats.email := logged_email c; GitStats.date := logged_date c;
     GitStats.message := logged_subject c;
     GitStats.files := map change_of (logged_files c) |}.

(** The logs that are read back: no header field holds a bar or a line
    break, the header holds the text [COMMIT:] only at its start, no
    file name holds a tab or a line break, and no count has more than
    4300 digits. *)
Definition plain_field (s : string) : bool :=
  negb (Str.contains_char "|" s) && negb (Str.contains_char "010" s).

Definition plain_file (f : LoggedFile) : bool :=
  negb (Str.contains_char "009" (logged_name f))
  && negb (Str.contains_char "010" (logged_name f))
  && match logged_counts f with
     | Lines a d =>
         (String.length (decimal_digits a) <=? 4300)%nat
         && (String.length (decimal_digits d) <=? 4300)%nat
     | Binary => true
     end.

Definition plain_commit (c : LoggedCommit) : bool :=
  plain_field (logged_hash c) && plain_field (logged_author c)
  && plain_field (logged_email c) && plain_field (logged_date c)
  && plain_field (logged_subject c)
  && negb (Str.contains "COMMIT:" (header_fields c))
  && forallb plain_file (logged_files c).

Fixpoint count_char (c : ascii) (s : string) : nat :=
  match s with
  | EmptyString => O
  | String c' s' => if Ascii.eqb c' c then S (count_char c s') else count_char c s'
  end.

(** The lines that a logged file adds and deletes. *)
Definition logged_added (f : LoggedFile) : Z :=
  match logged_counts f with
  | Lines a _ => Z.of_N a
  | Binary => 0%Z
  end.

Definition logged_deleted (f : LoggedFile) : Z :=
  match logged_counts f with
  | Lines _ d => Z.of_N d
  | Binary => 0%Z
  end.

Definition logged_has_files (c : LoggedCommit) : bool :=
  match logged_files c with
  | [] => false
  | _ :: _ => true
  end.

(** The logs that the git command prints: no header field holds a line
    break, no file name holds a tab or a line break, and no count has
    more than 4300 digits.  A field may hold bars and the text
    [COMMIT:]. *)
Definition printed_commit (c : LoggedCommit) : bool :=
  negb (Str.contains_char "010" (header_fields c))
  && forallb plain_file (logged_files c).

(** The file changes that a logged commit stands for. *)
Definition changes_of (c : LoggedCommit) : list GitStats.FileChange :=
  map change_of (logged_files c).

(** A log whose subjects hold a bar and the marker text. *)
Definition marked_log : list LoggedCommit :=
  [ {| logged_hash := "9fceb02"; logged_author := "Ann"; logged_email := "ann@example.org";
       logged_date := "2024-05-06 10:00:00 +0000";
       logged_subject := "Revert COMMIT: marker | keep the parser";
       logged_files :=
         [ {| logged_counts := Lines 120%N 4%N; logged_name := "src/parse.py" |};
           {| logged_counts := Binary; logged_name := "docs/logo.png" |} ] |};
    {| logged_hash := "1c002dd"; logged_author := "Bob"; logged_email := "bob@example.org";
       logged_date := "2024-05-07 11:30:00 +0000"; logged_subject := "tidy";
       logged_files :=
         [ {| logged_counts := Lines 3%N 3%N; logged_name := "Makefile" |} ] |} ]%string.

(** *** The largest items of a list *)

Definition descending {A : Type} (key : A -> Z) (a b : A) : Prop := (key b <= key a)%Z.

(** [rows] are the [n] largest of [items], largest first: the keys
    decrease along [rows]; with the items left out, [rest], they are the
    items; nothing left out has a larger key than a row; and items of
    one key are in [rows] and then [rest] in the order of [items]. *)
Definition largest {A : Type} (key : A -> Z) (n : Z) (items rows : list A) : Prop :=
  len rows = Z.min n (len items) /\
  StronglySorted (descending key) rows /\
  exists rest,
    Permutation (rows ++ rest) items /\
    (forall a b, In a rows -> In b rest -> (key b <= key a)%Z) /\
    (forall k, filter (fun x => (key x =? k)%Z) (rows ++ rest)
               = filter (fun x => (key x =? k)%Z) items).

(** The value of a decimal numeral read after [acc]. *)
Fixpoint uint_value (acc : Z) (d : Decimal.uint) : Z :=
  match d with
  | Nil => acc
  | D0 l => uint_value (10 * acc + 0)%Z l
  | D1 l => uint_value (10 * acc + 1)%Z l
  | D2 l => uint_value (10 * acc + 2)%Z l
  | D3 l => uint_value (10 * acc + 3)%Z l
  | D4 l => uint_value (10 * acc + 4)%Z l
  | D5 l => uint_value (10 * acc + 5)%Z l
  | D6 l => uint_value (10 * acc + 6)%Z l
  | D7 l => uint_value (10 * acc + 7)%Z l
  | D8 l => uint_value (10 * acc + 8)%Z l
  | D9 l => uint_value (10 * acc + 9)%Z l
  end.

(** A log of two commits, the first with a binary file. *)
Definition sample_log : list LoggedCommit :=
  [ {| logged_hash := "9fceb02"; logged_author := "Ann"; logged_email := "ann@example.org";
       logged_date := "2024-05-06 10:00:00 +0000"; logged_subject := "Add the parser";
       logged_files :=
         [ {| logged_counts := Lines 120%N 4%N; logged_name := "src/parse.py" |};
           {| logged_counts := Binary; logged_name := "docs/logo.png" |} ] |};
    {| logged_hash := "1c002dd"; logged_author := "Bob"; logged_email := "bob@example.org";
       logged_date := "2024-05-07 11:30:00 +0000"; logged_subject := "tidy";
       logged_files :=
         [ {| logged_counts := Lines 3%N 3%N; logged_name := "Makefile" |} ] |} ]%string.

(** The first commit of [sample_log]. *)
Definition hd_commit (log : list LoggedCommit) : LoggedCommit :=
  List.hd {| logged_hash := ""; logged_author := ""; logged_email := ""; logged_date := "";
             logged_subject := ""; logged_files := [] |}%string log.

(** * Theory *)

Local Open Scope Z_scope.

(** Inversion of a chain of binds that ends in [Ok]. *)
Ltac invert_binds H :=
  repeat match type of H with
         | bind ?c _ = Ok _ =>
             let E := fresh "E" in
             destruct c eqn:E; cbn [bind] in H; [|discriminate H]
         end.

(** ** Rounding in [SpecFloat] *)

Lemma digits2_bounds p :
  2 ^ (Zpos (digits2_pos p) - 1) <= Zpos p < 2 ^ Zpos (digits2_pos p).
Proof.
  induction p as [p IH|p IH|]; cbn [digits2_pos].
  - rewrite Pos2Z.inj_succ. change (Zpos p~1) with (2 * Zpos p + 1).
    replace (Z.succ (Zpos (digits2_pos p)) - 1) with (Z.succ (Zpos (digits2_pos p) - 1)) by lia.
    rewrite !Z.pow_succ_r by lia.
    generalize dependent (2 ^ (Zpos (digits2_pos p) - 1)). generalize (2 ^ Zpos (digits2_pos p)). intros; lia.
  - rewrite Pos2Z.inj_succ. change (Zpos p~0) with (2 * Zpos p).
    replace (Z.succ (Zpos (digits2_pos p)) - 1) with (Z.succ (Zpos (digits2_pos p) - 1)) by lia.
    rewrite !Z.pow_succ_r by lia.
    generalize dependent (2 ^ (Zpos (digits2_pos p) - 1)). generalize (2 ^ Zpos (digits2_pos p)). intros; lia.
  - cbn. lia.
Qed.

Lemma shr_1_m mrs : 0 <= shr_m mrs -> shr_m (shr_1 mrs) = shr_m mrs / 2.
Proof.
  destruct mrs as [m r s]; cbn [shr_m]; intros Hm.
  destruct m as [|[p|p|]|p]; cbn [shr_1 shr_m].
  - reflexivity.
  - change (Zpos p~1) with (2 * Zpos p + 1). Z.div_mod_to_equations; lia.
  - change (Zpos p~0) with (2 * Zpos p). Z.div_mod_to_equations; lia.
  - reflexivity.
  - lia.
Qed.

Lemma iter_shr_m p : forall mrs, 0 <= shr_m mrs ->
  shr_m (SpecFloat.iter_pos shr_1 p mrs) = shr_m mrs / 2 ^ Zpos p.
Proof.
  induction p as [p IH|p IH|]; intros mrs Hm; cbn [SpecFloat.iter_pos].
  - assert (H1 : 0 <= shr_m (shr_1 mrs)) by (rewrite shr_1_m by lia; apply Z.div_pos; lia).
    assert (H2 : 0 <= shr_m (SpecFloat.iter_pos shr_1 p (shr_1 mrs)))
      by (rewrite IH by lia; apply Z.div_pos; [lia | apply Z.pow_pos_nonneg; lia]).
    rewrite IH, IH, shr_1_m by lia.
    change (Zpos p~1) with (2 * Zpos p + 1).
    replace (2 * Zpos p + 1) with (1 + Zpos p + Zpos p) by lia.
    rewrite !Z.pow_add_r by lia. change (2 ^ 1) with 2.
    assert (0 < 2 ^ Zpos p) by (apply Z.pow_pos_nonneg; lia).
    rewrite !Z.div_div by lia. f_equal. lia.
  - assert (H2 : 0 <= shr_m (SpecFloat.iter_pos shr_1 p mrs))
      by (rewrite IH by lia; apply Z.div_pos; [lia | apply Z.pow_pos_nonneg; lia]).
    rewrite IH, IH by lia.
    change (Zpos p~0) with (2 * Zpos p).
    replace (2 * Zpos p) with (Zpos p + Zpos p) by lia.
    rewrite !Z.pow_add_r by lia.
    assert (0 < 2 ^ Zpos p) by (apply Z.pow_pos_nonneg; lia).
    rewrite !Z.div_div by lia. reflexivity.
  - rewrite shr_1_m by lia. reflexivity.
Qed.

Lemma fexp_normal k : -1074 <= k - 53 -> fexp prec emax k = k - 53.
Proof. unfold fexp, SpecFloat.emin, prec, emax. lia. Qed.

Lemma shr_m_of_loc m l : shr_m (shr_record_of_loc m l) = m.
Proof. destruct l as [|[| |]]; reflexivity. Qed.

Lemma shr_fexp_spec p ex lx :
  53 <= Zpos (digits2_pos p) -> -1074 <= Zpos (digits2_pos p) + ex - 53 ->
  exists mrs, shr_fexp prec emax (Zpos p) ex lx = (mrs, Zpos (digits2_pos p) + ex - 53)
    /\ shr_m mrs = Zpos p / 2 ^ (Zpos (digits2_pos p) - 53).
Proof.
  intros Hd Hn. unfold shr_fexp. cbn [Zdigits2].
  rewrite fexp_normal by lia.
  set (d := Zpos (digits2_pos p)) in *.
  replace (d + ex - 53 - ex) with (d - 53) by lia.
  destruct (d - 53) as [|k|k] eqn:Hk; try lia.
  - cbn [shr]. eexists; split.
    + f_equal. lia.
    + rewrite shr_m_of_loc. cbn. rewrite Z.div_1_r. reflexivity.
  - cbn [shr]. eexists; split.
    + f_equal. lia.
    + rewrite iter_shr_m by (rewrite shr_m_of_loc; lia).
      rewrite shr_m_of_loc. reflexivity.
Qed.

Lemma rne_cases m l : round_nearest_even m l = m \/ round_nearest_even m l = m + 1.
Proof.
  destruct l as [|[| |]]; cbn [round_nearest_even]; auto.
  destruct (Z.even m); auto.
Qed.

Lemma digits2_unique p k : 0 <= k -> 2 ^ k <= Zpos p < 2 ^ (k + 1) ->
  Zpos (digits2_pos p) = k + 1.
Proof.
  intros Hk [H3 H4]. destruct (digits2_bounds p) as [H1 H2].
  set (d := Zpos (digits2_pos p)) in *.
  destruct (Z.lt_trichotomy d (k + 1)) as [Hlt|[Heq|Hgt]]; auto.
  - assert (2 ^ d <= 2 ^ k) by (apply Z.pow_le_mono_r; lia). lia.
  - assert (2 ^ (k + 1) <= 2 ^ (d - 1)) by (apply Z.pow_le_mono_r; lia). lia.
Qed.

Lemma binary_round_aux_spec sx p ex lx :
  53 <= Zpos (digits2_pos p) -> -1074 <= Zpos (digits2_pos p) + ex - 53 ->
  Zpos (digits2_pos p) + ex <= 1023 ->
  exists m' e' z,
    binary_round_aux prec emax sx (Zpos p) ex lx = S754_finite sx m' e' /\
    (z = Zpos p / 2 ^ (Zpos (digits2_pos p) - 53) \/
     z = Zpos p / 2 ^ (Zpos (digits2_pos p) - 53) + 1) /\
    ((Zpos m' = z /\ e' = Zpos (digits2_pos p) + ex - 53) \/
     (Zpos m' = 2 ^ 52 /\ e' = Zpos (digits2_pos p) + ex - 52 /\ z = 2 ^ 53)) /\
    Zpos (digits2_pos m') = 53 /\ -1074 <= e' <= 971.
Proof.
  intros Hd Hn Hx.
  destruct (shr_fexp_spec p ex lx Hd Hn) as (mrs & Hs & Hm).
  unfold binary_round_aux. rewrite Hs.
  set (d := Zpos (digits2_pos p)) in *.
  set (q := Zpos p / 2 ^ (d - 53)) in *.
  assert (Hq : 2 ^ 52 <= q < 2 ^ 53).
  { pose proof (digits2_bounds p) as Hb. fold d in Hb.
    assert (Hp : 0 < 2 ^ (d - 53)) by (apply Z.pow_pos_nonneg; lia).
    replace (d - 1) with (52 + (d - 53)) in Hb by lia.
    replace d with (53 + (d - 53)) in Hb at 2 by lia.
    rewrite !Z.pow_add_r in Hb by lia.
    unfold q. split.
    - apply Z.div_le_lower_bound; lia.
    - apply Z.div_lt_upper_bound; lia. }
  set (m2 := round_nearest_even (shr_m mrs) (loc_of_shr_record mrs)).
  assert (Hm2 : m2 = q \/ m2 = q + 1) by (unfold m2; rewrite <- Hm; apply rne_cases).
  assert (Hpos : 0 < m2) by lia.
  destruct m2 as [|p2|p2] eqn:Ep2; try lia.
  destruct (Z.eq_dec (Zpos p2) (2 ^ 53)) as [Hc|Hc].
  - (* carry *)
    assert (Hd2 : Zpos (digits2_pos p2) = 54).
    { apply (digits2_unique p2 53); [lia|]. change (53 + 1) with 54. lia. }
    unfold shr_fexp. cbn [Zdigits2]. rewrite Hd2.
    rewrite fexp_normal by lia.
    replace (54 + (d + ex - 53) - 53 - (d + ex - 53)) with 1 by lia.
    cbn [shr SpecFloat.iter_pos shr_record_of_loc].
    assert (Hp2 : p2 = (2 ^ 53)%positive) by (apply Pos2Z.inj; exact Hc).
    subst p2. cbn [shr_1 shr_m].
    replace (d + ex - 53 + 1 <=? emax - prec) with true
      by (symmetry; apply Z.leb_le; unfold emax, prec; lia).
    eexists _, _, (2 ^ 53). split; [reflexivity|].
    split; [lia|]. split; [right; repeat split; lia|].
    split; [reflexivity | lia].
  - assert (Hd2 : Zpos (digits2_pos p2) = 53).
    { apply (digits2_unique p2 52); [lia|]. change (52 + 1) with 53. lia. }
    unfold shr_fexp. cbn [Zdigits2]. rewrite Hd2.
    rewrite fexp_normal by lia.
    replace (53 + (d + ex - 53) - 53 - (d + ex - 53)) with 0 by lia.
    cbn [shr shr_record_of_loc shr_m].
    replace (d + ex - 53 <=? emax - prec) with true
      by (symmetry; apply Z.leb_le; unfold emax, prec; lia).
    eexists _, _, (Zpos p2). split; [reflexivity|].
    split; [lia|]. split; [left; split; lia|].
    split; [exact Hd2 | lia].
Qed.

(** ** Real values of binary64 numbers *)

Lemma bpow_gt_0 e : (0 < bpow e)%R.
Proof. apply powerRZ_lt; lra. Qed.

Lemma bpow_add a b : bpow (a + b) = (bpow a * bpow b)%R.
Proof. apply powerRZ_add; lra. Qed.

Lemma bpow_IZR k : 0 <= k -> bpow k = IZR (2 ^ k).
Proof.
  intros Hk. rewrite <- (Z2Nat.id k) at 1 by lia.
  unfold bpow. rewrite <- pow_powerRZ, pow_IZR, Z2Nat.id by lia. reflexivity.
Qed.

Lemma bpow_ge_1 k : 0 <= k -> (1 <= bpow k)%R.
Proof.
  intros Hk. rewrite bpow_IZR by lia. apply IZR_le.
  assert (0 < 2 ^ k) by (apply Z.pow_pos_nonneg; lia). lia.
Qed.

Lemma bpow_le a b : a <= b -> (bpow a <= bpow b)%R.
Proof.
  intros H. replace b with (a + (b - a)) by lia. rewrite bpow_add.
  pose proof (bpow_gt_0 a). pose proof (bpow_ge_1 (b - a) ltac:(lia)). nra.
Qed.

Lemma bpow_lt a b : a < b -> (bpow a < bpow b)%R.
Proof.
  intros H. replace b with (a + 1 + (b - a - 1)) by lia. rewrite !bpow_add.
  pose proof (bpow_gt_0 a). pose proof (bpow_ge_1 (b - a - 1) ltac:(lia)).
  replace (bpow 1) with 2%R by (unfold bpow; simpl; lra). nra.
Qed.

Lemma bpow_lt_inv a b : (bpow a < bpow b)%R -> a < b.
Proof.
  intros H. destruct (Z_lt_le_dec a b) as [|Hle]; auto.
  apply bpow_le in Hle. lra.
Qed.

Lemma bpow_le_inv a b : (bpow a <= bpow b)%R -> a <= b.
Proof.
  intros H. destruct (Z_le_gt_dec a b) as [|Hgt]; auto.
  apply Z.gt_lt, bpow_lt in Hgt. lra.
Qed.

Lemma digits_mag p e :
  (bpow (Zpos (digits2_pos p) + e - 1) <= F2R (Zpos p) e < bpow (Zpos (digits2_pos p) + e))%R.
Proof.
  destruct (digits2_bounds p) as [H1 H2]. unfold F2R.
  set (d := Zpos (digits2_pos p)) in *.
  replace (d + e - 1) with ((d - 1) + e) by lia.
  rewrite !bpow_add, (bpow_IZR (d - 1)), (bpow_IZR d) by lia.
  apply IZR_le in H1. apply IZR_lt in H2.
  pose proof (bpow_gt_0 e). split; nra.
Qed.

Lemma u_eq : u = (/ 4503599627370496)%R.
Proof.
  unfold u, bpow. change (-52) with (- (52)). rewrite powerRZ_neg'.
  f_equal. change (powerRZ 2 52) with (bpow 52). rewrite bpow_IZR by lia.
  f_equal.
Qed.

Lemma near_core (W E K p q z : R) :
  (0 < E -> 0 < K -> p * E <= W < (p + 1) * E -> q * K <= p -> p + 1 <= (q + 1) * K ->
   4503599627370496 <= q -> z = q \/ z = q + 1 ->
   W * (1 - / 4503599627370496) <= z * (E * K) <= W * (1 + / 4503599627370496))%R.
Proof.
  intros HE HK [HW1 HW2] Hq1 Hq2 Hq3 Hz.
  assert (HEK : (0 < E * K)%R) by (apply Rmult_lt_0_compat; assumption).
  remember (E * K)%R as G eqn:HG.
  assert (HWlo : (q * G <= W)%R).
  { apply Rle_trans with (p * E)%R; [|assumption].
    subst G. replace (q * (E * K))%R with ((q * K) * E)%R by ring.
    apply Rmult_le_compat_r; lra. }
  assert (HWhi : (W <= (q + 1) * G)%R).
  { apply Rle_trans with ((p + 1) * E)%R; [lra|].
    subst G. replace ((q + 1) * (E * K))%R with (((q + 1) * K) * E)%R by ring.
    apply Rmult_le_compat_r; lra. }
  assert (HGW : (G * 4503599627370496 <= W)%R).
  { apply Rle_trans with (q * G)%R; [|assumption].
    rewrite (Rmult_comm G). apply Rmult_le_compat_r; lra. }
  destruct Hz as [-> | ->]; split; lra.
Qed.

Lemma round_aux_near sx p ex lx W :
  53 <= Zpos (digits2_pos p) ->
  (bpow (-1021) <= F2R (Zpos p) ex)%R -> (F2R (Zpos p) ex < bpow 1023)%R ->
  (F2R (Zpos p) ex <= W < F2R (Zpos p + 1) ex)%R ->
  exists a, is_float (binary_round_aux prec emax sx (Zpos p) ex lx) sx a /\ near a W.
Proof.
  intros Hd Hlo Hhi HW.
  pose proof (digits_mag p ex) as [Hm1 Hm2].
  assert (Hn : -1074 <= Zpos (digits2_pos p) + ex - 53).
  { assert (-1021 < Zpos (digits2_pos p) + ex) by (apply bpow_lt_inv; lra). lia. }
  assert (Hx : Zpos (digits2_pos p) + ex <= 1023).
  { assert (Zpos (digits2_pos p) + ex - 1 < 1023) by (apply bpow_lt_inv; lra). lia. }
  destruct (binary_round_aux_spec sx p ex lx Hd Hn Hx)
    as (m' & e' & z & Hr & Hz & Hme & Hd' & He').
  exists (F2R (Zpos m') e'). split.
  { exists m', e'. auto. }
  remember (Zpos (digits2_pos p)) as d eqn:Hdd.
  remember (d - 53) as k eqn:Hkk.
  remember (Zpos p / 2 ^ k) as q eqn:Hqq.
  assert (Hk : 0 < 2 ^ k) by (apply Z.pow_pos_nonneg; lia).
  assert (Hq1 : q * 2 ^ k <= Zpos p) by (subst q; rewrite Z.mul_comm; apply Z.mul_div_le; lia).
  assert (Hq2 : Zpos p + 1 <= (q + 1) * 2 ^ k).
  { assert (Zpos p < 2 ^ k * Z.succ q) by (subst q; apply Z.mul_succ_div_gt; lia). lia. }
  assert (Hq3 : 2 ^ 52 <= q).
  { destruct (digits2_bounds p) as [Hb _]. rewrite <- Hdd in Hb.
    replace (d - 1) with (52 + k) in Hb by lia.
    rewrite Z.pow_add_r in Hb by lia.
    subst q. apply Z.div_le_lower_bound; [exact Hk|]. rewrite Z.mul_comm. exact Hb. }
  assert (Hg : bpow (d + ex - 53) = (bpow ex * IZR (2 ^ k))%R).
  { replace (d + ex - 53) with (ex + k) by lia.
    rewrite bpow_add, (bpow_IZR k) by lia. reflexivity. }
  assert (Ha : F2R (Zpos m') e' = (IZR z * bpow (d + ex - 53))%R).
  { unfold F2R. destruct Hme as [[-> ->]|(-> & -> & ->)]; [reflexivity|].
    replace (d + ex - 52) with (1 + (d + ex - 53)) by lia.
    rewrite bpow_add. replace (bpow 1) with 2%R by (unfold bpow; simpl; lra).
    change (2 ^ 53) with (2 ^ 52 * 2). rewrite mult_IZR. lra. }
  rewrite Ha, Hg. unfold near. rewrite u_eq.
  unfold F2R in HW. rewrite plus_IZR in HW.
  apply near_core with (p := IZR (Zpos p)) (q := IZR q).
  - apply bpow_gt_0.
  - apply IZR_lt; lia.
  - exact HW.
  - rewrite <- mult_IZR. apply IZR_le. exact Hq1.
  - rewrite <- (plus_IZR q 1), <- mult_IZR, <- (plus_IZR (Zpos p) 1). apply IZR_le. exact Hq2.
  - apply (IZR_le (2 ^ 52)). exact Hq3.
  - destruct Hz as [-> | ->]; [left; reflexivity | right; apply plus_IZR].
Qed.

(** ** The operations on normal numbers *)

Lemma is_float_valid x s a : is_float x s a -> valid_binary x = true.
Proof.
  intros (m & e & -> & Hd & He & _).
  unfold SpecFloat.valid_binary, SpecFloat.bounded, SpecFloat.canonical_mantissa. rewrite Hd, fexp_normal by lia.
  apply andb_true_intro; split.
  - apply Z.eqb_eq. lia.
  - apply Z.leb_le. unfold emax, prec. lia.
Qed.

Lemma Pos_iter_xO p k : Zpos (Pos.iter xO p k) = Zpos p * 2 ^ Zpos k.
Proof.
  induction k as [|k IH] using Pos.peano_ind.
  - cbn [Pos.iter]. change (Zpos p~0) with (2 * Zpos p). change (2 ^ 1) with 2. lia.
  - rewrite Pos.iter_succ. change (Zpos (Pos.iter xO p k)~0) with (2 * Zpos (Pos.iter xO p k)).
    rewrite IH, Pos2Z.inj_succ, Z.pow_succ_r by lia. ring.
Qed.

Lemma digits2_iter_xO p k :
  Zpos (digits2_pos (Pos.iter xO p k)) = Zpos (digits2_pos p) + Zpos k.
Proof.
  induction k as [|k IH] using Pos.peano_ind.
  - cbn [Pos.iter digits2_pos]. lia.
  - rewrite Pos.iter_succ. cbn [digits2_pos]. rewrite Pos2Z.inj_succ, IH. lia.
Qed.

Lemma F2R_pos p e : (0 < F2R (Zpos p) e)%R.
Proof.
  unfold F2R. apply Rmult_lt_0_compat; [apply IZR_lt; lia | apply bpow_gt_0].
Qed.

Lemma bpow_0 : bpow 0 = 1%R.
Proof. reflexivity. Qed.

Lemma bpow_1 : bpow 1 = 2%R.
Proof. unfold bpow; simpl; lra. Qed.

Lemma bpow_opp k : (bpow k * bpow (- k) = 1)%R.
Proof. rewrite <- bpow_add. replace (k + - k) with 0 by lia. reflexivity. Qed.

(** [float(n)] for a nonzero integer below the overflow threshold. *)
Lemma binary_round_near s p :
  Zpos p < 2 ^ 1023 ->
  exists a, is_float (binary_round prec emax s p 0) s a /\ near a (IZR (Zpos p)).
Proof.
  intros Hp. unfold binary_round.
  destruct (digits2_bounds p) as [Hb1 Hb2].
  remember (Zpos (digits2_pos p)) as d eqn:Hd.
  assert (Hd1 : 1 <= d) by lia.
  rewrite Z.add_0_r, fexp_normal by lia.
  assert (Hone : (1 <= IZR (Zpos p))%R) by (apply IZR_le; lia).
  assert (Hlow : (bpow (-1021) <= 1)%R) by (rewrite <- bpow_0; apply bpow_le; lia).
  assert (Hup : (IZR (Zpos p) < bpow 1023)%R) by (rewrite bpow_IZR by lia; apply IZR_lt; exact Hp).
  unfold shl_align. rewrite Z.sub_0_r.
  destruct (d - 53) as [|k|k] eqn:Hk.
  - assert (HF : F2R (Zpos p) 0 = IZR (Zpos p)) by (unfold F2R; rewrite bpow_0; ring).
    apply round_aux_near; rewrite ?HF; try lra; [lia|].
    split; [lra|]. unfold F2R. rewrite bpow_0, plus_IZR. lra.
  - assert (HF : F2R (Zpos p) 0 = IZR (Zpos p)) by (unfold F2R; rewrite bpow_0; ring).
    apply round_aux_near; rewrite ?HF; try lra; [lia|].
    split; [lra|]. unfold F2R. rewrite bpow_0, plus_IZR. lra.
  - assert (HF : F2R (Zpos (Pos.iter xO p k)) (Zneg k) = IZR (Zpos p)).
    { unfold F2R. rewrite Pos_iter_xO, mult_IZR, <- bpow_IZR by lia.
      rewrite Rmult_assoc. change (Zneg k) with (- Zpos k). rewrite bpow_opp. ring. }
    apply round_aux_near; rewrite ?HF; try lra.
    + rewrite digits2_iter_xO. lia.
    + split; [lra|]. unfold F2R in *. rewrite plus_IZR.
      pose proof (bpow_gt_0 (Zneg k)). lra.
Qed.

Lemma binary_normalize_near n :
  n <> 0 -> Z.abs n < 2 ^ 1023 ->
  exists a, is_float (binary_normalize prec emax n 0 false) (n <? 0) a /\
            near a (IZR (Z.abs n)).
Proof.
  intros Hn Hb. destruct n as [|p|p]; [congruence| |]; cbn [binary_normalize Z.abs Z.ltb Z.compare].
  - apply binary_round_near. exact Hb.
  - apply binary_round_near. exact Hb.
Qed.

(** Multiplication of two normal numbers. *)
Lemma SFmul_near x y sx sy a b :
  is_float x sx a -> is_float y sy b ->
  (bpow (-1021) <= a * b)%R -> (a * b < bpow 1023)%R ->
  exists c, is_float (SFmul prec emax x y) (xorb sx sy) c /\ near c (a * b).
Proof.
  intros (mx & ex & -> & Hdx & Hex & ->) (my & ey & -> & Hdy & Hey & ->) Hlo Hhi.
  cbn [SFmul].
  assert (HF : F2R (Zpos (mx * my)) (ex + ey) = (F2R (Zpos mx) ex * F2R (Zpos my) ey)%R).
  { unfold F2R. rewrite Pos2Z.inj_mul, mult_IZR, bpow_add. ring. }
  apply round_aux_near; rewrite ?HF; try lra.
  - destruct (digits2_bounds mx) as [Hx1 _]. destruct (digits2_bounds my) as [Hy1 _].
    rewrite Hdx in Hx1. rewrite Hdy in Hy1.
    destruct (digits2_bounds (mx * my)) as [_ Hp2].
    destruct (Z_le_gt_dec 53 (Zpos (digits2_pos (mx * my)))) as [|Hgt]; auto.
    assert (2 ^ Zpos (digits2_pos (mx * my)) <= 2 ^ 52) by (apply Z.pow_le_mono_r; lia).
    rewrite Pos2Z.inj_mul in Hp2. change (53 - 1) with 52 in *.
    assert (2 ^ 52 * 2 ^ 52 <= Zpos mx * Zpos my) by (apply Z.mul_le_mono_nonneg; lia).
    lia.
  - split; [lra|]. unfold F2R in *. rewrite plus_IZR.
    pose proof (bpow_gt_0 (ex + ey)). lra.
Qed.

Lemma div_eucl_div_mod a b : Z.div_eucl a b = (a / b, a mod b).
Proof. unfold Z.div, Z.modulo. destruct (Z.div_eucl a b); reflexivity. Qed.

(** Division of two positive binary numbers, canonical or not. *)
Lemma SFdiv_near sx sy mx ex my ey :
  (bpow (-1020) <= F2R (Zpos mx) ex / F2R (Zpos my) ey)%R ->
  (F2R (Zpos mx) ex / F2R (Zpos my) ey < bpow 1023)%R ->
  exists c, is_float (SFdiv prec emax (S754_finite sx mx ex) (S754_finite sy my ey))
                     (xorb sx sy) c /\
            near c (F2R (Zpos mx) ex / F2R (Zpos my) ey).
Proof.
  intros Hlo Hhi. cbn [SFdiv]. unfold SFdiv_core_binary. cbn [Zdigits2].
  pose proof (digits_mag mx ex) as [Hx1 Hx2]. pose proof (digits_mag my ey) as [Hy1 Hy2].
  destruct (digits2_bounds mx) as [Hbx1 Hbx2]. destruct (digits2_bounds my) as [Hby1 Hby2].
  remember (Zpos (digits2_pos mx)) as d1 eqn:Hd1.
  remember (Zpos (digits2_pos my)) as d2 eqn:Hd2.
  pose proof (F2R_pos mx ex) as HX. pose proof (F2R_pos my ey) as HY.
  remember (F2R (Zpos mx) ex) as X eqn:EX. remember (F2R (Zpos my) ey) as Y eqn:EY.
  (* magnitude of the quotient *)
  assert (HD : -1020 <= d1 + ex - (d2 + ey)).
  { assert (HW : (X / Y < bpow (d1 + ex - (d2 + ey) + 1))%R).
    { replace (d1 + ex - (d2 + ey) + 1) with ((d1 + ex) + - (d2 + ey - 1)) by lia.
      rewrite bpow_add. pose proof (bpow_opp (d2 + ey - 1)) as Ho.
      pose proof (bpow_gt_0 (d2 + ey - 1)). pose proof (bpow_gt_0 (- (d2 + ey - 1))).
      pose proof (bpow_gt_0 (d1 + ex)).
      apply Rmult_lt_reg_r with Y; [lra|].
      unfold Rdiv. rewrite Rmult_assoc, Rinv_l, Rmult_1_r by lra.
      apply Rlt_le_trans with (bpow (d1 + ex) * (bpow (- (d2 + ey - 1)) * bpow (d2 + ey - 1)))%R.
      - rewrite (Rmult_comm (bpow (- _))), Ho. lra.
      - rewrite <- Rmult_assoc. apply Rmult_le_compat_l; [|lra].
        apply Rmult_le_pos; lra. }
    assert (-1020 < d1 + ex - (d2 + ey) + 1) by (apply bpow_lt_inv; lra). lia. }
  rewrite fexp_normal by lia.
  remember (Z.min (d1 + ex - (d2 + ey) - 53) (ex - ey)) as e' eqn:He'.
  remember (ex - ey - e') as s eqn:Hs.
  assert (Hs0 : 0 <= s) by lia.
  assert (Hs1 : 53 + d2 <= d1 + s) by lia.
  remember (match s with Z0 => Zpos mx | Zpos _ => Z.shiftl (Zpos mx) s | Zneg _ => 0 end)
    as m' eqn:Hm'.
  assert (Hm'' : m' = Zpos mx * 2 ^ s).
  { subst m'. destruct s as [|ps|ps]; try lia.
    apply Z.shiftl_mul_pow2. lia. }
  clear Hm'. rewrite div_eucl_div_mod.
  assert (H2s : 0 < 2 ^ s) by (apply Z.pow_pos_nonneg; lia).
  assert (Hq52 : 2 ^ 52 <= m' / Zpos my).
  { apply Z.div_le_lower_bound; [lia|].
    apply Z.le_trans with (2 ^ d2 * 2 ^ 52).
    - apply Z.mul_le_mono_nonneg_r; lia.
    - rewrite <- Z.pow_add_r by lia. rewrite Hm''.
      apply Z.le_trans with (2 ^ (d1 - 1) * 2 ^ s).
      + rewrite <- Z.pow_add_r by lia. apply Z.pow_le_mono_r; lia.
      + apply Z.mul_le_mono_nonneg_r; lia. }
  destruct (m' / Zpos my) as [|q|q] eqn:Hq; try lia.
  (* the exact quotient lies between q and q + 1 units *)
  assert (HWq : (F2R (Zpos q) e' <= X / Y < F2R (Zpos q + 1) e')%R).
  { assert (Hqm1 : Zpos my * Zpos q <= m') by (rewrite <- Hq; apply Z.mul_div_le; lia).
    assert (Hqm2 : m' < Zpos my * (Zpos q + 1)).
    { rewrite <- Hq. pose proof (Z.mul_succ_div_gt m' (Zpos my) ltac:(lia)). lia. }
    assert (HXY : (X = IZR m' * bpow e' * (Y / IZR (Zpos my)))%R).
    { subst X Y. unfold F2R. rewrite Hm'', mult_IZR, <- (bpow_IZR s) by lia.
      replace ex with (s + e' + ey) at 1 by lia. rewrite !bpow_add.
      field. apply not_0_IZR. lia. }
    assert (HYm : (0 < Y / IZR (Zpos my))%R).
    { apply Rdiv_lt_0_compat; [lra | apply IZR_lt; lia]. }
    assert (Hmy : (0 < IZR (Zpos my))%R) by (apply IZR_lt; lia).
    pose proof (bpow_gt_0 e') as He'0.
    apply IZR_le in Hqm1. apply IZR_lt in Hqm2. rewrite mult_IZR in Hqm1, Hqm2.
    unfold F2R. split.
    - apply Rmult_le_reg_r with Y; [lra|].
      replace (X / Y * Y)%R with X by (field; lra).
      rewrite HXY.
      replace (IZR (Zpos q) * bpow e' * Y)%R
        with ((IZR (Zpos my) * IZR (Zpos q)) * bpow e' * (Y / IZR (Zpos my)))%R
        by (field; lra).
      apply Rmult_le_compat_r; [lra|]. apply Rmult_le_compat_r; lra.
    - apply Rmult_lt_reg_r with Y; [lra|].
      replace (X / Y * Y)%R with X by (field; lra).
      rewrite HXY.
      replace (IZR (Zpos q + 1) * bpow e' * Y)%R
        with ((IZR (Zpos my) * IZR (Zpos q + 1)) * bpow e' * (Y / IZR (Zpos my)))%R
        by (field; lra).
      apply Rmult_lt_compat_r; [lra|]. apply Rmult_lt_compat_r; lra. }
  assert (HFq : (0 < F2R (Zpos q) e')%R) by apply F2R_pos.
  apply round_aux_near; try lra.
  - destruct (digits2_bounds q) as [_ Hq2].
    destruct (Z_le_gt_dec 53 (Zpos (digits2_pos q))) as [|Hgt]; auto.
    assert (2 ^ Zpos (digits2_pos q) <= 2 ^ 52) by (apply Z.pow_le_mono_r; lia). lia.
  - (* q >= (q + 1) / 2 *)
    assert (Hhalf : (F2R (Zpos q + 1) e' <= 2 * F2R (Zpos q) e')%R).
    { unfold F2R. rewrite plus_IZR. pose proof (bpow_gt_0 e').
      assert (1 <= IZR (Zpos q))%R by (apply IZR_le; lia). nra. }
    replace (bpow (-1020)) with (2 * bpow (-1021))%R in Hlo
      by (replace (-1020) with (1 + -1021) by lia; rewrite bpow_add, bpow_1; reflexivity).
    lra.
Qed.

Lemma is_float_mantissa m e s a :
  is_float (S754_finite s m e) s a -> 2 ^ 52 <= Zpos m < 2 ^ 53.
Proof.
  intros (m' & e' & Heq & Hd & _). injection Heq as -> ->.
  pose proof (digits2_bounds m') as Hb. rewrite Hd in Hb. exact Hb.
Qed.

Lemma F2R_lt_exp m1 e1 m2 e2 :
  2 ^ 52 <= m1 < 2 ^ 53 -> 2 ^ 52 <= m2 < 2 ^ 53 -> e1 < e2 ->
  (F2R m1 e1 < F2R m2 e2)%R.
Proof.
  intros [H1 H2] [H3 H4] He. unfold F2R.
  apply IZR_lt in H2. apply IZR_le in H3.
  change (IZR (2 ^ 53)) with (2 * 4503599627370496)%R in H2.
  change (IZR (2 ^ 52)) with 4503599627370496%R in H3.
  assert (Hb : (2 * bpow e1 <= bpow e2)%R).
  { rewrite <- bpow_1, <- bpow_add. apply bpow_le. lia. }
  pose proof (bpow_gt_0 e1). pose proof (bpow_gt_0 e2). nra.
Qed.

Lemma SFltb_pos x y a b :
  is_float x false a -> is_float y false b ->
  (SFltb x y = true <-> (a < b)%R).
Proof.
  intros Hx Hy.
  destruct Hx as (m1 & e1 & -> & Hd1 & He1 & ->).
  destruct Hy as (m2 & e2 & -> & Hd2 & He2 & ->).
  assert (Hm1 : 2 ^ 52 <= Zpos m1 < 2 ^ 53)
    by (pose proof (digits2_bounds m1) as Hb; rewrite Hd1 in Hb; exact Hb).
  assert (Hm2 : 2 ^ 52 <= Zpos m2 < 2 ^ 53)
    by (pose proof (digits2_bounds m2) as Hb; rewrite Hd2 in Hb; exact Hb).
  unfold SFltb, SFcompare.
  destruct (Z.compare_spec e1 e2) as [Heq|Hlt|Hgt].
  - subst e2. change (Pos.compare_cont Eq m1 m2) with (m1 ?= m2)%positive.
    unfold F2R. pose proof (bpow_gt_0 e1) as Hp.
    destruct (Pos.compare_spec m1 m2) as [Hm|Hm|Hm].
    + subst m2. split; [discriminate | lra].
    + split; [intros _ | reflexivity].
      apply Rmult_lt_compat_r; [exact Hp | apply IZR_lt; lia].
    + split; [discriminate|]. intros Hlt.
      assert (IZR (Zpos m2) < IZR (Zpos m1))%R by (apply IZR_lt; lia). nra.
  - pose proof (F2R_lt_exp _ _ _ _ Hm1 Hm2 Hlt). split; [intros _; assumption | reflexivity].
  - pose proof (F2R_lt_exp _ _ _ _ Hm2 Hm1 Hgt). split; [discriminate | lra].
Qed.

Lemma SFltb_neg x y a b :
  is_float x true a -> is_float y true b ->
  (SFltb x y = true <-> (b < a)%R).
Proof.
  intros Hx Hy.
  destruct Hx as (m1 & e1 & -> & Hd1 & He1 & ->).
  destruct Hy as (m2 & e2 & -> & Hd2 & He2 & ->).
  assert (Hm1 : 2 ^ 52 <= Zpos m1 < 2 ^ 53)
    by (pose proof (digits2_bounds m1) as Hb; rewrite Hd1 in Hb; exact Hb).
  assert (Hm2 : 2 ^ 52 <= Zpos m2 < 2 ^ 53)
    by (pose proof (digits2_bounds m2) as Hb; rewrite Hd2 in Hb; exact Hb).
  unfold SFltb, SFcompare.
  destruct (Z.compare_spec e1 e2) as [Heq|Hlt|Hgt].
  - subst e2. change (Pos.compare_cont Eq m1 m2) with (m1 ?= m2)%positive.
    unfold F2R. pose proof (bpow_gt_0 e1) as Hp.
    destruct (Pos.compare_spec m1 m2) as [Hm|Hm|Hm]; cbn [CompOpp].
    + subst m2. split; [discriminate | lra].
    + split; [discriminate|]. intros Hlt.
      assert (IZR (Zpos m1) < IZR (Zpos m2))%R by (apply IZR_lt; lia). nra.
    + split; [intros _ | reflexivity].
      apply Rmult_lt_compat_r; [exact Hp | apply IZR_lt; lia].
  - pose proof (F2R_lt_exp _ _ _ _ Hm1 Hm2 Hlt). split; [discriminate | lra].
  - pose proof (F2R_lt_exp _ _ _ _ Hm2 Hm1 Hgt). split; [intros _; assumption | reflexivity].
Qed.

Lemma shiftl_trunc m e z :
  (IZR z <= F2R (Zpos m) e < IZR z + 1)%R -> Z.shiftl (Zpos m) e = z.
Proof.
  unfold F2R. intros [H1 H2]. rewrite <- plus_IZR in H2.
  destruct (Z_le_gt_dec 0 e) as [He|He].
  - rewrite Z.shiftl_mul_pow2 by lia.
    rewrite bpow_IZR, <- mult_IZR in H1, H2 by lia.
    apply le_IZR in H1. apply lt_IZR in H2. lia.
  - replace e with (- (- e)) by lia. rewrite Z.shiftl_opp_r, Z.shiftr_div_pow2 by lia.
    assert (Hp : 0 < 2 ^ (- e)) by (apply Z.pow_pos_nonneg; lia).
    assert (Hb : (bpow e * IZR (2 ^ (- e)) = 1)%R)
      by (rewrite <- bpow_IZR by lia; apply bpow_opp).
    assert (Hk : (0 < IZR (2 ^ (- e)))%R) by (apply IZR_lt; lia).
    pose proof (bpow_gt_0 e) as Hbe.
    assert (Hm : (IZR (Zpos m) = IZR (Zpos m) * bpow e * IZR (2 ^ (- e)))%R)
      by (rewrite Rmult_assoc, Hb; ring).
    assert (L1 : z * 2 ^ (- e) <= Zpos m).
    { apply le_IZR. rewrite mult_IZR, Hm. apply Rmult_le_compat_r; lra. }
    assert (L2 : Zpos m < (z + 1) * 2 ^ (- e)).
    { apply lt_IZR. rewrite mult_IZR, Hm. apply Rmult_lt_compat_r; lra. }
    symmetry. apply Z.div_unique with (Zpos m - z * 2 ^ (- e)); lia.
Qed.

(** *** The operations of the runtime on normal numbers *)

Lemma float_of_int_near n :
  n <> 0 -> Z.abs n < 2 ^ 1023 ->
  exists f a, float_of_int n = Ok f /\ is_float (Prim2SF f) (n <? 0) a /\
              near a (IZR (Z.abs n)).
Proof.
  intros Hn Hb. destruct (binary_normalize_near n Hn Hb) as (a & Hf & Ha).
  pose proof (is_float_valid _ _ _ Hf) as Hv.
  unfold float_of_int. destruct Hf as (m & e & Heq & Hd & He & Hae).
  rewrite Heq in *. eexists _, a. split; [reflexivity|]. split; [|exact Ha].
  rewrite Prim2SF_SF2Prim by exact Hv. exists m, e. auto.
Qed.

Lemma mul_near f g sx sy a b :
  is_float (Prim2SF f) sx a -> is_float (Prim2SF g) sy b ->
  (bpow (-1021) <= a * b)%R -> (a * b < bpow 1023)%R ->
  exists c, is_float (Prim2SF (f * g)) (xorb sx sy) c /\ near c (a * b).
Proof.
  intros Hf Hg Hlo Hhi. rewrite mul_spec. apply SFmul_near; assumption.
Qed.

Lemma div_near f g sx sy a b :
  is_float (Prim2SF f) sx a -> is_float (Prim2SF g) sy b ->
  (bpow (-1020) <= a / b)%R -> (a / b < bpow 1023)%R ->
  exists c, is_float (Prim2SF (f / g)) (xorb sx sy) c /\ near c (a / b).
Proof.
  intros (mx & ex & Hx & _ & _ & ->) (my & ey & Hy & _ & _ & ->) Hlo Hhi.
  rewrite div_spec, Hx, Hy. apply SFdiv_near; assumption.
Qed.

Lemma int_truediv_near a b :
  a <> 0 -> b <> 0 ->
  (bpow (-1020) <= IZR (Z.abs a) / IZR (Z.abs b))%R ->
  (IZR (Z.abs a) / IZR (Z.abs b) < bpow 1023)%R ->
  exists f c, int_truediv a b = Ok f /\
              is_float (Prim2SF f) (xorb (a <? 0) (b <? 0)) c /\
              near c (IZR (Z.abs a) / IZR (Z.abs b)).
Proof.
  intros Ha Hb Hlo Hhi. unfold int_truediv.
  replace (b =? 0) with false by (symmetry; apply Z.eqb_neq; exact Hb).
  assert (Hsf : forall n, n <> 0 ->
            SF_of_sign_mag false n = S754_finite (n <? 0) (Z.to_pos (Z.abs n)) 0
            /\ F2R (Zpos (Z.to_pos (Z.abs n))) 0 = IZR (Z.abs n)).
  { intros [|p|p] Hp; [congruence| |]; (split; [reflexivity|]);
      cbn [Z.abs Z.to_pos]; unfold F2R; rewrite bpow_0; ring. }
  destruct (Hsf a Ha) as [-> Fa]. destruct (Hsf b Hb) as [-> Fb].
  rewrite <- Fa, <- Fb in Hlo, Hhi |- *.
  destruct (SFdiv_near (a <? 0) (b <? 0) _ 0 _ 0 Hlo Hhi) as (c & Hf & Hc).
  pose proof (is_float_valid _ _ _ Hf) as Hv.
  destruct Hf as (m & e & Heq & Hd & He & Hce).
  rewrite Heq in *. eexists _, c. split; [reflexivity|]. split; [|exact Hc].
  rewrite Prim2SF_SF2Prim by exact Hv. exists m, e. auto.
Qed.

Lemma ltb_pos f g a b :
  is_float (Prim2SF f) false a -> is_float (Prim2SF g) false b ->
  ((f <? g)%float = true <-> (a < b)%R).
Proof. intros Hf Hg. rewrite ltb_spec. apply SFltb_pos; assumption. Qed.

Lemma ltb_neg f g a b :
  is_float (Prim2SF f) true a -> is_float (Prim2SF g) true b ->
  ((f <? g)%float = true <-> (b < a)%R).
Proof. intros Hf Hg. rewrite ltb_spec. apply SFltb_neg; assumption. Qed.

Lemma int_of_float_trunc f s a z :
  is_float (Prim2SF f) s a -> (IZR z <= a < IZR z + 1)%R ->
  int_of_float f = Ok (cond_Zopp s z).
Proof.
  intros (m & e & Heq & _ & _ & ->) Hz. unfold int_of_float. rewrite Heq.
  rewrite (shiftl_trunc m e z Hz). reflexivity.
Qed.

Lemma float_truediv_normal f g s b :
  is_float (Prim2SF g) s b -> float_truediv f g = Ok (f / g)%float.
Proof.
  intros (m & e & Heq & _). unfold float_truediv.
  rewrite eqb_spec, Heq. destruct s; reflexivity.
Qed.

(** ** Break-even analysis of the ROI estimator *)

Lemma bpow_neg k : 0 <= k -> bpow (- k) = (/ IZR (2 ^ k))%R.
Proof.
  intros Hk. pose proof (bpow_opp k) as Ho. rewrite (bpow_IZR k) in Ho by lia.
  assert (0 < IZR (2 ^ k))%R by (apply IZR_lt, Z.pow_pos_nonneg; lia).
  apply Rmult_eq_reg_l with (IZR (2 ^ k)); [|lra]. rewrite Ho. field. lra.
Qed.

Lemma F2R_neg m p : F2R m (Zneg p) = (IZR m / IZR (2 ^ Zpos p))%R.
Proof. unfold F2R. change (Zneg p) with (- Zpos p). rewrite bpow_neg by lia. reflexivity. Qed.

Lemma is_float_0_6 :
  is_float (Prim2SF 0.6) false (5404319552844595 / 9007199254740992)%R.
Proof.
  exists 5404319552844595%positive, (-53). repeat split; try reflexivity; try lia.
  rewrite F2R_neg. reflexivity.
Qed.

Lemma is_float_12 : is_float (Prim2SF 12) false 12%R.
Proof.
  exists 6755399441055744%positive, (-49). repeat split; try reflexivity; try lia.
  rewrite F2R_neg. change (2 ^ 49) with 562949953421312. lra.
Qed.

Lemma div_lower x y z : (0 < y -> z * y <= x -> z <= x / y)%R.
Proof.
  intros Hy H. apply Rmult_le_reg_r with y; [exact Hy|].
  replace (x / y * y)%R with x by (field; lra). exact H.
Qed.

Lemma div_upper x y z : (0 < y -> x <= z * y -> x / y <= z)%R.
Proof.
  intros Hy H. apply Rmult_le_reg_r with y; [exact Hy|].
  replace (x / y * y)%R with x by (field; lra). exact H.
Qed.

Lemma bpow_low_1 k : k <= 0 -> (bpow k <= 1)%R.
Proof. intros H. rewrite <- bpow_0. apply bpow_le. exact H. Qed.

Lemma breakeven_positive n :
  0 < n -> n * 1200 < 2 ^ 1023 ->
  exists g mc c C,
    float_of_int (n * 1200) = Ok g /\
    int_truediv (n * 360 + n * 150) 12 = Ok mc /\
    (mc <? g * 0.6 / 12)%float = true /\
    float_of_int (n * 360 + n * 150) = Ok c /\
    is_float (Prim2SF c) false C /\
    float_truediv c (g * 0.6 / 12) = Ok (c / (g * 0.6 / 12))%float /\
    int_of_float (c / (g * 0.6 / 12)) = Ok 8.
Proof.
  intros Hn0 Hn1.
  assert (HN0 : (1 <= IZR n)%R) by (apply IZR_le; lia).
  assert (HN1 : (IZR n * 1200 < bpow 1023)%R).
  { rewrite bpow_IZR by lia. rewrite <- mult_IZR. apply IZR_lt. exact Hn1. }
  pose proof (bpow_low_1 (-1021) ltac:(lia)) as HL1.
  pose proof (bpow_low_1 (-1020) ltac:(lia)) as HL0.
  remember (bpow 1023) as T eqn:ET. remember (IZR n) as N eqn:EN.
  (* g = float(1200 n) *)
  destruct (float_of_int_near (n * 1200)) as (g & G & Hg & FG & NG); [lia|lia|].
  replace (n * 1200 <? 0) with false in FG by (symmetry; apply Z.ltb_ge; lia).
  rewrite Z.abs_eq, mult_IZR, <- EN in NG by lia.
  unfold near in NG. rewrite u_eq in NG.
  (* year1_benefits = g * 0.6 *)
  destruct (mul_near g 0.6 _ _ _ _ FG is_float_0_6) as (YB & FYB & NYB); [lra | lra |].
  unfold near in NYB. rewrite u_eq in NYB. cbn [xorb] in FYB.
  (* monthly_benefit *)
  destruct (div_near (g * 0.6) 12 _ _ _ _ FYB is_float_12) as (MB & FMB & NMB); [lra | lra |].
  unfold near in NMB. rewrite u_eq in NMB. cbn [xorb] in FMB.
  (* monthly_cost *)
  destruct (int_truediv_near (n * 360 + n * 150) 12) as (mc & MC & Hmc & FMC & NMC);
    [lia | lia | | |].
  { rewrite !Z.abs_eq, plus_IZR, !mult_IZR, <- EN by lia. cbn [Z.abs]. lra. }
  { rewrite !Z.abs_eq, plus_IZR, !mult_IZR, <- EN by lia. cbn [Z.abs]. lra. }
  replace (n * 360 + n * 150 <? 0) with false in FMC by (symmetry; apply Z.ltb_ge; lia).
  cbn [Z.ltb Z.compare xorb] in FMC.
  rewrite !Z.abs_eq, plus_IZR, !mult_IZR, <- EN in NMC by lia.
  unfold near in NMC. rewrite u_eq in NMC.
  (* year1_costs as a float *)
  destruct (float_of_int_near (n * 360 + n * 150)) as (c & C & Hc & FC & NC); [lia|lia|].
  replace (n * 360 + n * 150 <? 0) with false in FC by (symmetry; apply Z.ltb_ge; lia).
  rewrite Z.abs_eq, plus_IZR, !mult_IZR, <- EN in NC by lia.
  unfold near in NC. rewrite u_eq in NC.
  (* the ratio *)
  assert (HMB : (0 < MB)%R) by lra.
  assert (Hq1 : (8.4 <= C / MB)%R) by (apply div_lower; lra).
  assert (Hq2 : (C / MB <= 8.6)%R) by (apply div_upper; lra).
  destruct (div_near c (g * 0.6 / 12) _ _ _ _ FC FMB) as (RT & FRT & NRT); [lra | lra |].
  unfold near in NRT. rewrite u_eq in NRT. cbn [xorb] in FRT.
  exists g, mc, c, C. repeat split; try assumption.
  - apply (ltb_pos _ _ _ _ FMC FMB). lra.
  - apply (float_truediv_normal _ _ _ _ FMB).
  - apply (int_of_float_trunc _ false RT 8 FRT). lra.
Qed.

(** For a negative head count both monthly figures are negative and the
    benefit is the smaller one. *)
Lemma breakeven_negative n :
  n < 0 -> - 2 ^ 1023 < n * 1200 ->
  exists g mc c C,
    float_of_int (n * 1200) = Ok g /\
    int_truediv (n * 360 + n * 150) 12 = Ok mc /\
    (mc <? g * 0.6 / 12)%float = false /\
    float_of_int (n * 360 + n * 150) = Ok c /\
    is_float (Prim2SF c) true C.
Proof.
  intros Hn0 Hn1.
  assert (HN0 : (1 <= IZR (- n))%R) by (apply IZR_le; lia).
  assert (HN1 : (IZR (- n) * 1200 < bpow 1023)%R).
  { rewrite bpow_IZR by lia. rewrite <- mult_IZR. apply IZR_lt. lia. }
  pose proof (bpow_low_1 (-1021) ltac:(lia)) as HL1.
  pose proof (bpow_low_1 (-1020) ltac:(lia)) as HL0.
  remember (bpow 1023) as T eqn:ET. remember (IZR (- n)) as N eqn:EN.
  destruct (float_of_int_near (n * 1200)) as (g & G & Hg & FG & NG); [lia|lia|].
  replace (n * 1200 <? 0) with true in FG by (symmetry; apply Z.ltb_lt; lia).
  replace (Z.abs (n * 1200)) with (- n * 1200) in NG by lia.
  rewrite mult_IZR, <- EN in NG. unfold near in NG. rewrite u_eq in NG.
  destruct (mul_near g 0.6 _ _ _ _ FG is_float_0_6) as (YB & FYB & NYB); [lra | lra |].
  unfold near in NYB. rewrite u_eq in NYB. cbn [xorb] in FYB.
  destruct (div_near (g * 0.6) 12 _ _ _ _ FYB is_float_12) as (MB & FMB & NMB); [lra | lra |].
  unfold near in NMB. rewrite u_eq in NMB. cbn [xorb] in FMB.
  assert (Habs : Z.abs (n * 360 + n * 150) = - n * 510) by lia.
  destruct (int_truediv_near (n * 360 + n * 150) 12) as (mc & MC & Hmc & FMC & NMC);
    [lia | lia | | |].
  { rewrite Habs, mult_IZR, <- EN. cbn [Z.abs]. lra. }
  { rewrite Habs, mult_IZR, <- EN. cbn [Z.abs]. lra. }
  replace (n * 360 + n * 150 <? 0) with true in FMC by (symmetry; apply Z.ltb_lt; lia).
  cbn [Z.ltb Z.compare xorb] in FMC.
  rewrite Habs, mult_IZR, <- EN in NMC. cbn [Z.abs] in NMC.
  unfold near in NMC. rewrite u_eq in NMC.
  destruct (float_of_int_near (n * 360 + n * 150)) as (c & C & Hc & FC & NC); [lia|lia|].
  replace (n * 360 + n * 150 <? 0) with true in FC by (symmetry; apply Z.ltb_lt; lia).
  exists g, mc, c, C. repeat split; try assumption.
  destruct (mc <? g * 0.6 / 12)%float eqn:Hlt; [|reflexivity].
  apply (ltb_neg _ _ _ _ FMC FMB) in Hlt. lra.
Qed.

(** ** The clamped adoption rate *)

Lemma SFltb_finite_pos m1 e1 m2 e2 :
  SFltb (S754_finite false m1 e1) (S754_finite false m2 e2) = true <->
  e1 < e2 \/ (e1 = e2 /\ Zpos m1 < Zpos m2).
Proof.
  unfold SFltb, SFcompare.
  destruct (Z.compare_spec e1 e2) as [Heq|Hlt|Hgt].
  - change (Pos.compare_cont Eq m1 m2) with (m1 ?= m2)%positive.
    destruct (Pos.compare_spec m1 m2) as [Hm|Hm|Hm]; split; try discriminate; try lia;
      reflexivity.
  - split; [intros _; left; assumption | reflexivity].
  - split; [discriminate | lia].
Qed.

Lemma scaled_rate_bounds r :
  (0.1 <? r)%float = true -> (r <? 0.95)%float = true ->
  within_10_95 (Prim2SF (r * 100)%float).
Proof.
  intros H1 H2. rewrite ltb_spec in H1, H2. rewrite mul_spec.
  pose proof (Prim2SF_valid r) as Hv.
  change (Prim2SF 0.1) with (S754_finite false 7205759403792794 (-56)) in H1.
  change (Prim2SF 0.95) with (S754_finite false 8556839292003942 (-53)) in H2.
  change (Prim2SF 100) with (S754_finite false 7036874417766400 (-46)).
  destruct (Prim2SF r) as [s|s| |s m e]; try discriminate.
  { destruct s; discriminate. }
  destruct s; [discriminate|].
  apply SFltb_finite_pos in H1, H2.
  assert (He : -56 <= e <= -53) by lia.
  assert (Hlo : e = -56 -> 7205759403792794 < Zpos m) by lia.
  assert (Hhi : e = -53 -> Zpos m < 8556839292003942) by lia.
  clear H1 H2.
  assert (Hm : 2 ^ 52 <= Zpos m < 2 ^ 53).
  { unfold SpecFloat.valid_binary, SpecFloat.bounded, SpecFloat.canonical_mantissa in Hv.
    apply andb_prop in Hv. destruct Hv as [Hc _]. apply Z.eqb_eq in Hc.
    unfold fexp, SpecFloat.emin, prec, emax in Hc.
    pose proof (digits2_bounds m) as Hb.
    replace (Zpos (digits2_pos m)) with 53 in Hb by lia. exact Hb. }
  cbn [SF64mul SFmul xorb].
  pose proof (digits2_bounds (m * 7036874417766400)) as Hb.
  rewrite Pos2Z.inj_mul in Hb.
  assert (Hd : Zpos (digits2_pos (m * 7036874417766400)) = 105 \/
               Zpos (digits2_pos (m * 7036874417766400)) = 106).
  { remember (Zpos (digits2_pos (m * 7036874417766400))) as d eqn:Ed.
    destruct (Z_le_gt_dec d 104).
    - assert (2 ^ d <= 2 ^ 104) by (apply Z.pow_le_mono_r; lia). lia.
    - destruct (Z_le_gt_dec 107 d).
      + assert (2 ^ 106 <= 2 ^ (d - 1)) by (apply Z.pow_le_mono_r; lia). lia.
      + lia. }
  destruct (binary_round_aux_spec false (m * 7036874417766400) (e + -46) loc_Exact)
    as (m' & e' & z & Hr & Hz & Hme & Hd' & He'); try lia.
  rewrite Hr. exists m', e'. split; [reflexivity|].
  pose proof (digits2_bounds m') as Hb'. rewrite Hd' in Hb'. change (53 - 1) with 52 in Hb'.
  split; [exact Hb'|].
  rewrite Pos2Z.inj_mul in Hz.
  destruct Hd as [Hd|Hd]; rewrite Hd in *;
    [change (105 - 53) with 52 in Hz; change (105 - 1) with 104 in Hb
    |change (106 - 53) with 53 in Hz; change (106 - 1) with 105 in Hb];
    assert (e = -56 \/ e = -55 \/ e = -54 \/ e = -53) as [-> | [-> | [-> | ->]]] by lia;
    Z.div_mod_to_equations; lia.
Qed.

Lemma round_half_even_ge a b n : 0 < b -> n * b <= a -> n <= round_half_even a b.
Proof.
  intros Hb H. unfold round_half_even.
  assert (Hq : n <= a / b) by (apply Z.div_le_lower_bound; lia).
  destruct (2 * (a mod b) ?= b); [destruct (Z.even (a / b))| |]; lia.
Qed.

Lemma round_half_even_le a b n : 0 < b -> a <= n * b -> round_half_even a b <= n.
Proof.
  intros Hb H. unfold round_half_even.
  pose proof (Z.div_mod a b ltac:(lia)) as Hdm.
  pose proof (Z.mod_pos_bound a b Hb) as Hr.
  assert (Hq : a / b <= n).
  { apply Z.lt_succ_r. apply Z.div_lt_upper_bound; [lia|]. nia. }
  destruct (Z.eq_dec (a / b) n) as [Heq|Hne].
  - assert (Hr0 : a mod b = 0) by nia.
    rewrite Hr0. replace (2 * 0 ?= b) with Lt by (symmetry; apply Z.compare_lt_iff; lia). lia.
  - destruct (2 * (a mod b) ?= b); [destruct (Z.even (a / b))| |]; lia.
Qed.

Lemma In_range_from h n : forall a, In h (range_from a n) <-> a <= h < a + Z.of_nat n.
Proof.
  induction n as [|n IH]; intros a; cbn [range_from In].
  - lia.
  - rewrite IH. lia.
Qed.

Lemma In_range h a b : In h (range a b) <-> a <= h < b.
Proof. unfold range. rewrite In_range_from. lia. Qed.

Lemma decimals_10_95 h : 1000 <= h <= 9500 -> rate_ok (decimal false h) = true.
Proof.
  intros Hh.
  assert (Hall : forallb (fun h => rate_ok (decimal false h)) (range 1000 9501) = true)
    by (vm_compute; reflexivity).
  rewrite forallb_forall in Hall. apply Hall. apply In_range. lia.
Qed.

Lemma round2_within x : within_10_95 (Prim2SF x) -> rate_ok (round2 x) = true.
Proof.
  intros (m & e & Hx & Hm & He). unfold round2. rewrite Hx.
  replace (0 <=? e) with false by (symmetry; apply Z.leb_gt; lia).
  apply decimals_10_95.
  destruct He as [[-> Hlo] | [-> | [-> | [-> Hhi]]]]; cbn [Z.opp]; split;
    (apply round_half_even_ge; [reflexivity|]) || (apply round_half_even_le; [reflexivity|]);
    lia.
Qed.

Lemma adoption_rate_bounds x :
  rate_ok (round2 (Py.min 0.95 (Py.max 0.1 x) * 100)%float) = true.
Proof.
  unfold Py.min, Py.max.
  destruct (0.1 <? x)%float eqn:H1.
  - destruct (x <? 0.95)%float eqn:H2.
    + apply round2_within, scaled_rate_bounds; assumption.
    + vm_compute. reflexivity.
  - vm_compute. reflexivity.
Qed.

(** ** The clamped adoption rate under NumPy's rounding *)

Lemma rounded_integers_10_95 n :
  1000 <= n <= 9500 ->
  rate_ok (SF2Prim (binary_round prec emax false (Z.to_pos n) 0) / 100)%float = true.
Proof.
  intros Hn.
  assert (Hall : forallb (fun n => rate_ok (SF2Prim (binary_round prec emax false (Z.to_pos n) 0)
                                            / 100)%float) (range 1000 9501) = true)
    by (vm_compute; reflexivity).
  rewrite forallb_forall in Hall. apply Hall. apply In_range. lia.
Qed.

Lemma numpy_round2_within x : within_10_95 (Prim2SF x) -> rate_ok (numpy_round2 x) = true.
Proof.
  intros (m & e & Hx & Hm & He).
  assert (Hcases : (e = -46 /\ Zpos m = 6685030696878080) \/
                   (e = -46 -> Zpos m < 6685030696878080)) by lia.
  destruct Hcases as [[-> Hm95]|Hm95].
  { assert (Hx95 : x = 95%float).
    { apply Prim2SF_inj. rewrite Hx. injection Hm95 as ->. reflexivity. }
    rewrite Hx95. vm_compute. reflexivity. }
  unfold numpy_round2, rint. rewrite mul_spec, Hx.
  change (Prim2SF 100) with (S754_finite false 7036874417766400 (-46)).
  cbn [SF64mul SFmul xorb].
  pose proof (digits2_bounds (m * 7036874417766400)) as Hb.
  rewrite Pos2Z.inj_mul in Hb.
  assert (Hd : Zpos (digits2_pos (m * 7036874417766400)) = 105 \/
               Zpos (digits2_pos (m * 7036874417766400)) = 106).
  { remember (Zpos (digits2_pos (m * 7036874417766400))) as d eqn:Ed.
    destruct (Z_le_gt_dec d 104).
    - assert (2 ^ d <= 2 ^ 104) by (apply Z.pow_le_mono_r; lia). lia.
    - destruct (Z_le_gt_dec 107 d).
      + assert (2 ^ 106 <= 2 ^ (d - 1)) by (apply Z.pow_le_mono_r; lia). lia.
      + lia. }
  destruct (binary_round_aux_spec false (m * 7036874417766400) (e + -46) loc_Exact)
    as (m' & e' & z & Hr & Hz & Hme & Hd' & He'); try lia.
  rewrite Hr.
  pose proof (digits2_bounds m') as Hb'. rewrite Hd' in Hb'. change (53 - 1) with 52 in Hb'.
  rewrite Pos2Z.inj_mul in Hz.
  assert (Hrange : -43 <= e' <= -39 /\
                   (e' = -43 -> 8796093022208000 <= Zpos m') /\
                   (e' = -39 -> Zpos m' <= 5222680231936000)).
  { destruct Hd as [Hd|Hd]; rewrite Hd in *;
      [change (105 - 53) with 52 in Hz; change (105 - 1) with 104 in Hb
      |change (106 - 53) with 53 in Hz; change (106 - 1) with 105 in Hb];
      assert (e = -49 \/ e = -48 \/ e = -47 \/ e = -46) as [-> | [-> | [-> | ->]]] by lia;
      Z.div_mod_to_equations; lia. }
  destruct Hrange as (He'' & Hlo & Hhi).
  replace (0 <=? e') with false by (symmetry; apply Z.leb_gt; lia).
  assert (Hn : 1000 <= round_half_even (Zpos m') (2 ^ (- e')) <= 9500).
  { assert (e' = -43 \/ e' = -42 \/ e' = -41 \/ e' = -40 \/ e' = -39)
      as [-> | [-> | [-> | [-> | ->]]]] by lia; cbn [Z.opp]; split;
      (apply round_half_even_ge; [reflexivity|]) || (apply round_half_even_le; [reflexivity|]);
      lia. }
  destruct (round_half_even (Zpos m') (2 ^ (- e'))) as [|n|n] eqn:En; try lia.
  apply (rounded_integers_10_95 (Zpos n)). exact Hn.
Qed.

(** The clamped rate stays between 10 and 95 under NumPy's rounding as
    well. *)
Lemma adoption_rate_bounds_numpy x :
  rate_ok (numpy_round2 (Py.min 0.95 (Py.max 0.1 x) * 100)%float) = true.
Proof.
  unfold Py.min, Py.max.
  destruct (0.1 <? x)%float eqn:H1.
  - destruct (x <? 0.95)%float eqn:H2.
    + apply numpy_round2_within, scaled_rate_bounds; assumption.
    + vm_compute. reflexivity.
  - vm_compute. reflexivity.
Qed.

Example numpy_round2_differs :
  numpy_round2 2.675 = 2.68%float /\ round2 2.675 = 2.67%float.
Proof. split; vm_compute; reflexivity. Qed.

(** * The estimators *)

(** ** Loops *)

Section MapM.
Context {A B : Type}.
Variable f : A -> result B.

Lemma mapM_Forall2 (P : A -> B -> Prop) (l : list A) :
  (forall x, In x l -> exists y, f x = Ok y /\ P x y) ->
  exists ys, mapM f l = Ok ys /\ Forall2 P l ys.
Proof.
  induction l as [|x l IH]; intros H; cbn [mapM].
  - exists []. split; [reflexivity | constructor].
  - destruct (H x (or_introl eq_refl)) as (y & Hy & Py).
    destruct IH as (ys & Hys & Pys); [intros x' Hx'; apply H; right; exact Hx'|].
    exists (y :: ys). rewrite Hy, Hys. split; [reflexivity | constructor; assumption].
Qed.

Lemma mapM_ext_in (g : A -> result B) (l : list A) :
  (forall x, In x l -> f x = g x) -> mapM f l = mapM g l.
Proof.
  induction l as [|x l IH]; intros H; cbn [mapM]; [reflexivity|].
  rewrite (H x (or_introl eq_refl)), IH; [reflexivity|].
  intros x' Hx'. apply H. right. exact Hx'.
Qed.

Lemma mapM_Ok_inv (l : list A) (ys : list B) :
  mapM f l = Ok ys -> Forall2 (fun x y => f x = Ok y) l ys.
Proof.
  revert ys. induction l as [|x l IH]; intros ys; cbn [mapM].
  - intros [= <-]. constructor.
  - destruct (f x) as [y|e] eqn:Hy; cbn [bind]; [|discriminate].
    destruct (mapM f l) as [ys'|e] eqn:Hys; cbn [bind]; [|discriminate].
    intros [= <-]. constructor; [exact Hy | apply IH; reflexivity].
Qed.

Lemma mapM_Raise_inv (l : list A) (e : exn) :
  mapM f l = Raise e -> exists x, In x l /\ f x = Raise e.
Proof.
  induction l as [|x l IH]; cbn [mapM]; [discriminate|].
  destruct (f x) as [y|e'] eqn:Hy; cbn [bind].
  - destruct (mapM f l) as [ys'|e''] eqn:Hys; cbn [bind]; [discriminate|].
    intros [= ->]. destruct IH as (x' & Hin & Hx'); [reflexivity|].
    exists x'. split; [right; exact Hin | exact Hx'].
  - intros [= ->]. exists x. split; [left; reflexivity | exact Hy].
Qed.

Lemma mapM_raises (l : list A) (x : A) (e : exn) :
  In x l -> f x = Raise e -> exists e', mapM f l = Raise e'.
Proof.
  induction l as [|x' l IH]; cbn [mapM In]; [contradiction|].
  intros [->|Hin] Hx.
  - rewrite Hx. exists e. reflexivity.
  - destruct (f x') as [y|e']; cbn [bind]; [|exists e'; reflexivity].
    destruct (IH Hin Hx) as (e' & ->). exists e'. reflexivity.
Qed.

End MapM.

Lemma range_from_length a n : List.length (range_from a n) = n.
Proof. revert a. induction n as [|n IH]; intros a; cbn [range_from List.length]; [|rewrite IH]; reflexivity. Qed.

Lemma len_range a b : a <= b -> len (range a b) = b - a.
Proof. intros H. unfold len, range. rewrite range_from_length. lia. Qed.

Lemma range_from_sorted n : forall a, StronglySorted Z.lt (range_from a n).
Proof.
  induction n as [|n IH]; intros a; cbn [range_from]; constructor.
  - apply IH.
  - apply Forall_forall. intros h Hh. apply In_range_from in Hh. lia.
Qed.

Lemma range_sorted a b : StronglySorted Z.lt (range a b).
Proof. apply range_from_sorted. Qed.

Lemma range_empty a b : b <= a -> range a b = [].
Proof. intros H. unfold range. replace (Z.to_nat (b - a)) with O by lia. reflexivity. Qed.

(** ** AdoptionPredictor *)

Lemma float_of_int_Ok n : Z.abs n < 2 ^ 1023 -> exists f, float_of_int n = Ok f.
Proof.
  intros Hb. destruct (Z.eq_dec n 0) as [->|Hn].
  - eexists. vm_compute. reflexivity.
  - destruct (float_of_int_near n Hn Hb) as (f & _ & Hf & _). exists f. exact Hf.
Qed.

(** The three outcomes of reading the trend: the defaults, the trend of
    the column, or the [KeyError] of a data frame without the column. *)
Lemma trend_cases historical_data :
  (len historical_data < 2 /\
   AdoptionPredictor.trend historical_data = Ok (AdoptionPredictor.python_float, 0.65, 0.05)%float) \/
  (2 <= len historical_data /\
   existsb AdoptionPredictor.has_adoption_rate historical_data = true /\
   exists base_rate growth_rate,
     AdoptionPredictor.trend historical_data
       = Ok (AdoptionPredictor.numpy_float64, base_rate, growth_rate)) \/
  (2 <= len historical_data /\
   existsb AdoptionPredictor.has_adoption_rate historical_data = false /\
   AdoptionPredictor.trend historical_data = Raise KeyError).
Proof.
  unfold AdoptionPredictor.trend, AdoptionPredictor.column.
  destruct (Z.ltb_spec (len historical_data) 2) as [Hlt|Hge].
  - left. split; [exact Hlt | reflexivity].
  - right. destruct (existsb AdoptionPredictor.has_adoption_rate historical_data); cbn [bind].
    + left. split; [exact Hge|]. split; [reflexivity|]. eexists _, _. reflexivity.
    + right. repeat split. exact Hge.
Qed.

Lemma trend_Ok historical_data :
  len historical_data < 2 \/ existsb AdoptionPredictor.has_adoption_rate historical_data = true ->
  exists kind base_rate growth_rate,
    AdoptionPredictor.trend historical_data = Ok (kind, base_rate, growth_rate).
Proof.
  intros H.
  destruct (trend_cases historical_data) as [[_ Ht] | [(_ & _ & b & g & Ht) | (Hge & Hno & _)]].
  - eexists _, _, _. exact Ht.
  - eexists _, _, _. exact Ht.
  - destruct H as [H|H]; [lia | congruence].
Qed.

Lemma trend_exn historical_data e :
  AdoptionPredictor.trend historical_data = Raise e ->
  e = KeyError /\ 2 <= len historical_data /\
  existsb AdoptionPredictor.has_adoption_rate historical_data = false.
Proof.
  intros H.
  destruct (trend_cases historical_data) as [[_ Ht] | [(_ & _ & b & g & Ht) | (Hge & Hno & Ht)]];
    rewrite Ht in H; try discriminate.
  injection H as <-. repeat split; assumption.
Qed.

(** The rounded rate is between 10 and 95 for both kinds of number. *)
Lemma adoption_rate_bounds_kind kind x :
  rate_ok (AdoptionPredictor.round_2
             (if (0.1 <? x)%float && (x <? 0.95)%float then kind
              else AdoptionPredictor.python_float)
             (Py.min 0.95 (Py.max 0.1 x) * 100)%float) = true.
Proof.
  destruct ((0.1 <? x)%float && (x <? 0.95)%float); [destruct kind|];
    cbn [AdoptionPredictor.round_2];
    apply adoption_rate_bounds || apply adoption_rate_bounds_numpy.
Qed.

(** Every failure of one period is an [OverflowError]. *)
Lemma forecast_step_exn now kind base_rate growth_rate i e :
  AdoptionPredictor.forecast_step now kind base_rate growth_rate i = Raise e -> e = OverflowError.
Proof.
  unfold AdoptionPredictor.forecast_step, float_of_int, Datetime.timedelta_days, Datetime.add.
  destruct (binary_normalize prec emax i 0 false); cbn [bind];
    try (intros [= <-]; reflexivity);
    (destruct (Z.abs (30 * i) <=? 999999999); cbn [bind];
     [|intros [= <-]; reflexivity];
     match goal with |- context [if ?c then Ok _ else _] => destruct c end; cbn [bind];
     [discriminate | intros [= <-]; reflexivity]).
Qed.

(** One period inside the calendar. *)
Lemma forecast_step_Ok now kind base_rate growth_rate i :
  1 <= i -> Datetime.valid now -> Datetime.valid (now + 30 * i * Datetime.us_per_day) ->
  exists p c, AdoptionPredictor.forecast_step now kind base_rate growth_rate i = Ok (p, c) /\
              AdoptionPredictor.period p = i /\ AdoptionPredictor.ci_period c = i /\
              rate_ok (AdoptionPredictor.adoption_rate p) = true.
Proof.
  unfold Datetime.valid, Datetime.max, Datetime.us_per_day. intros Hi Hnow Hts.
  assert (Hb : i <= 121735) by lia.
  destruct (float_of_int_Ok i) as (fi & Hfi).
  { apply Z.lt_le_trans with (2 ^ 17); [change (2 ^ 17) with 131072; lia|].
    apply Z.pow_le_mono_r; lia. }
  unfold AdoptionPredictor.forecast_step. rewrite Hfi. cbn [bind].
  unfold Datetime.timedelta_days.
  replace (Z.abs (30 * i) <=? 999999999) with true by (symmetry; apply Z.leb_le; lia).
  cbn [bind]. unfold Datetime.add, Datetime.max, Datetime.us_per_day.
  replace (0 <=? now + 30 * i * 86400000000) with true by (symmetry; apply Z.leb_le; lia).
  replace (now + 30 * i * 86400000000 <=? 3652059 * 86400000000 - 1) with true
    by (symmetry; apply Z.leb_le; lia).
  cbn [andb bind]. eexists _, _. split; [reflexivity|].
  cbn [AdoptionPredictor.period AdoptionPredictor.ci_period AdoptionPredictor.adoption_rate].
  repeat split. apply adoption_rate_bounds_kind.
Qed.

Lemma predict_raises clock historical_data forecast_periods kind base_rate growth_rate i e :
  AdoptionPredictor.trend historical_data = Ok (kind, base_rate, growth_rate) ->
  1 <= i <= forecast_periods ->
  AdoptionPredictor.forecast_step (clock (i - 1)) kind base_rate growth_rate i = Raise e ->
  AdoptionPredictor.predict clock historical_data forecast_periods = Raise OverflowError.
Proof.
  intros Ht Hi Hstep. unfold AdoptionPredictor.predict. rewrite Ht. cbn [bind].
  destruct (mapM_raises
              (fun i => AdoptionPredictor.forecast_step (clock (i - 1)) kind base_rate growth_rate i)
              (range 1 (forecast_periods + 1)) i e) as (e' & He'); [apply In_range; lia | exact Hstep |].
  rewrite He'. cbn [bind].
  apply mapM_Raise_inv in He'. destruct He' as (x & _ & Hx).
  apply forecast_step_exn in Hx. rewrite Hx. reflexivity.
Qed.

(** A history of two or more records none of which has the key fails
    before the loop, whatever [forecast_periods] is. *)
Lemma predict_KeyError clock historical_data forecast_periods :
  2 <= len historical_data ->
  existsb AdoptionPredictor.has_adoption_rate historical_data = false ->
  AdoptionPredictor.predict clock historical_data forecast_periods = Raise KeyError.
Proof.
  intros Hge Hno.
  destruct (trend_cases historical_data) as [[Hlt _] | [(_ & Hyes & _) | (_ & _ & Ht)]];
    [lia | congruence |].
  unfold AdoptionPredictor.predict. rewrite Ht. reflexivity.
Qed.

Lemma steps_shape (l : list Z) (steps : list (AdoptionPredictor.ForecastPoint * AdoptionPredictor.ConfidenceBand)) :
  Forall2 (fun i step => AdoptionPredictor.period (fst step) = i /\ AdoptionPredictor.ci_period (snd step) = i /\
                         rate_ok (AdoptionPredictor.adoption_rate (fst step)) = true) l steps ->
  len (map fst steps) = len l /\ len (map snd steps) = len l /\
  map AdoptionPredictor.period (map fst steps) = l /\ map AdoptionPredictor.ci_period (map snd steps) = l /\
  Forall (fun p => (10 <=? AdoptionPredictor.adoption_rate p)%float = true /\
                   (AdoptionPredictor.adoption_rate p <=? 95)%float = true) (map fst steps).
Proof.
  unfold len. induction 1 as [|i step l steps (Hp & Hc & Hr) _ IH]; cbn [map List.length].
  - repeat split; constructor.
  - destruct IH as (L1 & L2 & M1 & M2 & F). repeat split; try lia.
    + rewrite Hp, M1. reflexivity.
    + rewrite Hc, M2. reflexivity.
    + constructor; [|exact F]. apply andb_prop. exact Hr.
Qed.

(** C1 (as amended): for every history that has fewer than two records
    or in which some record holds an adoption rate, and every
    [forecast_periods >= 1] whose periods all fall inside the calendar
    (every clock reading is a [datetime] and so is the reading plus
    [30 * i] days), the forecaster returns [forecast_periods]
    predictions and as many confidence bands, with periods
    [1, 2, ..., forecast_periods] in strictly increasing order, and
    every adoption rate lies between 10 and 95, whether Python or NumPy
    rounds it. *)
Theorem C1_forecast_within_calendar
    (clock : Z -> Z) (historical_data : list AdoptionPredictor.HistoricalPoint) (forecast_periods : Z) :
  1 <= forecast_periods ->
  len historical_data < 2 \/ existsb AdoptionPredictor.has_adoption_rate historical_data = true ->
  (forall k, 0 <= k < forecast_periods ->
     Datetime.valid (clock k) /\
     Datetime.valid (clock k + 30 * (k + 1) * Datetime.us_per_day)) ->
  exists predictions confidence_intervals,
    AdoptionPredictor.predict clock historical_data forecast_periods = Ok (predictions, confidence_intervals) /\
    len predictions = forecast_periods /\
    len confidence_intervals = forecast_periods /\
    map AdoptionPredictor.period predictions = range 1 (forecast_periods + 1) /\
    map AdoptionPredictor.ci_period confidence_intervals = range 1 (forecast_periods + 1) /\
    StronglySorted Z.lt (map AdoptionPredictor.period predictions) /\
    Forall (fun p => (10 <=? AdoptionPredictor.adoption_rate p)%float = true /\
                     (AdoptionPredictor.adoption_rate p <=? 95)%float = true) predictions.
Proof.
  intros Hn Hcol Hclock. unfold AdoptionPredictor.predict.
  destruct (trend_Ok historical_data Hcol) as (kind & base_rate & growth_rate & Ht).
  rewrite Ht. cbn [bind].
  destruct (mapM_Forall2
              (fun i => AdoptionPredictor.forecast_step (clock (i - 1)) kind base_rate growth_rate i)
              (fun i step => AdoptionPredictor.period (fst step) = i /\ AdoptionPredictor.ci_period (snd step) = i /\
                             rate_ok (AdoptionPredictor.adoption_rate (fst step)) = true)
              (range 1 (forecast_periods + 1))) as (steps & Hsteps & Hshape).
  { intros i Hi. apply In_range in Hi.
    destruct (Hclock (i - 1)) as [Hnow Hts]; [lia|].
    replace (i - 1 + 1) with i in Hts by lia.
    destruct (forecast_step_Ok (clock (i - 1)) kind base_rate growth_rate i) as (p & c & Hs & Hp);
      [lia | exact Hnow | exact Hts |].
    exists (p, c). split; [exact Hs | exact Hp]. }
  rewrite Hsteps. cbn [bind].
  apply steps_shape in Hshape. destruct Hshape as (L1 & L2 & M1 & M2 & F).
  rewrite len_range in L1, L2 by lia.
  exists (map fst steps), (map snd steps).
  split; [reflexivity|]. split; [lia|]. split; [lia|].
  split; [exact M1|]. split; [exact M2|]. split; [|exact F].
  rewrite M1. apply range_sorted.
Qed.

Lemma C1_witness :
  1 <= 2 /\
  (len history_50_70 < 2 \/
   existsb AdoptionPredictor.has_adoption_rate history_50_70 = true) /\
  exists predictions confidence_intervals,
    AdoptionPredictor.predict clock_2026 history_50_70 2 = Ok (predictions, confidence_intervals) /\
    len predictions = 2 /\
    len confidence_intervals = 2 /\
    map AdoptionPredictor.period predictions = range 1 (2 + 1) /\
    map AdoptionPredictor.ci_period confidence_intervals = range 1 (2 + 1) /\
    StronglySorted Z.lt (map AdoptionPredictor.period predictions) /\
    Forall (fun p => (10 <=? AdoptionPredictor.adoption_rate p)%float = true /\
                     (AdoptionPredictor.adoption_rate p <=? 95)%float = true) predictions.
Proof.
  split; [lia|].
  assert (Hcol : len history_50_70 < 2 \/
                 existsb AdoptionPredictor.has_adoption_rate history_50_70 = true)
    by (right; reflexivity).
  split; [exact Hcol|].
  apply (C1_forecast_within_calendar clock_2026 history_50_70 2); [lia | exact Hcol |].
  intros k Hk. unfold Datetime.valid, Datetime.max, clock_2026, Datetime.us_per_day. lia.
Defined.

(** C1 (as stated) fails in two ways: with the clock at 2026-11-03,
    period 97072 falls after [datetime.max] and the run asked for 100000
    periods ends in [OverflowError] instead of returning 100000 points;
    and two records without the key ['adoption_rate'] end in
    [KeyError]. *)
Lemma C1_counterexample :
  AdoptionPredictor.predict clock_2026 [] 100000 = Raise OverflowError /\
  AdoptionPredictor.predict clock_2026 history_no_rate 1 = Raise KeyError.
Proof.
  split.
  - apply (predict_raises clock_2026 [] 100000 AdoptionPredictor.python_float 0.65 0.05
             100000 OverflowError); [reflexivity | lia |].
    vm_compute. reflexivity.
  - reflexivity.
Qed.

(** The series 50, 70 has the trend [base_rate = 0.7] and
    [growth_rate = 0.1], both NumPy scalars; its first two forecast
    rates are 80.0 and 90.0. *)
Example forecast_50_70 :
  AdoptionPredictor.trend history_50_70
    = Ok (AdoptionPredictor.numpy_float64, 0.7, 0.1)%float /\
  exists predictions confidence_intervals,
    AdoptionPredictor.predict clock_2026 history_50_70 2 = Ok (predictions, confidence_intervals) /\
    map AdoptionPredictor.adoption_rate predictions = [80; 90]%float.
Proof. split; [reflexivity|]. eexists _, _. split; reflexivity. Qed.

(** A rate read from the data frame is rounded by NumPy: the flat
    series 63.865, 63.865 forecasts 63.86 for the next period, where
    Python's [round] of the same product gives 63.87. *)
Example numpy_rounds_the_forecast :
  (exists predictions confidence_intervals,
     AdoptionPredictor.predict clock_2026 history_flat 1 = Ok (predictions, confidence_intervals) /\
     map AdoptionPredictor.adoption_rate predictions = [63.86]%float) /\
  round2 (63.865 / 100 * 100) = 63.87%float.
Proof. split; [eexists _, _; split; vm_compute; reflexivity | vm_compute; reflexivity]. Qed.

(** C7 (as amended): [forecast_periods < 1] is not rejected: the loop
    body never runs and two empty lists are returned, unless the history
    has two or more records none of which holds an adoption rate, which
    ends in [KeyError] before the loop. *)
Theorem C7_no_periods_no_points
    (clock : Z -> Z) (historical_data : list AdoptionPredictor.HistoricalPoint) (forecast_periods : Z) :
  forecast_periods < 1 ->
  (len historical_data < 2 \/
   existsb AdoptionPredictor.has_adoption_rate historical_data = true ->
   AdoptionPredictor.predict clock historical_data forecast_periods = Ok ([], [])) /\
  (2 <= len historical_data /\
   existsb AdoptionPredictor.has_adoption_rate historical_data = false ->
   AdoptionPredictor.predict clock historical_data forecast_periods = Raise KeyError).
Proof.
  intros Hn. split.
  - intros Hcol. destruct (trend_Ok historical_data Hcol) as (kind & base_rate & growth_rate & Ht).
    unfold AdoptionPredictor.predict. rewrite Ht. cbn [bind].
    rewrite range_empty by lia. reflexivity.
  - intros [Hge Hno]. apply predict_KeyError; assumption.
Qed.

Lemma C7_witness :
  -3 < 1 /\
  (len history_50_70 < 2 \/
   existsb AdoptionPredictor.has_adoption_rate history_50_70 = true ->
   AdoptionPredictor.predict clock_2026 history_50_70 (-3) = Ok ([], [])) /\
  (2 <= len history_50_70 /\
   existsb AdoptionPredictor.has_adoption_rate history_50_70 = false ->
   AdoptionPredictor.predict clock_2026 history_50_70 (-3) = Raise KeyError).
Proof.
  split; [lia|]. apply (C7_no_periods_no_points clock_2026 history_50_70 (-3)). lia.
Defined.

(** C7 (as stated) fails: [forecast_periods = 0] returns normally. *)
Lemma C7_counterexample :
  AdoptionPredictor.predict clock_2026 [] 0 = Ok ([], []).
Proof. reflexivity. Qed.

(** ** ROIPredictor *)

Lemma year_projection_Ok year_benefits year_costs c s a :
  float_of_int year_costs = Ok c -> is_float (Prim2SF c) s a ->
  exists y, ROIPredictor.year_projection year_benefits year_costs = Ok y.
Proof.
  intros Hc Fc. unfold ROIPredictor.year_projection, ROIPredictor.year_roi.
  rewrite Hc. cbn [bind]. rewrite (float_truediv_normal _ _ _ _ Fc). cbn [bind].
  eexists. reflexivity.
Qed.

(** The multipliers found by the code are the listed percentages, and
    rounding their product to two decimals repairs the error of the two
    binary64 multiplications. *)
Lemma predicted_roi_exact industry company_size :
  round2 (200 * dict_get ROIPredictor.industry_multipliers (lower industry) 1.0
              * dict_get ROIPredictor.size_multipliers (lower company_size) 1.0)%float
  = decimal false (exact_roi_hundredths industry company_size).
Proof.
  unfold exact_roi_hundredths, industry_percent, size_percent,
    ROIPredictor.industry_multipliers, ROIPredictor.size_multipliers.
  cbn [dict_get].
  repeat match goal with
         | |- context [String.eqb ?a ?b] => destruct (String.eqb a b)
         end; vm_compute; reflexivity.
Qed.

Lemma predict_predicted_roi n industry company_size r :
  ROIPredictor.predict n industry company_size = Ok r ->
  ROIPredictor.predicted_roi r = decimal false (exact_roi_hundredths industry company_size).
Proof.
  unfold ROIPredictor.predict. intros H. invert_binds H.
  injection H as <-. cbn [ROIPredictor.predicted_roi]. apply predicted_roi_exact.
Qed.

Lemma predict_lower n industry company_size industry' company_size' :
  lower industry' = lower industry -> lower company_size' = lower company_size ->
  ROIPredictor.predict n industry' company_size' = ROIPredictor.predict n industry company_size.
Proof. unfold ROIPredictor.predict. intros -> ->. reflexivity. Qed.

(** ** Lookup without regard to case *)

Lemma ascii_eqb_nat a b : Ascii.eqb a b = (nat_of_ascii a =? nat_of_ascii b)%nat.
Proof.
  destruct (Ascii.eqb_spec a b) as [->|Hne].
  - symmetry. apply Nat.eqb_refl.
  - symmetry. apply Nat.eqb_neq. intros H. apply Hne.
    rewrite <- (ascii_nat_embedding a), <- (ascii_nat_embedding b), H. reflexivity.
Qed.

Lemma nat_of_lower_ascii a :
  nat_of_ascii (lower_ascii a) =
    if ((65 <=? nat_of_ascii a) && (nat_of_ascii a <=? 90))%nat
    then (nat_of_ascii a + 32)%nat else nat_of_ascii a.
Proof.
  unfold lower_ascii.
  destruct ((65 <=? nat_of_ascii a) && (nat_of_ascii a <=? 90))%nat eqn:E; [|reflexivity].
  apply nat_ascii_embedding. apply andb_prop in E. destruct E as [_ E].
  apply Nat.leb_le in E. lia.
Qed.

Ltac by_codes :=
  repeat match goal with
         | |- context [(?a <=? ?b)%nat] => destruct (Nat.leb_spec a b)
         | |- context [(?a =? ?b)%nat] => destruct (Nat.eqb_spec a b)
         | H : context [(?a <=? ?b)%nat] |- _ => destruct (Nat.leb_spec a b)
         | H : context [(?a =? ?b)%nat] |- _ => destruct (Nat.eqb_spec a b)
         end;
  cbn [andb orb negb] in *; try reflexivity; try discriminate; try lia.

(** Lowering one side decides the match with a letter that is no
    capital. *)
Lemma lower_ascii_same a k :
  negb ((65 <=? nat_of_ascii k) && (nat_of_ascii k <=? 90))%nat = true ->
  Ascii.eqb (lower_ascii a) k = same_letter a k.
Proof.
  intros Hk. rewrite ascii_eqb_nat, nat_of_lower_ascii. unfold same_letter.
  remember (nat_of_ascii a) as x. remember (nat_of_ascii k) as y. by_codes.
Qed.

Lemma lower_eqb_same key : forall s,
  no_capital key = true -> String.eqb (lower s) key = same_ignoring_case s key.
Proof.
  unfold no_capital.
  induction key as [|k key IH]; intros s Hk; destruct s as [|a s];
    cbn [lower String.eqb same_ignoring_case]; try reflexivity.
  cbn [list_ascii_of_string forallb] in Hk. apply andb_prop in Hk. destruct Hk as [Hk Hkey].
  rewrite (lower_ascii_same a k Hk), (IH s Hkey).
  destruct (same_letter a k); reflexivity.
Qed.

Lemma same_letter_lower a b : same_letter a b = true -> lower_ascii a = lower_ascii b.
Proof.
  intros H. rewrite <- (ascii_nat_embedding (lower_ascii a)), <- (ascii_nat_embedding (lower_ascii b)).
  f_equal. rewrite !nat_of_lower_ascii. unfold same_letter in H.
  remember (nat_of_ascii a) as x. remember (nat_of_ascii b) as y. by_codes.
Qed.

Lemma same_ignoring_case_lower s : forall t,
  same_ignoring_case s t = true -> lower s = lower t.
Proof.
  induction s as [|a s IH]; intros [|b t]; cbn [same_ignoring_case lower];
    try reflexivity; try discriminate.
  intros H. apply andb_prop in H. destruct H as [Hab Hst].
  rewrite (same_letter_lower a b Hab), (IH t Hst). reflexivity.
Qed.

(** The percentages found through [lower] are those of the lookup
    without regard to case. *)
Lemma industry_percent_lookup industry :
  industry_percent industry = lookup_ignoring_case industry_table industry 100.
Proof.
  unfold industry_percent, industry_table. cbn [lookup_ignoring_case].
  rewrite !lower_eqb_same by reflexivity.
  repeat match goal with |- context [same_ignoring_case ?s ?k] => destruct (same_ignoring_case s k) end;
    reflexivity.
Qed.

Lemma size_percent_lookup company_size :
  size_percent company_size = lookup_ignoring_case size_table company_size 100.
Proof.
  unfold size_percent, size_table. cbn [lookup_ignoring_case].
  rewrite !lower_eqb_same by reflexivity.
  repeat match goal with |- context [same_ignoring_case ?s ?k] => destruct (same_ignoring_case s k) end;
    reflexivity.
Qed.

(** C3: whenever the estimator returns, [predicted_roi] is
    [200 * industry_multiplier * size_multiplier], the binary64 number
    nearest to the exact product, where each multiplier is the entry of
    its table whose key equals the given name without regard to case,
    and 1.0 (100 percent) when no key does.  Names that differ in case
    only get the same projection, and two unlisted names get 200. *)
Theorem C3_predicted_roi (employee_count : Z) (industry company_size : string)
    (r : ROIPredictor.ROIProjection) :
  ROIPredictor.predict employee_count industry company_size = Ok r ->
  let industry_multiplier := lookup_ignoring_case industry_table industry 100 in
  let size_multiplier := lookup_ignoring_case size_table company_size 100 in
  ROIPredictor.predicted_roi r = decimal false (2 * industry_multiplier * size_multiplier) /\
  (forall industry' company_size',
      same_ignoring_case industry' industry = true ->
      same_ignoring_case company_size' company_size = true ->
      ROIPredictor.predict employee_count industry' company_size' = Ok r) /\
  (industry_multiplier = 100 -> size_multiplier = 100 ->
   ROIPredictor.predicted_roi r = 200%float).
Proof.
  intros H industry_multiplier size_multiplier.
  assert (Hroi : ROIPredictor.predicted_roi r
                 = decimal false (2 * industry_multiplier * size_multiplier)).
  { rewrite (predict_predicted_roi _ _ _ _ H). unfold exact_roi_hundredths.
    rewrite industry_percent_lookup, size_percent_lookup. reflexivity. }
  split; [exact Hroi|]. split.
  - intros i' s' Hi Hs.
    rewrite (predict_lower _ _ _ _ _ (same_ignoring_case_lower _ _ Hi)
               (same_ignoring_case_lower _ _ Hs)).
    exact H.
  - intros Hi Hs. rewrite Hroi, Hi, Hs. vm_compute. reflexivity.
Qed.

Lemma C3_witness :
  ROIPredictor.predict 100 "Technology" "LARGE" = Ok roi_100_technology_large /\
  ROIPredictor.predicted_roi roi_100_technology_large
    = decimal false (2 * lookup_ignoring_case industry_table "Technology" 100
                       * lookup_ignoring_case size_table "LARGE" 100) /\
  (forall industry' company_size',
      same_ignoring_case industry' "Technology" = true ->
      same_ignoring_case company_size' "LARGE" = true ->
      ROIPredictor.predict 100 industry' company_size' = Ok roi_100_technology_large) /\
  (lookup_ignoring_case industry_table "Technology" 100 = 100 ->
   lookup_ignoring_case size_table "LARGE" 100 = 100 ->
   ROIPredictor.predicted_roi roi_100_technology_large = 200%float).
Proof.
  assert (H : ROIPredictor.predict 100 "Technology" "LARGE" = Ok roi_100_technology_large)
    by (vm_compute; reflexivity).
  split; [exact H|].
  exact (C3_predicted_roi 100 "Technology" "LARGE" roi_100_technology_large H).
Defined.

(** The worked examples of the claim: 286.0 for a large technology
    company, however the two names are capitalised, and for two unlisted
    names the projection of two listed multipliers of 1.0. *)
Example roi_worked_examples :
  ROIPredictor.predict 100 "technology" "large" = Ok roi_100_technology_large /\
  ROIPredictor.predicted_roi roi_100_technology_large = 286%float /\
  ROIPredictor.predict 100 "TECHNOLOGY" "Large" = Ok roi_100_technology_large /\
  lookup_ignoring_case industry_table "xyz" 100 = 100 /\
  lookup_ignoring_case size_table "xyz" 100 = 100 /\
  (forall n, ROIPredictor.predict n "xyz" "xyz" = ROIPredictor.predict n "manufacturing" "medium").
Proof. repeat split; vm_compute; reflexivity. Qed.

Lemma predict_positive n industry company_size :
  0 < n -> n * 1200 < 2 ^ 1023 ->
  exists r, ROIPredictor.predict n industry company_size = Ok r /\
            ROIPredictor.breakeven_month r = 8.
Proof.
  intros Hn0 Hn1.
  destruct (breakeven_positive n Hn0 Hn1) as (g & mc & c & C & Hg & Hmc & Hlt & Hc & FC & Hdiv & Hint).
  destruct (float_of_int_near (n * 360)) as (c2 & C2 & Hc2 & FC2 & _); [lia|lia|].
  destruct (year_projection_Ok (g * 0.6) _ _ _ _ Hc FC) as (y1 & Hy1).
  destruct (year_projection_Ok (g * 0.8) _ _ _ _ Hc2 FC2) as (y2 & Hy2).
  destruct (year_projection_Ok (g * 0.9) _ _ _ _ Hc2 FC2) as (y3 & Hy3).
  unfold ROIPredictor.predict.
  rewrite Hg. cbn [bind]. rewrite Hmc. cbn [bind]. rewrite Hlt, Hc. cbn [bind].
  rewrite Hdiv. cbn [bind]. rewrite Hint. cbn [bind].
  rewrite Hy1. cbn [bind]. rewrite Hy2. cbn [bind]. rewrite Hy3. cbn [bind].
  eexists. split; reflexivity.
Qed.

Lemma predict_negative n industry company_size :
  n < 0 -> - 2 ^ 1023 < n * 1200 ->
  exists r, ROIPredictor.predict n industry company_size = Ok r /\
            ROIPredictor.breakeven_month r = 24.
Proof.
  intros Hn0 Hn1.
  destruct (breakeven_negative n Hn0 Hn1) as (g & mc & c & C & Hg & Hmc & Hlt & Hc & FC).
  destruct (float_of_int_near (n * 360)) as (c2 & C2 & Hc2 & FC2 & _); [lia|lia|].
  destruct (year_projection_Ok (g * 0.6) _ _ _ _ Hc FC) as (y1 & Hy1).
  destruct (year_projection_Ok (g * 0.8) _ _ _ _ Hc2 FC2) as (y2 & Hy2).
  destruct (year_projection_Ok (g * 0.9) _ _ _ _ Hc2 FC2) as (y3 & Hy3).
  unfold ROIPredictor.predict.
  rewrite Hg. cbn [bind]. rewrite Hmc. cbn [bind]. rewrite Hlt. cbn [bind].
  rewrite Hy1. cbn [bind]. rewrite Hy2. cbn [bind]. rewrite Hy3. cbn [bind].
  eexists. split; reflexivity.
Qed.

Lemma predict_zero industry company_size :
  ROIPredictor.predict 0 industry company_size = Raise ZeroDivisionError.
Proof. reflexivity. Qed.

(** C10 (as amended): for every positive [employee_count] whose yearly
    productivity value [1200 * employee_count] is below [2^1023], and
    all [industry] and [company_size] strings, the estimator returns
    [breakeven_month = 8]: the monthly benefit exceeds the monthly cost,
    the fallback 24 is not taken, and the binary64 quotient of the
    year-1 costs by the monthly benefit truncates to 8. *)
Theorem C10_breakeven_month_is_8 (employee_count : Z) (industry company_size : string) :
  0 < employee_count -> employee_count * 1200 < 2 ^ 1023 ->
  exists r, ROIPredictor.predict employee_count industry company_size = Ok r /\
            ROIPredictor.breakeven_month r = 8.
Proof. apply predict_positive. Qed.

Lemma C10_witness :
  0 < 100 /\ 100 * 1200 < 2 ^ 1023 /\
  exists r, ROIPredictor.predict 100 "technology" "large" = Ok r /\
            ROIPredictor.breakeven_month r = 8.
Proof.
  split; [lia|]. split; [reflexivity|].
  apply (C10_breakeven_month_is_8 100 "technology" "large"); [lia | reflexivity].
Defined.

(** C10 (as stated) fails: for [employee_count = 2^1014] the product
    [employee_count * 1200] is too large to convert to a float and the
    estimator raises [OverflowError] instead of returning a month. *)
Lemma C10_counterexample :
  ROIPredictor.predict (2 ^ 1014) "technology" "large" = Raise OverflowError.
Proof. vm_compute. reflexivity. Qed.

(** ** UserSegmenter *)

Lemma is_float_0_15 :
  is_float (Prim2SF 0.15) false (5404319552844595 / 36028797018963968)%R.
Proof.
  exists 5404319552844595%positive, (-55). repeat split; try reflexivity; try lia.
  rewrite F2R_neg. reflexivity.
Qed.

Lemma is_float_0_35 :
  is_float (Prim2SF 0.35) false (6305039478318694 / 18014398509481984)%R.
Proof.
  exists 6305039478318694%positive, (-54). repeat split; try reflexivity; try lia.
  rewrite F2R_neg. reflexivity.
Qed.

(** On a positive normal number [int] is the floor. *)
Lemma int_of_float_floor f a :
  is_float (Prim2SF f) false a ->
  int_of_float f = Ok (float_floor f) /\ 0 <= float_floor f.
Proof.
  intros (m & e & Heq & _). unfold int_of_float, float_floor. rewrite Heq.
  cbn [cond_Zopp]. split; [reflexivity|]. apply Z.shiftl_nonneg. lia.
Qed.

Lemma float_of_ssize_normal n :
  0 < n <= sys_maxsize ->
  exists a, is_float (Prim2SF (float_of_ssize n)) false a /\ near a (IZR n).
Proof.
  unfold sys_maxsize. intros Hn.
  destruct (binary_normalize_near n) as (a & Fa & Na); [lia| |].
  { rewrite Z.abs_eq by lia. apply Z.lt_le_trans with (2 ^ 63); [lia|].
    apply Z.pow_le_mono_r; lia. }
  replace (n <? 0) with false in Fa by (symmetry; apply Z.ltb_ge; lia).
  rewrite Z.abs_eq in Na by lia.
  exists a. split; [|exact Na].
  unfold float_of_ssize. rewrite Prim2SF_SF2Prim by (apply (is_float_valid _ _ _ Fa)).
  exact Fa.
Qed.

Lemma share_floor n x b :
  0 < n <= sys_maxsize -> is_float (Prim2SF x) false b -> (/ 8 <= b <= 1)%R ->
  int_of_float (float_of_ssize n * x) = Ok (float_floor (float_of_ssize n * x)) /\
  0 <= float_floor (float_of_ssize n * x).
Proof.
  intros Hn Fx Hb. destruct (float_of_ssize_normal n Hn) as (a & Fa & Na).
  unfold near in Na. rewrite u_eq in Na.
  assert (HN0 : (1 <= IZR n)%R) by (apply IZR_le; lia).
  assert (HN1 : (IZR n < 9223372036854775808)%R)
    by (apply (IZR_lt n (2 ^ 63)); unfold sys_maxsize in Hn; lia).
  assert (HL1 : (bpow (-1021) <= / 16)%R).
  { apply Rle_trans with (bpow (-4)); [apply bpow_le; lia|].
    change (-4) with (- (4)). rewrite bpow_neg by lia. change (2 ^ 4) with 16. lra. }
  assert (HT : (9223372036854775808 * 2 <= bpow 1023)%R).
  { apply Rle_trans with (bpow 64); [|apply bpow_le; lia].
    rewrite bpow_IZR by lia. change (2 ^ 64) with 18446744073709551616. lra. }
  destruct (mul_near _ x _ _ _ _ Fa Fx) as (c & Fc & _).
  - apply Rle_trans with (/ 16)%R; [exact HL1|]. nra.
  - apply Rlt_le_trans with (9223372036854775808 * 2)%R; [nra | exact HT].
  - cbn [xorb] in Fc. apply (int_of_float_floor _ _ Fc).
Qed.

(** C9 (as amended): an empty [user_data] is not rejected: the four
    personas are returned, each of size 0. *)
Theorem C9_empty_population (User : Type) (n_segments : Z) :
  exists segments,
    UserSegmenter.segment (@nil User) n_segments = Ok (segments, UserSegmenter.recommendations) /\
    map UserSegmenter.segment_id segments
      = ["champions"; "engaged"; "casual"; "at_risk"]%string /\
    map UserSegmenter.size segments = [0; 0; 0; 0].
Proof. eexists. repeat split. Qed.

(** C9 (as stated) fails: the empty population is segmented without
    error. *)
Lemma C9_counterexample :
  exists segments,
    UserSegmenter.segment (@nil unit) 4 = Ok (segments, UserSegmenter.recommendations) /\
    map UserSegmenter.size segments = [0; 0; 0; 0].
Proof. eexists. split; reflexivity. Qed.

(** ** ChurnPredictor *)

(** The sixteen outcomes of the four rules. *)
Lemma level_of_capped_score (d : Z) (a t dev : float) :
  let p := Py.min 0.95 (ChurnPredictor.churn_score d a t dev) in
  ChurnPredictor.level_of (round2 p) = ChurnPredictor.level_of p /\
  (ChurnPredictor.level_of p = ChurnPredictor.high <-> (0.7 <? round2 p)%float = true) /\
  (ChurnPredictor.level_of p = ChurnPredictor.medium <->
     (0.4 <? round2 p)%float = true /\ (round2 p <=? 0.7)%float = true) /\
  (ChurnPredictor.level_of p = ChurnPredictor.low <-> (0.4 <? round2 p)%float = false).
Proof.
  unfold ChurnPredictor.churn_score.
  destruct (14 <? d)%Z, (a <? 2)%float, (t <? 0)%float, (5 <? dev)%float;
    vm_compute; repeat split; intros; try reflexivity; try discriminate;
    repeat match goal with H : _ /\ _ |- _ => destruct H end; try discriminate.
Qed.

(** The four weights add up to 0.9 at most: the cap at 0.95 never
    changes the score. *)
Lemma churn_cap_unreachable (d : Z) (a t dev : float) :
  Py.min 0.95 (ChurnPredictor.churn_score d a t dev) = ChurnPredictor.churn_score d a t dev /\
  (ChurnPredictor.churn_score d a t dev <=? 0.9)%float = true.
Proof.
  unfold ChurnPredictor.churn_score.
  destruct (14 <? d)%Z, (a <? 2)%float, (t <? 0)%float, (5 <? dev)%float;
    vm_compute; split; reflexivity.
Qed.

(** C4: the risk level is a function of the returned
    [ChurnPredictor.churn_probability]: [ChurnPredictor.high] if and only if it exceeds 0.7, [ChurnPredictor.medium]
    if and only if it exceeds 0.4 without exceeding 0.7, [ChurnPredictor.low]
    otherwise; a churn probability of exactly 0.7 is [ChurnPredictor.medium]. *)
Theorem C4_risk_level_thresholds (stats : Pandas.SeriesStats) (now : Z)
    (engagement_history : list ChurnPredictor.EngagementRecord) (r : ChurnPredictor.ChurnAssessment) :
  ChurnPredictor.predict now engagement_history = Ok r ->
  ChurnPredictor.risk_level r = ChurnPredictor.level_of (ChurnPredictor.churn_probability r) /\
  (ChurnPredictor.risk_level r = ChurnPredictor.high <-> (0.7 <? ChurnPredictor.churn_probability r)%float = true) /\
  (ChurnPredictor.risk_level r = ChurnPredictor.medium <->
     (0.4 <? ChurnPredictor.churn_probability r)%float = true /\
     (ChurnPredictor.churn_probability r <=? 0.7)%float = true) /\
  (ChurnPredictor.risk_level r = ChurnPredictor.low <-> (0.4 <? ChurnPredictor.churn_probability r)%float = false) /\
  (ChurnPredictor.churn_probability r = 0.7%float -> ChurnPredictor.risk_level r = ChurnPredictor.medium).
Proof.
  unfold ChurnPredictor.predict. destruct engagement_history as [|first rest]; [discriminate|].
  intros [= <-]. cbn [ChurnPredictor.risk_level ChurnPredictor.churn_probability].
  match goal with
  | |- context [ChurnPredictor.churn_score ?d ?a ?t ?dev] =>
      destruct (level_of_capped_score d a t dev) as (H0 & H1 & H2 & H3)
  end.
  split; [symmetry; exact H0|]. split; [exact H1|]. split; [exact H2|]. split; [exact H3|].
  intros H7. apply H2. rewrite H7. split; reflexivity.
Qed.

Lemma C4_witness :
  ChurnPredictor.predict (clock_2026 0) (bursty_history (clock_2026 0)) = Ok assessment_0_7 /\
  ChurnPredictor.risk_level assessment_0_7
    = ChurnPredictor.level_of (ChurnPredictor.churn_probability assessment_0_7) /\
  (ChurnPredictor.risk_level assessment_0_7 = ChurnPredictor.high <->
     (0.7 <? ChurnPredictor.churn_probability assessment_0_7)%float = true) /\
  (ChurnPredictor.risk_level assessment_0_7 = ChurnPredictor.medium <->
     (0.4 <? ChurnPredictor.churn_probability assessment_0_7)%float = true /\
     (ChurnPredictor.churn_probability assessment_0_7 <=? 0.7)%float = true) /\
  (ChurnPredictor.risk_level assessment_0_7 = ChurnPredictor.low <->
     (0.4 <? ChurnPredictor.churn_probability assessment_0_7)%float = false) /\
  (ChurnPredictor.churn_probability assessment_0_7 = 0.7%float ->
   ChurnPredictor.risk_level assessment_0_7 = ChurnPredictor.medium).
Proof.
  assert (H : ChurnPredictor.predict (clock_2026 0) (bursty_history (clock_2026 0))
              = Ok assessment_0_7) by (vm_compute; reflexivity).
  split; [exact H|].
  exact (C4_risk_level_thresholds Pandas.pandas_stats (clock_2026 0)
           (bursty_history (clock_2026 0)) assessment_0_7 H).
Defined.





(** ** Dependence on the clock *)

Lemma forecast_step_clock now1 now2 kind base_rate growth_rate i p1 c1 p2 c2 :
  AdoptionPredictor.forecast_step now1 kind base_rate growth_rate i = Ok (p1, c1) ->
  AdoptionPredictor.forecast_step now2 kind base_rate growth_rate i = Ok (p2, c2) ->
  AdoptionPredictor.period p1 = AdoptionPredictor.period p2 /\
  AdoptionPredictor.adoption_rate p1 = AdoptionPredictor.adoption_rate p2 /\
  c1 = c2 /\
  AdoptionPredictor.timestamp p1 = now1 + 30 * i * Datetime.us_per_day.
Proof.
  unfold AdoptionPredictor.forecast_step, Datetime.add, Datetime.timedelta_days.
  destruct (float_of_int i) as [fi|e]; cbn [bind]; [|discriminate].
  destruct (Z.abs (30 * i) <=? 999999999); cbn [bind]; [|discriminate].
  destruct ((0 <=? now1 + 30 * i * Datetime.us_per_day)
            && (now1 + 30 * i * Datetime.us_per_day <=? Datetime.max)); cbn [bind]; [|discriminate].
  destruct ((0 <=? now2 + 30 * i * Datetime.us_per_day)
            && (now2 + 30 * i * Datetime.us_per_day <=? Datetime.max)); cbn [bind]; [|discriminate].
  intros [= <- <-] [= <- <-]. repeat split.
Qed.

Lemma steps_clock (clock1 clock2 : Z -> Z) kind base_rate growth_rate (l : list Z) :
  forall steps1 steps2,
  Forall2 (fun i s => AdoptionPredictor.forecast_step (clock1 (i - 1)) kind base_rate growth_rate i
                      = Ok s)
          l steps1 ->
  Forall2 (fun i s => AdoptionPredictor.forecast_step (clock2 (i - 1)) kind base_rate growth_rate i
                      = Ok s)
          l steps2 ->
  map AdoptionPredictor.period (map fst steps1) = map AdoptionPredictor.period (map fst steps2) /\
  map AdoptionPredictor.adoption_rate (map fst steps1)
    = map AdoptionPredictor.adoption_rate (map fst steps2) /\
  map snd steps1 = map snd steps2 /\
  Forall2 (fun i p => AdoptionPredictor.timestamp p = clock1 (i - 1) + 30 * i * Datetime.us_per_day)
          l (map fst steps1).
Proof.
  induction l as [|i l IH]; intros steps1 steps2 H1 H2; inversion H1; inversion H2; subst;
    cbn [map].
  - repeat split; constructor.
  - destruct y as [p1 c1]. destruct y0 as [p2 c2].
    match goal with
    | Ha : AdoptionPredictor.forecast_step (clock1 _) _ _ _ _ = _,
      Hb : AdoptionPredictor.forecast_step (clock2 _) _ _ _ _ = _ |- _ =>
        destruct (forecast_step_clock _ _ _ _ _ _ _ _ _ _ Ha Hb) as (E1 & E2 & E3 & E4)
    end.
    match goal with
    | Ha : Forall2 _ l ?s1, Hb : Forall2 _ l ?s2 |- _ =>
        destruct (IH s1 s2 Ha Hb) as (I1 & I2 & I3 & I4)
    end.
    cbn [fst snd]. rewrite E1, E2, E3, I1, I2, I3.
    repeat split. constructor; assumption.
Qed.

(** C2 (as amended): the two estimators that read the wall clock are
    functions of their input and of the readings they take.  The
    adoption forecaster gives the same outcome under clocks that agree
    on the readings it takes; when it returns under two clocks, its
    periods, adoption rates and confidence bands are the same, and the
    timestamp of period [i] is the reading of iteration [i] plus
    [30 * i] days.  The churn estimator gives the same outcome for two
    readings that are the same number of whole days after the last
    activity. *)
Theorem C2_deterministic_given_clock :
  (forall clock1 clock2 historical_data forecast_periods,
      (forall k, 0 <= k < forecast_periods -> clock1 k = clock2 k) ->
      AdoptionPredictor.predict clock1 historical_data forecast_periods
      = AdoptionPredictor.predict clock2 historical_data forecast_periods) /\
  (forall clock1 clock2 historical_data forecast_periods ps1 cs1 ps2 cs2,
      AdoptionPredictor.predict clock1 historical_data forecast_periods = Ok (ps1, cs1) ->
      AdoptionPredictor.predict clock2 historical_data forecast_periods = Ok (ps2, cs2) ->
      map AdoptionPredictor.period ps1 = map AdoptionPredictor.period ps2 /\
      map AdoptionPredictor.adoption_rate ps1 = map AdoptionPredictor.adoption_rate ps2 /\
      cs1 = cs2 /\
      Forall2 (fun i p => AdoptionPredictor.timestamp p
                          = clock1 (i - 1) + 30 * i * Datetime.us_per_day)
              (range 1 (forecast_periods + 1)) ps1) /\
  (forall (stats : Pandas.SeriesStats) now1 now2 first rest,
      Datetime.days_between now1 (ChurnPredictor.date (last (first :: rest) first))
      = Datetime.days_between now2 (ChurnPredictor.date (last (first :: rest) first)) ->
      ChurnPredictor.predict now1 (first :: rest) = ChurnPredictor.predict now2 (first :: rest)).
Proof.
  split; [|split].
  - intros clock1 clock2 hist n Hagree. unfold AdoptionPredictor.predict.
    destruct (AdoptionPredictor.trend hist) as [[[kind base_rate] growth_rate]|e]; cbn [bind];
      [|reflexivity].
    rewrite (mapM_ext_in _ (fun i => AdoptionPredictor.forecast_step (clock2 (i - 1))
                                       kind base_rate growth_rate i)); [reflexivity|].
    intros i Hi. apply In_range in Hi. rewrite Hagree by lia. reflexivity.
  - intros clock1 clock2 hist n ps1 cs1 ps2 cs2. unfold AdoptionPredictor.predict.
    destruct (AdoptionPredictor.trend hist) as [[[kind base_rate] growth_rate]|e]; cbn [bind];
      [|discriminate].
    destruct (mapM _ _) as [steps1|] eqn:H1; cbn [bind]; [|discriminate].
    destruct (mapM (fun i => AdoptionPredictor.forecast_step (clock2 _) _ _ _ _) _)
      as [steps2|] eqn:H2; cbn [bind]; [|discriminate].
    intros [= <- <-] [= <- <-].
    apply mapM_Ok_inv in H1, H2.
    apply (steps_clock clock1 clock2 kind base_rate growth_rate _ _ _ H1 H2).
  - intros stats now1 now2 first rest Hdays. cbn [ChurnPredictor.predict].
    rewrite Hdays. reflexivity.
Qed.

(** C2 (as stated) fails: the same request served one hour apart gets
    different forecast timestamps, and the same engagement history is
    scored differently once its last record is more than 14 days old. *)
Lemma C2_counterexample :
  AdoptionPredictor.predict clock_2026 [] 1 <> AdoptionPredictor.predict clock_2026_later [] 1 /\
  ChurnPredictor.predict (clock_2026 0) fortnight_old
  <> ChurnPredictor.predict (clock_2026_later 0) fortnight_old.
Proof.
  split; intros H; vm_compute in H; discriminate H.
Qed.

(** * Further properties *)

(** ** Sums and differences of normal numbers *)

Lemma shl_align_le m e e' :
  e' <= e -> exists m', shl_align m e e' = (m', e') /\ Zpos m' = Zpos m * 2 ^ (e - e').
Proof.
  intros H. unfold shl_align. destruct (e' - e) as [|k|k] eqn:Hk; try lia.
  - exists m. replace e' with e by lia. rewrite Z.sub_diag. split; [reflexivity | cbn; lia].
  - exists (shift_pos k m). split; [reflexivity|]. unfold shift_pos.
    rewrite Pos_iter_xO. replace (e - e') with (Zpos k) by lia. reflexivity.
Qed.

Lemma F2R_shift m e e' : e' <= e -> F2R (m * 2 ^ (e - e')) e' = F2R m e.
Proof.
  intros H. unfold F2R. rewrite mult_IZR, <- bpow_IZR by lia.
  rewrite Rmult_assoc, <- bpow_add. replace (e - e' + e') with e by lia. reflexivity.
Qed.

(** Rounding [p * 2^e] when it lies in the normal range. *)
Lemma binary_round_normal s p e :
  (bpow (-1021) <= F2R (Zpos p) e)%R -> (F2R (Zpos p) e < bpow 1023)%R ->
  exists a, is_float (binary_round prec emax s p e) s a /\ near a (F2R (Zpos p) e).
Proof.
  intros Hlo Hhi. unfold binary_round.
  pose proof (digits_mag p e) as [Hm1 Hm2].
  remember (Zpos (digits2_pos p)) as d eqn:Hd.
  assert (Hn : -1021 < d + e) by (apply bpow_lt_inv; lra).
  rewrite fexp_normal by lia.
  destruct (Z_le_gt_dec 53 d) as [Hge|Hlt].
  - assert (Hs : shl_align p e (d + e - 53) = (p, e)).
    { unfold shl_align. destruct (d + e - 53 - e) eqn:Hk; try reflexivity; lia. }
    rewrite Hs. apply round_aux_near; try lra; [lia|].
    split; [lra|]. unfold F2R. rewrite plus_IZR. pose proof (bpow_gt_0 e). lra.
  - destruct (shl_align_le p e (d + e - 53)) as (m' & Hs & Hm'); [lia|].
    rewrite Hs.
    assert (HF : F2R (Zpos m') (d + e - 53) = F2R (Zpos p) e).
    { rewrite Hm'. apply F2R_shift. lia. }
    apply round_aux_near; rewrite ?HF; try lra.
    + destruct (digits2_bounds p) as [Hb1 Hb2]. rewrite <- Hd in Hb1, Hb2.
      destruct (Z_le_gt_dec 53 (Zpos (digits2_pos m'))) as [|Hg]; auto.
      destruct (digits2_bounds m') as [_ Hc2].
      assert (2 ^ Zpos (digits2_pos m') <= 2 ^ 52) by (apply Z.pow_le_mono_r; lia).
      replace (e - (d + e - 53)) with (53 - d) in Hm' by lia.
      assert (2 ^ (d - 1) * 2 ^ (53 - d) <= Zpos p * 2 ^ (53 - d)).
      { apply Z.mul_le_mono_nonneg_r; [apply Z.pow_nonneg; lia | lia]. }
      rewrite <- Z.pow_add_r in H0 by lia. replace (d - 1 + (53 - d)) with 52 in H0 by lia.
      lia.
    + split; [lra|]. unfold F2R in *. rewrite plus_IZR.
      pose proof (bpow_gt_0 (d + e - 53)). lra.
Qed.

Lemma SFadd_near_pos mx ex my ey :
  (bpow (-1021) <= F2R (Zpos mx) ex + F2R (Zpos my) ey)%R ->
  (F2R (Zpos mx) ex + F2R (Zpos my) ey < bpow 1023)%R ->
  exists c, is_float (SFadd prec emax (S754_finite false mx ex) (S754_finite false my ey)) false c /\
            near c (F2R (Zpos mx) ex + F2R (Zpos my) ey).
Proof.
  intros Hlo Hhi. cbn [SFadd].
  change (IntDef.Z.min ex ey) with (Z.min ex ey).
  remember (Z.min ex ey) as ez eqn:Hez.
  destruct (shl_align_le mx ex ez) as (mx' & Hsx & Hmx); [lia|].
  destruct (shl_align_le my ey ez) as (my' & Hsy & Hmy); [lia|].
  rewrite Hsx, Hsy. cbn [fst cond_Zopp].
  change (Zpos mx' + Zpos my') with (Zpos (mx' + my')). cbn [binary_normalize].
  assert (HF : F2R (Zpos (mx' + my')) ez = (F2R (Zpos mx) ex + F2R (Zpos my) ey)%R).
  { rewrite <- (F2R_shift (Zpos mx) ex ez), <- (F2R_shift (Zpos my) ey ez) by lia.
    rewrite <- Hmx, <- Hmy. unfold F2R. rewrite Pos2Z.inj_add, plus_IZR. ring. }
  rewrite <- HF in *. apply binary_round_normal; assumption.
Qed.

Lemma SFsub_near_pos mx ex my ey :
  (bpow (-1021) <= F2R (Zpos mx) ex - F2R (Zpos my) ey)%R ->
  (F2R (Zpos mx) ex - F2R (Zpos my) ey < bpow 1023)%R ->
  exists c, is_float (SFsub prec emax (S754_finite false mx ex) (S754_finite false my ey)) false c /\
            near c (F2R (Zpos mx) ex - F2R (Zpos my) ey).
Proof.
  intros Hlo Hhi. cbn [SFsub].
  change (IntDef.Z.min ex ey) with (Z.min ex ey).
  remember (Z.min ex ey) as ez eqn:Hez.
  destruct (shl_align_le mx ex ez) as (mx' & Hsx & Hmx); [lia|].
  destruct (shl_align_le my ey ez) as (my' & Hsy & Hmy); [lia|].
  rewrite Hsx, Hsy. cbn [fst cond_Zopp].
  assert (HF : F2R (Zpos mx' - Zpos my') ez = (F2R (Zpos mx) ex - F2R (Zpos my) ey)%R).
  { rewrite <- (F2R_shift (Zpos mx) ex ez), <- (F2R_shift (Zpos my) ey ez) by lia.
    rewrite <- Hmx, <- Hmy. unfold F2R. rewrite minus_IZR. ring. }
  assert (Hpos : 0 < Zpos mx' - Zpos my').
  { apply lt_IZR. pose proof (bpow_gt_0 (-1021)). pose proof (bpow_gt_0 ez).
    unfold F2R in HF. apply Rmult_lt_reg_r with (bpow ez); [assumption|].
    rewrite Rmult_0_l. unfold F2R in Hlo. lra. }
  destruct (Zpos mx' - Zpos my') as [|d|d] eqn:Hd; try lia.
  cbn [binary_normalize]. rewrite <- HF in *. apply binary_round_normal; assumption.
Qed.

Lemma add_near f g a b :
  is_float (Prim2SF f) false a -> is_float (Prim2SF g) false b ->
  (a + b < bpow 1023)%R ->
  exists c, is_float (Prim2SF (f + g)) false c /\ near c (a + b).
Proof.
  intros (mx & ex & Hf & Hdx & Hex & ->) (my & ey & Hg & Hdy & Hey & ->) Hhi.
  rewrite add_spec, Hf, Hg. apply SFadd_near_pos; [|exact Hhi].
  pose proof (digits_mag mx ex) as [H1 _]. rewrite Hdx in H1.
  pose proof (digits_mag my ey) as [H2 _]. rewrite Hdy in H2.
  assert (bpow (-1022) <= bpow (53 + ex - 1))%R by (apply bpow_le; lia).
  assert (bpow (-1022) <= bpow (53 + ey - 1))%R by (apply bpow_le; lia).
  assert (bpow (-1021) = 2 * bpow (-1022))%R.
  { rewrite <- bpow_1, <- bpow_add. reflexivity. }
  lra.
Qed.

Lemma sub_near f g a b :
  is_float (Prim2SF f) false a -> is_float (Prim2SF g) false b ->
  (bpow (-1021) <= a - b)%R -> (a - b < bpow 1023)%R ->
  exists c, is_float (Prim2SF (f - g)) false c /\ near c (a - b).
Proof.
  intros (mx & ex & Hf & Hdx & Hex & ->) (my & ey & Hg & Hdy & Hey & ->) Hlo Hhi.
  rewrite sub_spec, Hf, Hg. apply SFsub_near_pos; assumption.
Qed.

(** ** Comparison *)

Lemma SFleb_pos x y a b :
  is_float x false a -> is_float y false b ->
  (SFleb x y = true <-> (a <= b)%R).
Proof.
  intros Hx Hy.
  destruct Hx as (m1 & e1 & -> & Hd1 & He1 & ->).
  destruct Hy as (m2 & e2 & -> & Hd2 & He2 & ->).
  assert (Hm1 : 2 ^ 52 <= Zpos m1 < 2 ^ 53)
    by (pose proof (digits2_bounds m1) as Hb; rewrite Hd1 in Hb; exact Hb).
  assert (Hm2 : 2 ^ 52 <= Zpos m2 < 2 ^ 53)
    by (pose proof (digits2_bounds m2) as Hb; rewrite Hd2 in Hb; exact Hb).
  unfold SFleb, SFcompare.
  destruct (Z.compare_spec e1 e2) as [Heq|Hlt|Hgt].
  - subst e2. change (Pos.compare_cont Eq m1 m2) with (m1 ?= m2)%positive.
    unfold F2R. pose proof (bpow_gt_0 e1) as Hp.
    destruct (Pos.compare_spec m1 m2) as [Hm|Hm|Hm].
    + subst m2. split; [lra | reflexivity].
    + split; [intros _ | reflexivity].
      apply Rmult_le_compat_r; [lra | apply IZR_le; lia].
    + split; [discriminate|]. intros Hle.
      assert (IZR (Zpos m2) < IZR (Zpos m1))%R by (apply IZR_lt; lia). nra.
  - pose proof (F2R_lt_exp _ _ _ _ Hm1 Hm2 Hlt). split; [intros _; lra | reflexivity].
  - pose proof (F2R_lt_exp _ _ _ _ Hm2 Hm1 Hgt). split; [discriminate | lra].
Qed.

Lemma leb_pos f g a b :
  is_float (Prim2SF f) false a -> is_float (Prim2SF g) false b ->
  ((f <=? g)%float = true <-> (a <= b)%R).
Proof. intros Hf Hg. rewrite leb_spec. apply SFleb_pos; assumption. Qed.

(** ** Rounding to hundredths *)

Lemma round_half_even_eq a b h :
  0 < b -> (2 * h - 1) * b < 2 * a < (2 * h + 1) * b -> round_half_even a b = h.
Proof.
  intros Hb [H1 H2]. unfold round_half_even.
  pose proof (Z.div_mod a b ltac:(lia)) as Hdiv.
  pose proof (Z.mod_pos_bound a b Hb) as Hr.
  remember (a / b) as q eqn:Hq. remember (a mod b) as r eqn:Hrr.
  destruct (Z.compare_spec (2 * r) b) as [He|Hl|Hg].
  - exfalso. assert (2 * a = (2 * q + 1) * b) by lia.
    assert (2 * h - 1 < 2 * q + 1) by nia. assert (2 * q + 1 < 2 * h + 1) by nia. lia.
  - assert (h <= q) by nia. assert (q <= h) by nia. lia.
  - assert (h <= q + 1) by nia. assert (q + 1 <= h) by nia. lia.
Qed.

(** [round(x, 2)] of a number within half a hundredth of [h / 100]. *)
Lemma round2_hundredths x s a h :
  is_float (Prim2SF x) s a -> (IZR h - / 2 < a * 100 < IZR h + / 2)%R ->
  round2 x = decimal s h.
Proof.
  intros (m & e & Hx & Hd & He & ->) [H1 H2]. unfold round2. rewrite Hx.
  f_equal. destruct (Z.leb_spec 0 e) as [Hle|Hlt].
  - assert (HF : (F2R (Zpos m) e * 100 = IZR (Zpos m * 2 ^ e * 100))%R).
    { unfold F2R. rewrite !mult_IZR, bpow_IZR by lia. reflexivity. }
    rewrite HF in H1, H2.
    assert (h - 1 < Zpos m * 2 ^ e * 100) by (apply lt_IZR; rewrite minus_IZR; lra).
    assert (Zpos m * 2 ^ e * 100 < h + 1) by (apply lt_IZR; rewrite plus_IZR; lra).
    lia.
  - apply round_half_even_eq; [apply Z.pow_pos_nonneg; lia|].
    assert (Hk : (0 < IZR (2 ^ (- e)))%R) by (apply IZR_lt, Z.pow_pos_nonneg; lia).
    assert (HF : (F2R (Zpos m) e = IZR (Zpos m) / IZR (2 ^ (- e)))%R).
    { unfold F2R. replace e with (- (- e)) at 1 by lia. rewrite bpow_neg by lia. reflexivity. }
    rewrite HF in H1, H2.
    remember (IZR (2 ^ (- e))) as K eqn:HK.
    remember (IZR (Zpos m) / K * 100)%R as X eqn:HX.
    assert (Ha : (X * K = IZR (Zpos m) * 100)%R) by (subst X; field; lra).
    assert (Hb1 : ((IZR h - / 2) * K < X * K)%R) by (apply Rmult_lt_compat_r; assumption).
    assert (Hb2 : (X * K < (IZR h + / 2) * K)%R) by (apply Rmult_lt_compat_r; assumption).
    split; apply lt_IZR; rewrite !mult_IZR, ?minus_IZR, ?plus_IZR, !mult_IZR, <- ?HK; lra.
Qed.

Lemma decimal_near s h :
  0 < h -> h < 2 ^ 1000 ->
  exists c, is_float (Prim2SF (decimal s h)) s c /\ near c (IZR h / 100).
Proof.
  intros H0 H1. unfold decimal. destruct h as [|p|p]; try lia. cbn [SF_of_sign_mag].
  assert (HF : F2R (Zpos p) 0 = IZR (Zpos p)) by (unfold F2R; rewrite bpow_0; ring).
  assert (HG : F2R 100 0 = 100%R) by (unfold F2R; rewrite bpow_0; ring).
  destruct (SFdiv_near s false p 0 100 0) as (c & Hc & Hn).
  - rewrite HF, HG. assert (1 <= IZR (Zpos p))%R by (apply IZR_le; lia).
    assert (bpow (-1020) <= / 100)%R.
    { apply Rle_trans with (bpow (-7)); [apply bpow_le; lia|].
      change (-7) with (- (7)). rewrite bpow_neg by lia. change (2 ^ 7) with 128.
      apply Rinv_le_contravar; lra. }
    unfold Rdiv. apply Rle_trans with (1 * / 100)%R; [lra|].
    apply Rmult_le_compat_r; [apply Rlt_le, Rinv_0_lt_compat; lra | assumption].
  - rewrite HF, HG. apply IZR_lt in H1.
    assert (IZR (2 ^ 1000) <= bpow 1023)%R.
    { rewrite <- bpow_IZR by lia. apply bpow_le. lia. }
    assert (IZR (Zpos p) / 100 <= IZR (Zpos p))%R.
    { assert (1 <= IZR (Zpos p))%R by (apply IZR_le; lia). lra. }
    lra.
  - rewrite HF, HG in Hn. exists c. split; [|exact Hn].
    rewrite xorb_false_r in Hc.
    assert (Hv := is_float_valid _ _ _ Hc).
    rewrite Prim2SF_SF2Prim; assumption.
Qed.

(** ** The ROI projection in closed form *)

Lemma is_float_0_8 :
  is_float (Prim2SF 0.8) false (7205759403792794 / 9007199254740992)%R.
Proof.
  exists 7205759403792794%positive, (-53). repeat split; try reflexivity; try lia.
  rewrite F2R_neg. reflexivity.
Qed.

Lemma is_float_0_9 :
  is_float (Prim2SF 0.9) false (8106479329266893 / 9007199254740992)%R.
Proof.
  exists 8106479329266893%positive, (-53). repeat split; try reflexivity; try lia.
  rewrite F2R_neg. reflexivity.
Qed.

Lemma is_float_100 : is_float (Prim2SF 100) false 100%R.
Proof.
  exists 7036874417766400%positive, (-46). repeat split; try reflexivity; try lia.
  rewrite F2R_neg. change (2 ^ 46) with 70368744177664. lra.
Qed.

Lemma bpow_small k : k <= -10 -> (bpow k <= / 1024)%R.
Proof.
  intros H. apply Rle_trans with (bpow (-10)); [apply bpow_le; lia|].
  change (-10) with (- (10)). rewrite bpow_neg by lia. change (2 ^ 10) with 1024. lra.
Qed.


(** The yearly ROI percentage from the rounded benefits [g * rate] and
    the integer costs, by the error of every operation. *)
Ltac year_roi_by_bounds n g G FG NG Frate z1 z2 h :=
  let HN0 := fresh "HN0" in let HN1 := fresh "HN1" in
  let HL1 := fresh "HL1" in let HL0 := fresh "HL0" in
  match goal with
  | Hn0 : 0 < n, Hn1 : n * 1200 < 2 ^ 1023 |- ROIPredictor.year_roi (g * ?rate)%float ?cost = _ =>
      assert (HN0 : (1 <= IZR n)%R) by (apply IZR_le; lia);
      assert (HN1 : (IZR n * 1200 < bpow 1023)%R)
        by (rewrite bpow_IZR by lia; rewrite <- mult_IZR; apply IZR_lt; exact Hn1);
      pose proof (bpow_small (-1021) ltac:(lia)) as HL1;
      pose proof (bpow_small (-1020) ltac:(lia)) as HL0;
      let T := fresh "T" in let ET := fresh "ET" in
      let N := fresh "N" in let EN := fresh "EN" in
      remember (bpow 1023) as T eqn:ET; remember (IZR n) as N eqn:EN;
      unfold near in NG; rewrite u_eq in NG;
      let YB := fresh "YB" in let FYB := fresh "FYB" in let NYB := fresh "NYB" in
      destruct (mul_near g rate _ _ _ _ FG Frate) as (YB & FYB & NYB); [lra | lra |];
      unfold near in NYB; rewrite u_eq in NYB; cbn [xorb] in FYB;
      let c := fresh "c" in let C := fresh "C" in let Hc := fresh "Hc" in
      let FC := fresh "FC" in let NC := fresh "NC" in
      destruct (float_of_int_near cost) as (c & C & Hc & FC & NC); [lia | lia |];
      replace (cost <? 0) with false in FC by (symmetry; apply Z.ltb_ge; lia);
      rewrite Z.abs_eq, ?plus_IZR, !mult_IZR, <- EN in NC by lia;
      unfold near in NC; rewrite u_eq in NC;
      let GA := fresh "GA" in let FGA := fresh "FGA" in let NGA := fresh "NGA" in
      destruct (sub_near (g * rate) c _ _ FYB FC) as (GA & FGA & NGA); [lra | lra |];
      unfold near in NGA; rewrite u_eq in NGA;
      let HC := fresh "HC" in
      assert (HC : (0 < C)%R) by lra;
      let Hq1 := fresh "Hq1" in let Hq2 := fresh "Hq2" in
      assert (Hq1 : (z1 <= GA / C)%R) by (apply div_lower; lra);
      assert (Hq2 : (GA / C <= z2)%R) by (apply div_upper; lra);
      let RT := fresh "RT" in let FRT := fresh "FRT" in let NRT := fresh "NRT" in
      destruct (div_near (g * rate - c) c _ _ _ _ FGA FC) as (RT & FRT & NRT); [lra | lra |];
      unfold near in NRT; rewrite u_eq in NRT; cbn [xorb] in FRT;
      let X := fresh "X" in let FX := fresh "FX" in let NX := fresh "NX" in
      destruct (mul_near (((g * rate) - c) / c) 100 _ _ _ _ FRT is_float_100) as (X & FX & NX);
        [lra | lra |];
      unfold near in NX; rewrite u_eq in NX; cbn [xorb] in FX;
      unfold ROIPredictor.year_roi; rewrite Hc; cbn [bind];
      rewrite (float_truediv_normal _ _ _ _ FC); cbn [bind];
      f_equal; apply (round2_hundredths _ false X h FX); lra
  end.

Lemma year1_roi n g G :
  0 < n -> n * 1200 < 2 ^ 1023 ->
  is_float (Prim2SF g) false G -> near G (IZR n * 1200) ->
  ROIPredictor.year_roi (g * 0.6) (n * 360 + n * 150) = Ok (decimal false 4118).
Proof.
  intros Hn0 Hn1 FG NG.
  year_roi_by_bounds n g G FG NG is_float_0_6 0.41176%R 0.41177%R 4118.
Qed.

Lemma year2_roi n g G :
  0 < n -> n * 1200 < 2 ^ 1023 ->
  is_float (Prim2SF g) false G -> near G (IZR n * 1200) ->
  ROIPredictor.year_roi (g * 0.8) (n * 360) = Ok (decimal false 16667).
Proof.
  intros Hn0 Hn1 FG NG.
  year_roi_by_bounds n g G FG NG is_float_0_8 1.66666%R 1.66667%R 16667.
Qed.

Lemma year3_roi n g G :
  0 < n -> n * 1200 < 2 ^ 1023 ->
  is_float (Prim2SF g) false G -> near G (IZR n * 1200) ->
  ROIPredictor.year_roi (g * 0.9) (n * 360) = Ok (decimal false 20000).
Proof.
  intros Hn0 Hn1 FG NG.
  year_roi_by_bounds n g G FG NG is_float_0_9 1.99999%R 2.00001%R 20000.
Qed.

(** The yearly benefits to the cent, for up to [2 ^ 32] employees. *)
Ltac benefits_by_bounds n g G FG NG Frate h :=
  match goal with
  | Hn0 : 0 < n, Hn1 : n <= 2 ^ 32 |- round2 (g * ?rate)%float = _ =>
      let HN0 := fresh "HN0" in let HN1 := fresh "HN1" in
      assert (HN0 : (1 <= IZR n)%R) by (apply IZR_le; lia);
      assert (HN1 : (IZR n <= 4294967296)%R) by (apply (IZR_le n (2 ^ 32)); exact Hn1);
      let HL1 := fresh "HL1" in
      pose proof (bpow_small (-1021) ltac:(lia)) as HL1;
      let HT := fresh "HT" in
      assert (HT : (IZR (2 ^ 50) <= bpow 1023)%R)
        by (rewrite <- bpow_IZR by lia; apply bpow_le; lia);
      change (IZR (2 ^ 50)) with 1125899906842624%R in HT;
      let T := fresh "T" in let ET := fresh "ET" in
      let N := fresh "N" in let EN := fresh "EN" in
      remember (bpow 1023) as T eqn:ET; remember (IZR n) as N eqn:EN;
      unfold near in NG; rewrite u_eq in NG;
      let YB := fresh "YB" in let FYB := fresh "FYB" in let NYB := fresh "NYB" in
      destruct (mul_near g rate _ _ _ _ FG Frate) as (YB & FYB & NYB); [lra | lra |];
      unfold near in NYB; rewrite u_eq in NYB; cbn [xorb] in FYB;
      apply (round2_hundredths _ false YB h FYB);
      rewrite mult_IZR, <- EN; lra
  end.

Lemma year1_benefits n g G :
  0 < n -> n <= 2 ^ 32 ->
  is_float (Prim2SF g) false G -> near G (IZR n * 1200) ->
  round2 (g * 0.6) = decimal false (72000 * n).
Proof.
  intros Hn0 Hn1 FG NG. benefits_by_bounds n g G FG NG is_float_0_6 (72000 * n).
Qed.

Lemma year2_benefits n g G :
  0 < n -> n <= 2 ^ 32 ->
  is_float (Prim2SF g) false G -> near G (IZR n * 1200) ->
  round2 (g * 0.8) = decimal false (96000 * n).
Proof.
  intros Hn0 Hn1 FG NG. benefits_by_bounds n g G FG NG is_float_0_8 (96000 * n).
Qed.

Lemma year3_benefits n g G :
  0 < n -> n <= 2 ^ 32 ->
  is_float (Prim2SF g) false G -> near G (IZR n * 1200) ->
  round2 (g * 0.9) = decimal false (108000 * n).
Proof.
  intros Hn0 Hn1 FG NG. benefits_by_bounds n g G FG NG is_float_0_9 (108000 * n).
Qed.

(** X5: For up to [2 ^ 32] employees the whole projection is known in closed
    form: per employee the costs are 510, 360 and 360, the benefits 720,
    960 and 1080; the yearly ROI is 41.18, 166.67 and 200.0 percent and
    the breakeven month is 8, whatever the organisation is. *)
Theorem roi_projection_closed_form (employee_count : Z) (industry company_size : string) :
  0 < employee_count <= 2 ^ 32 ->
  ROIPredictor.predict employee_count industry company_size = Ok
    {| ROIPredictor.predicted_roi := decimal false (exact_roi_hundredths industry company_size);
       ROIPredictor.year1 :=
         {| ROIPredictor.costs := 510 * employee_count;
            ROIPredictor.benefits := decimal false (72000 * employee_count);
            ROIPredictor.roi := 41.18 |};
       ROIPredictor.year2 :=
         {| ROIPredictor.costs := 360 * employee_count;
            ROIPredictor.benefits := decimal false (96000 * employee_count);
            ROIPredictor.roi := 166.67 |};
       ROIPredictor.year3 :=
         {| ROIPredictor.costs := 360 * employee_count;
            ROIPredictor.benefits := decimal false (108000 * employee_count);
            ROIPredictor.roi := 200 |};
       ROIPredictor.breakeven_month := 8;
       ROIPredictor.confidence_score := 0.85 |}.
Proof.
  intros [Hn0 Hn32].
  assert (Hn1 : employee_count * 1200 < 2 ^ 1023).
  { apply Z.le_lt_trans with (2 ^ 32 * 1200); [lia|]. reflexivity. }
  destruct (breakeven_positive employee_count Hn0 Hn1)
    as (g & mc & c & C & Hg & Hmc & Hlt & Hc & FC & Hdiv & Hint).
  destruct (float_of_int_near (employee_count * 1200)) as (g' & G & Hg' & FG & NG); [lia|lia|].
  rewrite Hg in Hg'. injection Hg' as <-.
  replace (employee_count * 1200 <? 0) with false in FG by (symmetry; apply Z.ltb_ge; lia).
  rewrite Z.abs_eq, mult_IZR in NG by lia.
  unfold ROIPredictor.predict.
  rewrite Hg. cbn [bind]. rewrite Hmc. cbn [bind]. rewrite Hlt, Hc. cbn [bind].
  rewrite Hdiv. cbn [bind]. rewrite Hint. cbn [bind].
  unfold ROIPredictor.year_projection.
  rewrite (year1_roi _ _ _ Hn0 Hn1 FG NG). cbn [bind].
  rewrite (year2_roi _ _ _ Hn0 Hn1 FG NG). cbn [bind].
  rewrite (year3_roi _ _ _ Hn0 Hn1 FG NG). cbn [bind].
  rewrite (year1_benefits _ _ _ Hn0 Hn32 FG NG), (year2_benefits _ _ _ Hn0 Hn32 FG NG),
    (year3_benefits _ _ _ Hn0 Hn32 FG NG).
  rewrite predicted_roi_exact.
  replace (employee_count * 360 + employee_count * 150) with (510 * employee_count) by lia.
  replace (employee_count * 360) with (360 * employee_count) by lia.
  reflexivity.
Qed.

Lemma roi_projection_closed_form_witness :
  0 < 100 <= 2 ^ 32 /\
  ROIPredictor.predict 100 "technology" "large" = Ok roi_100_technology_large.
Proof.
  assert (H : 0 < 100 <= 2 ^ 32) by (split; [reflexivity | discriminate]).
  split; [exact H|].
  exact (roi_projection_closed_form 100 "technology" "large" H).
Defined.

(** ** The confidence band *)

Lemma round_half_even_near a b :
  0 < b -> 2 * a - b <= 2 * (round_half_even a b * b) <= 2 * a + b.
Proof.
  intros Hb. unfold round_half_even.
  pose proof (Z.div_mod a b ltac:(lia)) as Hdiv.
  pose proof (Z.mod_pos_bound a b Hb) as Hr.
  remember (a / b) as q eqn:Hq. remember (a mod b) as r eqn:Hrr.
  destruct (Z.compare_spec (2 * r) b) as [He|Hl|Hg]; [destruct (Z.even q)| |]; nia.
Qed.

(** [round(x, 2)] is the decimal nearest to [x]. *)
Lemma round2_spec x s a :
  is_float (Prim2SF x) s a ->
  exists h, round2 x = decimal s h /\ (IZR h - / 2 <= a * 100 <= IZR h + / 2)%R.
Proof.
  intros (m & e & Hx & Hd & He & ->). unfold round2. rewrite Hx.
  eexists. split; [reflexivity|].
  destruct (Z.leb_spec 0 e) as [Hle|Hlt].
  - assert (HF : (F2R (Zpos m) e * 100 = IZR (Zpos m * 2 ^ e * 100))%R).
    { unfold F2R. rewrite !mult_IZR, bpow_IZR by lia. reflexivity. }
    rewrite HF. lra.
  - pose proof (round_half_even_near (Zpos m * 100) (2 ^ (- e)) ltac:(apply Z.pow_pos_nonneg; lia))
      as [H1 H2].
    remember (round_half_even (Zpos m * 100) (2 ^ (- e))) as h eqn:Hh.
    assert (Hk : (0 < IZR (2 ^ (- e)))%R) by (apply IZR_lt, Z.pow_pos_nonneg; lia).
    assert (HF : (F2R (Zpos m) e = IZR (Zpos m) / IZR (2 ^ (- e)))%R).
    { unfold F2R. replace e with (- (- e)) at 1 by lia. rewrite bpow_neg by lia. reflexivity. }
    rewrite HF.
    apply IZR_le in H1, H2.
    rewrite minus_IZR, !mult_IZR in H1. rewrite plus_IZR, !mult_IZR in H2.
    remember (IZR (2 ^ (- e))) as K eqn:HK.
    remember (IZR (Zpos m) / K * 100)%R as X eqn:HX.
    assert (Ha : (X * K = IZR (Zpos m) * 100)%R) by (subst X; field; lra).
    split.
    + apply Rmult_le_reg_r with K; [assumption|]. lra.
    + apply Rmult_le_reg_r with K; [assumption|]. lra.
Qed.

(** [rint] of a normal number between 1 and [2 ^ 52] is the binary64
    number of an integer at most one half away. *)
Lemma rint_near y Y :
  is_float (Prim2SF y) false Y -> (1 <= Y <= 4503599627370496)%R ->
  exists n A, is_float (Prim2SF (rint y)) false A /\ near A (IZR n) /\
              (IZR n - / 2 <= Y <= IZR n + / 2)%R.
Proof.
  intros (m & e & Hy & Hd & He & ->) [HY0 HY1].
  assert (Hm : 2 ^ 52 <= Zpos m < 2 ^ 53)
    by (pose proof (digits2_bounds m) as Hb; rewrite Hd in Hb; exact Hb).
  unfold rint. rewrite Hy.
  destruct (Z.leb_spec 0 e) as [Hle|Hlt].
  - (* an integer already *)
    exists (Zpos m * 2 ^ e), (F2R (Zpos m) e).
    assert (HF : (F2R (Zpos m) e = IZR (Zpos m * 2 ^ e))%R).
    { unfold F2R. rewrite mult_IZR, bpow_IZR by lia. reflexivity. }
    split; [exists m, e; repeat split; assumption || lia|].
    rewrite <- HF. split; [|lra].
    unfold near. rewrite u_eq. pose proof (F2R_pos m e). lra.
  - pose proof (round_half_even_near (Zpos m) (2 ^ (- e)) ltac:(apply Z.pow_pos_nonneg; lia))
      as [H1 H2].
    remember (round_half_even (Zpos m) (2 ^ (- e))) as n eqn:Hn.
    assert (Hk : (0 < IZR (2 ^ (- e)))%R) by (apply IZR_lt, Z.pow_pos_nonneg; lia).
    assert (HF : (F2R (Zpos m) e = IZR (Zpos m) / IZR (2 ^ (- e)))%R).
    { unfold F2R. replace e with (- (- e)) at 1 by lia. rewrite bpow_neg by lia. reflexivity. }
    rewrite HF in *.
    apply IZR_le in H1, H2.
    rewrite minus_IZR, !mult_IZR in H1. rewrite plus_IZR, !mult_IZR in H2.
    remember (IZR (2 ^ (- e))) as K eqn:HK.
    remember (IZR (Zpos m) / K)%R as X eqn:HX.
    assert (Ha : (X * K = IZR (Zpos m))%R) by (subst X; field; lra).
    assert (Hn1 : (IZR n - / 2 <= X)%R) by (apply Rmult_le_reg_r with K; [assumption|]; lra).
    assert (Hn2 : (X <= IZR n + / 2)%R) by (apply Rmult_le_reg_r with K; [assumption|]; lra).
    assert (Hnpos : 0 < n) by (apply lt_IZR; lra).
    destruct n as [|p|p]; try lia.
    destruct (binary_round_normal false p 0) as (A & FA & NA).
    + unfold F2R. rewrite bpow_0.
      assert (1 <= IZR (Zpos p))%R by (apply IZR_le; lia).
      pose proof (bpow_small (-1021) ltac:(lia)). lra.
    + unfold F2R. rewrite bpow_0.
      assert (IZR (2 ^ 53) <= bpow 1023)%R
        by (rewrite <- bpow_IZR by lia; apply bpow_le; lia).
      change (IZR (2 ^ 53)) with 9007199254740992%R in H. lra.
    + exists (Zpos p), A.
      rewrite Prim2SF_SF2Prim by (apply (is_float_valid _ _ _ FA)).
      split; [exact FA|]. split; [|lra].
      unfold F2R in NA. rewrite bpow_0, Rmult_1_r in NA. exact NA.
Qed.

(** [numpy.round(x, 2)] of a number between 10 and 95 is less than
    0.0051 away from it. *)
Lemma numpy_round2_near x X :
  is_float (Prim2SF x) false X -> (9.99 <= X <= 95.01)%R ->
  exists RT, is_float (Prim2SF (numpy_round2 x)) false RT /\
             (X - 0.0051 <= RT <= X + 0.0051)%R.
Proof.
  intros FX HX. unfold numpy_round2.
  pose proof (bpow_small (-1021) ltac:(lia)) as HL1.
  pose proof (bpow_small (-1020) ltac:(lia)) as HL0.
  assert (HT : (IZR (2 ^ 50) <= bpow 1023)%R)
    by (rewrite <- bpow_IZR by lia; apply bpow_le; lia).
  change (IZR (2 ^ 50)) with 1125899906842624%R in HT.
  remember (bpow 1023) as T eqn:ET.
  destruct (mul_near x 100 _ _ _ _ FX is_float_100) as (Y & FY & NY); [lra | lra |].
  unfold near in NY; rewrite u_eq in NY; cbn [xorb] in FY.
  destruct (rint_near _ _ FY) as (n & A & FA & NA & Hn); [lra|].
  unfold near in NA; rewrite u_eq in NA.
  destruct (div_near (rint (x * 100)) 100 _ _ _ _ FA is_float_100) as (RT & FRT & NRT);
    [lra | lra |].
  unfold near in NRT; rewrite u_eq in NRT; cbn [xorb] in FRT.
  exists RT. split; [exact FRT | lra].
Qed.

Lemma is_float_0_1 :
  is_float (Prim2SF 0.1) false (7205759403792794 / 72057594037927936)%R.
Proof.
  exists 7205759403792794%positive, (-56). repeat split; try reflexivity; try lia.
  rewrite F2R_neg. reflexivity.
Qed.

Lemma is_float_0_95 :
  is_float (Prim2SF 0.95) false (8556839292003942 / 9007199254740992)%R.
Proof.
  exists 8556839292003942%positive, (-53). repeat split; try reflexivity; try lia.
  rewrite F2R_neg. reflexivity.
Qed.

Lemma is_float_0_05 :
  is_float (Prim2SF 0.05) false (7205759403792794 / 144115188075855872)%R.
Proof.
  exists 7205759403792794%positive, (-57). repeat split; try reflexivity; try lia.
  rewrite F2R_neg. reflexivity.
Qed.

(** A number strictly between the two caps is a normal number. *)
Lemma between_caps r :
  (0.1 <? r)%float = true -> (r <? 0.95)%float = true ->
  exists R, is_float (Prim2SF r) false R /\ (0.1 <= R <= 0.95)%R.
Proof.
  intros H1 H2.
  assert (Hf : exists R, is_float (Prim2SF r) false R).
  { rewrite ltb_spec in H1, H2.
    pose proof (Prim2SF_valid r) as Hv.
    change (Prim2SF 0.1) with (S754_finite false 7205759403792794 (-56)) in H1.
    change (Prim2SF 0.95) with (S754_finite false 8556839292003942 (-53)) in H2.
    destruct (Prim2SF r) as [s|s| |s m e]; try discriminate.
    { destruct s; discriminate. }
    destruct s; [discriminate|].
    apply SFltb_finite_pos in H1, H2.
    unfold SpecFloat.valid_binary, SpecFloat.bounded, SpecFloat.canonical_mantissa in Hv.
    apply andb_prop in Hv. destruct Hv as [Hc _]. apply Z.eqb_eq in Hc.
    unfold fexp, SpecFloat.emin, prec, emax in Hc.
    exists (F2R (Zpos m) e), m, e. repeat split; lia. }
  destruct Hf as (R & HR). exists R. split; [exact HR|].
  apply (ltb_pos _ _ _ _ is_float_0_1 HR) in H1.
  apply (ltb_pos _ _ _ _ HR is_float_0_95) in H2. lra.
Qed.

Lemma ltb_0_pos f a : is_float (Prim2SF f) false a -> (0 <? f)%float = true.
Proof.
  intros (m & e & Hf & _). rewrite ltb_spec, Hf. reflexivity.
Qed.

(** The band of one period: inside [0, 100] and around the rate,
    whichever routine rounds the rate. *)
Lemma band_around_rate kind x :
  let kept := (0.1 <? x)%float && (x <? 0.95)%float in
  let r := Py.min 0.95 (Py.max 0.1 x) in
  let rate :=
    AdoptionPredictor.round_2 (if kept then kind else AdoptionPredictor.python_float)
      (r * 100)%float in
  let lower := Py.max 0 ((r - 0.05) * 100)%float in
  let upper := Py.min 100 ((r + 0.05) * 100)%float in
  (0 <? lower)%float = true /\ (lower <=? rate)%float = true /\
  (rate <=? upper)%float = true /\ (upper <=? 100)%float = true.
Proof.
  intros kept r.
  assert (Hr : (kept = false /\ (r = 0.95%float \/ r = 0.1%float)) \/
               (kept = true /\ r = x /\ (0.1 <? x)%float = true /\ (x <? 0.95)%float = true)).
  { unfold kept, r, Py.min, Py.max.
    destruct (0.1 <? x)%float eqn:H1; [destruct (x <? 0.95)%float eqn:H2|]; cbn [andb]; auto. }
  clearbody kept r.
  destruct Hr as [(-> & [-> | ->]) | (-> & -> & H1 & H2)];
    [vm_compute; repeat split; reflexivity | vm_compute; repeat split; reflexivity |].
  cbv zeta.
  destruct (between_caps x H1 H2) as (R & FR & HR).
  pose proof (bpow_small (-1021) ltac:(lia)) as HL1.
  assert (HT : (IZR (2 ^ 50) <= bpow 1023)%R)
    by (rewrite <- bpow_IZR by lia; apply bpow_le; lia).
  change (IZR (2 ^ 50)) with 1125899906842624%R in HT.
  remember (bpow 1023) as T eqn:ET.
  (* the rate *)
  destruct (mul_near x 100 _ _ _ _ FR is_float_100) as (X & FX & NX); [lra | lra |].
  unfold near in NX; rewrite u_eq in NX; cbn [xorb] in FX.
  assert (Hrate : exists RT, is_float (Prim2SF (AdoptionPredictor.round_2 kind (x * 100)%float))
                               false RT /\ (X - 0.0051 <= RT <= X + 0.0051)%R).
  { destruct kind; cbn [AdoptionPredictor.round_2].
    - destruct (round2_spec _ _ _ FX) as (h & Hh & Hh1).
      assert (Hhpos : 0 < h) by (apply lt_IZR; lra).
      assert (Hhup : h < 2 ^ 1000).
      { apply Z.lt_le_trans with (2 ^ 14); [change (2 ^ 14) with 16384; apply lt_IZR; lra|].
        apply Z.pow_le_mono_r; lia. }
      destruct (decimal_near false h Hhpos Hhup) as (RT & FRT & NRT).
      unfold near in NRT; rewrite u_eq in NRT. rewrite <- Hh in FRT.
      exists RT. split; [exact FRT | lra].
    - subst T. apply numpy_round2_near; [exact FX | lra]. }
  destruct Hrate as (RT & FRT & NRT).
  (* the lower bound *)
  destruct (sub_near x 0.05 _ _ FR is_float_0_05) as (D & FD & ND); [lra | lra |].
  unfold near in ND; rewrite u_eq in ND.
  destruct (mul_near (x - 0.05) 100 _ _ _ _ FD is_float_100) as (L & FL & NL); [lra | lra |].
  unfold near in NL; rewrite u_eq in NL; cbn [xorb] in FL.
  (* the upper bound *)
  destruct (add_near x 0.05 _ _ FR is_float_0_05) as (S & FS & NS); [lra|].
  unfold near in NS; rewrite u_eq in NS.
  destruct (mul_near (x + 0.05) 100 _ _ _ _ FS is_float_100) as (U & FU & NU); [lra | lra |].
  unfold near in NU; rewrite u_eq in NU; cbn [xorb] in FU.
  unfold Py.max. rewrite (ltb_0_pos _ _ FL).
  split; [exact (ltb_0_pos _ _ FL)|]. split.
  { apply (leb_pos _ _ _ _ FL FRT). lra. }
  unfold Py.min. destruct (((x + 0.05) * 100 <? 100)%float) eqn:Hu.
  - split.
    + apply (leb_pos _ _ _ _ FRT FU). lra.
    + apply (ltb_pos _ _ _ _ FU is_float_100) in Hu.
      apply (leb_pos _ _ _ _ FU is_float_100). lra.
  - split; [|reflexivity].
    apply (leb_pos _ _ _ _ FRT is_float_100). lra.
Qed.

(** ** The forecast and the calendar *)

(** What a period that does not fail has computed. *)
Lemma forecast_step_inv now kind base_rate growth_rate i p c :
  AdoptionPredictor.forecast_step now kind base_rate growth_rate i = Ok (p, c) ->
  exists fi,
    float_of_int i = Ok fi /\
    Z.abs (30 * i) <= 999999999 /\
    0 <= now + 30 * i * Datetime.us_per_day <= Datetime.max /\
    let x := (base_rate + growth_rate * fi)%float in
    let kept := (0.1 <? x)%float && (x <? 0.95)%float in
    let r := Py.min 0.95 (Py.max 0.1 x) in
    p = {| AdoptionPredictor.period := i;
           AdoptionPredictor.adoption_rate :=
             AdoptionPredictor.round_2
               (if kept then kind else AdoptionPredictor.python_float) (r * 100)%float;
           AdoptionPredictor.timestamp := now + 30 * i * Datetime.us_per_day |} /\
    c = {| AdoptionPredictor.ci_period := i;
           AdoptionPredictor.lower_bound := Py.max 0 ((r - 0.05) * 100)%float;
           AdoptionPredictor.upper_bound := Py.min 100 ((r + 0.05) * 100)%float |}.
Proof.
  unfold AdoptionPredictor.forecast_step, Datetime.timedelta_days, Datetime.add.
  destruct (float_of_int i) as [fi|e]; cbn [bind]; [|discriminate].
  destruct (Z.leb_spec (Z.abs (30 * i)) 999999999) as [Hd|Hd]; cbn [bind]; [|discriminate].
  destruct (Z.leb_spec 0 (now + 30 * i * Datetime.us_per_day)) as [H0|H0]; cbn [andb bind];
    [|discriminate].
  destruct (Z.leb_spec (now + 30 * i * Datetime.us_per_day) Datetime.max) as [H1|H1]; cbn [bind];
    [|discriminate].
  intros [= <- <-]. exists fi. repeat split; assumption.
Qed.

(** X1: Every confidence band lies inside (0, 100] and contains the rate
    forecast for its period, whether the rate is rounded by Python (a
    default or a clamped rate) or by NumPy (a rate computed from the
    data frame). *)
Theorem confidence_band_brackets_rate
    (clock : Z -> Z) (historical_data : list AdoptionPredictor.HistoricalPoint)
    (forecast_periods : Z)
    (predictions : list AdoptionPredictor.ForecastPoint)
    (confidence_intervals : list AdoptionPredictor.ConfidenceBand) :
  AdoptionPredictor.predict clock historical_data forecast_periods
    = Ok (predictions, confidence_intervals) ->
  Forall2 (fun p c =>
             AdoptionPredictor.ci_period c = AdoptionPredictor.period p /\
             (0 <? AdoptionPredictor.lower_bound c)%float = true /\
             (AdoptionPredictor.lower_bound c <=? AdoptionPredictor.adoption_rate p)%float = true /\
             (AdoptionPredictor.adoption_rate p <=? AdoptionPredictor.upper_bound c)%float = true /\
             (AdoptionPredictor.upper_bound c <=? 100)%float = true)
          predictions confidence_intervals.
Proof.
  unfold AdoptionPredictor.predict.
  destruct (AdoptionPredictor.trend historical_data) as [[[kind base_rate] growth_rate]|e];
    cbn [bind]; [|discriminate].
  intros H. invert_binds H. injection H as <- <-.
  apply mapM_Ok_inv in E. revert E.
  generalize (range 1 (forecast_periods + 1)). intros l E.
  induction E as [|i [p c] l steps Hs _ IH]; cbn [map fst snd]; constructor; [|exact IH].
  apply forecast_step_inv in Hs. destruct Hs as (fi & _ & _ & _ & -> & ->).
  cbn [AdoptionPredictor.ci_period AdoptionPredictor.period AdoptionPredictor.lower_bound
       AdoptionPredictor.upper_bound AdoptionPredictor.adoption_rate].
  split; [reflexivity|]. apply band_around_rate.
Qed.

Lemma confidence_band_brackets_rate_witness :
  exists predictions confidence_intervals,
    AdoptionPredictor.predict clock_2026 history_50_70 2 = Ok (predictions, confidence_intervals) /\
    Forall2 (fun p c =>
               AdoptionPredictor.ci_period c = AdoptionPredictor.period p /\
               (0 <? AdoptionPredictor.lower_bound c)%float = true /\
               (AdoptionPredictor.lower_bound c <=? AdoptionPredictor.adoption_rate p)%float = true /\
               (AdoptionPredictor.adoption_rate p <=? AdoptionPredictor.upper_bound c)%float = true /\
               (AdoptionPredictor.upper_bound c <=? 100)%float = true)
            predictions confidence_intervals.
Proof.
  eexists _, _. split; [vm_compute; reflexivity|].
  apply (confidence_band_brackets_rate clock_2026 history_50_70 2). vm_compute. reflexivity.
Defined.

(** X2: The forecaster fails in two ways only.  With a clock that reads
    valid datetimes it raises [KeyError] exactly when the history has
    two or more records none of which holds an adoption rate; otherwise
    it returns exactly when the timestamp of every period is a valid
    datetime, and raises [OverflowError] exactly when some period leaves
    the calendar. *)
Theorem forecast_outcomes
    (clock : Z -> Z) (historical_data : list AdoptionPredictor.HistoricalPoint)
    (forecast_periods : Z) :
  (forall k, 0 <= k < forecast_periods -> Datetime.valid (clock k)) ->
  ((exists r, AdoptionPredictor.predict clock historical_data forecast_periods = Ok r) <->
   (len historical_data < 2 \/
    existsb AdoptionPredictor.has_adoption_rate historical_data = true) /\
   (forall i, 1 <= i <= forecast_periods ->
      Datetime.valid (clock (i - 1) + 30 * i * Datetime.us_per_day))) /\
  (AdoptionPredictor.predict clock historical_data forecast_periods = Raise KeyError <->
   2 <= len historical_data /\
   existsb AdoptionPredictor.has_adoption_rate historical_data = false) /\
  (AdoptionPredictor.predict clock historical_data forecast_periods = Raise OverflowError <->
   (len historical_data < 2 \/
    existsb AdoptionPredictor.has_adoption_rate historical_data = true) /\
   (exists i, 1 <= i <= forecast_periods /\
      ~ Datetime.valid (clock (i - 1) + 30 * i * Datetime.us_per_day))).
Proof.
  intros Hclock.
  destruct (trend_cases historical_data)
    as [[Hlt Ht] | [(Hge & Hyes & b & g & Ht) | (Hge & Hno & Ht)]].
  3: { (* no column *)
    assert (Hk : AdoptionPredictor.predict clock historical_data forecast_periods = Raise KeyError)
      by (apply predict_KeyError; assumption).
    rewrite Hk. split; [|split]; split.
    - intros [r Hr]. discriminate.
    - intros [[H|H] _]; [lia | congruence].
    - intros _. split; assumption.
    - reflexivity.
    - discriminate.
    - intros [[H|H] _]; [lia | congruence]. }
  all: match type of Ht with
       | AdoptionPredictor.trend _ = Ok (?kind, ?base_rate, ?growth_rate) =>
           assert (Hcol : len historical_data < 2 \/
                          existsb AdoptionPredictor.has_adoption_rate historical_data = true)
             by (first [left; assumption | right; assumption]);
           assert (Hok : (forall i, 1 <= i <= forecast_periods ->
                            Datetime.valid (clock (i - 1) + 30 * i * Datetime.us_per_day)) ->
                         exists r, AdoptionPredictor.predict clock historical_data forecast_periods
                                   = Ok r);
           [ intros Hall; unfold AdoptionPredictor.predict; rewrite Ht; cbn [bind];
             destruct (mapM_Forall2
                         (fun i => AdoptionPredictor.forecast_step (clock (i - 1)) kind base_rate
                                     growth_rate i)
                         (fun _ _ => True) (range 1 (forecast_periods + 1))) as (steps & Hsteps & _);
             [ intros i Hi; apply In_range in Hi;
               destruct (forecast_step_Ok (clock (i - 1)) kind base_rate growth_rate i)
                 as (p & c & Hs & _);
               [lia | apply Hclock; lia | apply Hall; lia |];
               exists (p, c); split; [exact Hs | exact I]
             | rewrite Hsteps; cbn [bind]; eexists; reflexivity ]
           | ];
           assert (Hbad : forall i, 1 <= i <= forecast_periods ->
                            ~ Datetime.valid (clock (i - 1) + 30 * i * Datetime.us_per_day) ->
                            AdoptionPredictor.predict clock historical_data forecast_periods
                              = Raise OverflowError);
           [ intros i Hi Hnv;
             destruct (AdoptionPredictor.forecast_step (clock (i - 1)) kind base_rate growth_rate i)
               as [[p c]|e] eqn:Hs;
             [ exfalso; apply Hnv; apply forecast_step_inv in Hs;
               destruct Hs as (_ & _ & _ & Hv & _); exact Hv
             | apply (predict_raises clock historical_data forecast_periods _ _ _ i e Ht Hi Hs) ]
           | ];
           assert (Hexn : forall e, AdoptionPredictor.predict clock historical_data forecast_periods
                                    = Raise e ->
                          e = OverflowError /\
                          exists i, 1 <= i <= forecast_periods /\
                            ~ Datetime.valid (clock (i - 1) + 30 * i * Datetime.us_per_day));
           [ intros e Hr; unfold AdoptionPredictor.predict in Hr; rewrite Ht in Hr;
             cbn [bind] in Hr;
             destruct (mapM _ _) as [steps|e'] eqn:Hm in Hr; cbn [bind] in Hr; [discriminate|];
             injection Hr as <-;
             apply mapM_Raise_inv in Hm; destruct Hm as (i & Hi & Hs);
             apply In_range in Hi;
             split; [apply (forecast_step_exn _ _ _ _ _ _ Hs)|];
             exists i; split; [lia|]; intros Hv;
             destruct (forecast_step_Ok (clock (i - 1)) kind base_rate growth_rate i)
               as (p & c & Hs' & _);
             [lia | apply Hclock; lia | exact Hv |];
             rewrite Hs' in Hs; discriminate
           | ]
       end.
  all: split; [|split]; split.
  all: try (intros [[ps cs] H]; split; [exact Hcol|]; intros i Hi;
            unfold Datetime.valid;
            destruct (Z_le_gt_dec 0 (clock (i - 1) + 30 * i * Datetime.us_per_day)) as [H0|H0];
            [destruct (Z_le_gt_dec (clock (i - 1) + 30 * i * Datetime.us_per_day) Datetime.max)
               as [H1|H1]|];
            [split; assumption | |];
            rewrite (Hbad i Hi) in H; try discriminate; unfold Datetime.valid; lia).
  all: try (intros [_ Hall]; exact (Hok Hall)).
  all: try (intros Hk; apply Hexn in Hk; destruct Hk as [Hk _]; discriminate).
  all: try (intros [H1 H2]; first [lia | congruence]).
  all: try (intros Hr; split; [exact Hcol|]; apply Hexn in Hr; destruct Hr as [_ Hr]; exact Hr).
  all: try (intros [_ (i & Hi & Hnv)]; exact (Hbad i Hi Hnv)).
Qed.

Lemma forecast_outcomes_witness :
  (forall k, 0 <= k < 2 -> Datetime.valid (clock_2026 k)) /\
  ((exists r, AdoptionPredictor.predict clock_2026 history_50_70 2 = Ok r) <->
   (len history_50_70 < 2 \/
    existsb AdoptionPredictor.has_adoption_rate history_50_70 = true) /\
   (forall i, 1 <= i <= 2 ->
      Datetime.valid (clock_2026 (i - 1) + 30 * i * Datetime.us_per_day))) /\
  (AdoptionPredictor.predict clock_2026 history_50_70 2 = Raise KeyError <->
   2 <= len history_50_70 /\
   existsb AdoptionPredictor.has_adoption_rate history_50_70 = false) /\
  (AdoptionPredictor.predict clock_2026 history_50_70 2 = Raise OverflowError <->
   (len history_50_70 < 2 \/
    existsb AdoptionPredictor.has_adoption_rate history_50_70 = true) /\
   (exists i, 1 <= i <= 2 /\
      ~ Datetime.valid (clock_2026 (i - 1) + 30 * i * Datetime.us_per_day))).
Proof.
  assert (H : forall k, 0 <= k < 2 -> Datetime.valid (clock_2026 k)).
  { intros k Hk. unfold Datetime.valid, Datetime.max, clock_2026, Datetime.us_per_day. lia. }
  split; [exact H|].
  exact (forecast_outcomes clock_2026 history_50_70 2 H).
Defined.

(** ** Missing values *)

Lemma is_nan_Prim2SF x : is_nan x = true -> Prim2SF x = S754_nan.
Proof.
  unfold is_nan. rewrite eqb_spec. unfold SFeqb, SFcompare.
  destruct (Prim2SF x) as [s|s| |s m e]; try reflexivity; try (destruct s; discriminate).
  rewrite Z.compare_refl, Pos.compare_cont_refl. destruct s; discriminate.
Qed.

Lemma nan_div x y : Prim2SF x = S754_nan -> Prim2SF (x / y) = S754_nan.
Proof. intros H. rewrite div_spec, H. reflexivity. Qed.

Lemma nan_sub_l x y : Prim2SF x = S754_nan -> Prim2SF (x - y) = S754_nan.
Proof. intros H. rewrite sub_spec, H. reflexivity. Qed.

Lemma nan_sub_r x y : Prim2SF y = S754_nan -> Prim2SF (x - y) = S754_nan.
Proof.
  intros H. rewrite sub_spec, H. unfold SF64sub, SFsub.
  destruct (Prim2SF x); reflexivity.
Qed.

Lemma nan_mul_l x y : Prim2SF x = S754_nan -> Prim2SF (x * y) = S754_nan.
Proof. intros H. rewrite mul_spec, H. reflexivity. Qed.

Lemma nan_add_l x y : Prim2SF x = S754_nan -> Prim2SF (x + y) = S754_nan.
Proof. intros H. rewrite add_spec, H. reflexivity. Qed.

Lemma nan_add_r x y : Prim2SF y = S754_nan -> Prim2SF (x + y) = S754_nan.
Proof.
  intros H. rewrite add_spec, H. unfold SF64add, SFadd.
  destruct (Prim2SF x); reflexivity.
Qed.

Lemma max_nan a x : Prim2SF x = S754_nan -> Py.max a x = a.
Proof.
  intros H. unfold Py.max. rewrite ltb_spec, H. unfold SFltb, SFcompare.
  destruct (Prim2SF a) as [s|s| |s m e]; try reflexivity; destruct s; reflexivity.
Qed.

Lemma ltb_nan a x : Prim2SF x = S754_nan -> (a <? x)%float = false.
Proof.
  intros H. rewrite ltb_spec, H. unfold SFltb, SFcompare.
  destruct (Prim2SF a) as [s|s| |s m e]; try reflexivity; destruct s; reflexivity.
Qed.

Lemma last_default {A : Type} (l : list A) (b d1 d2 : A) :
  List.last (b :: l) d1 = List.last (b :: l) d2.
Proof.
  revert b. induction l as [|c l IH]; intros b; [reflexivity|].
  change (List.last (b :: c :: l) d1) with (List.last (c :: l) d1).
  change (List.last (b :: c :: l) d2) with (List.last (c :: l) d2).
  apply IH.
Qed.

Lemma last_map {A B : Type} (f : A -> B) (l : list A) (a : A) (d : B) :
  List.last (map f (a :: l)) d = f (List.last (a :: l) a).
Proof.
  revert a. induction l as [|b l IH]; intros a; [reflexivity|].
  change (map f (a :: b :: l)) with (f a :: map f (b :: l)).
  change (List.last (f a :: map f (b :: l)) d) with (List.last (map f (b :: l)) d).
  rewrite IH. f_equal.
  change (List.last (a :: b :: l) a) with (List.last (b :: l) a).
  apply last_default.
Qed.

(** The trend of a history of two or more records. *)
Lemma trend_two first second rest :
  let historical_data := first :: second :: rest in
  let last := AdoptionPredictor.hist_adoption_rate (List.last historical_data first) in
  AdoptionPredictor.trend historical_data =
    if existsb AdoptionPredictor.has_adoption_rate historical_data
    then Ok (AdoptionPredictor.numpy_float64,
             (last / 100)%float,
             ((last - AdoptionPredictor.hist_adoption_rate first)
              / float_of_ssize (len historical_data) / 100)%float)
    else Raise KeyError.
Proof.
  intros historical_data last. subst historical_data last. unfold AdoptionPredictor.trend.
  replace (len (first :: second :: rest) <? 2) with false.
  2: { symmetry. apply Z.ltb_ge. unfold len. cbn [List.length]. lia. }
  unfold AdoptionPredictor.column.
  destruct (existsb AdoptionPredictor.has_adoption_rate (first :: second :: rest));
    [|reflexivity].
  unfold bind. cbv beta iota zeta.
  rewrite (last_map AdoptionPredictor.hist_adoption_rate (second :: rest) first nan).
  reflexivity.
Qed.

(** X3: A history whose first or last rate is missing (NaN, as the data
    frame fills a record without the key) forecasts the floor: every
    rate is 10.0 and every band is [5.0, 15.000000000000002]. *)
Theorem forecast_of_missing_rate
    (clock : Z -> Z) (first second : AdoptionPredictor.HistoricalPoint)
    (rest : list AdoptionPredictor.HistoricalPoint) (forecast_periods : Z)
    (predictions : list AdoptionPredictor.ForecastPoint)
    (confidence_intervals : list AdoptionPredictor.ConfidenceBand) :
  let historical_data := first :: second :: rest in
  is_nan (AdoptionPredictor.hist_adoption_rate first) = true \/
  is_nan (AdoptionPredictor.hist_adoption_rate (List.last historical_data first)) = true ->
  AdoptionPredictor.predict clock historical_data forecast_periods
    = Ok (predictions, confidence_intervals) ->
  Forall (fun p => AdoptionPredictor.adoption_rate p = 10%float) predictions /\
  Forall (fun c => AdoptionPredictor.lower_bound c = 5%float /\
                   AdoptionPredictor.upper_bound c = 15.000000000000002%float)
         confidence_intervals.
Proof.
  intros historical_data Hnan. subst historical_data. unfold AdoptionPredictor.predict.
  destruct (AdoptionPredictor.trend (first :: second :: rest))
    as [[[kind base_rate] growth_rate]|e] eqn:Ht; cbn [bind]; [|discriminate].
  assert (Hsum : forall fi, Prim2SF (base_rate + growth_rate * fi) = S754_nan).
  { rewrite trend_two in Ht.
    destruct (existsb AdoptionPredictor.has_adoption_rate (first :: second :: rest));
      [|discriminate].
    injection Ht as <- <- <-.
    intros fi. destruct Hnan as [H|H]; apply is_nan_Prim2SF in H.
    - apply nan_add_r, nan_mul_l, nan_div, nan_div, nan_sub_r. exact H.
    - apply nan_add_l, nan_div. exact H. }
  intros H. invert_binds H. injection H as <- <-.
  apply mapM_Ok_inv in E. revert E.
  generalize (range 1 (forecast_periods + 1)). intros l E.
  induction E as [|i [p c] l steps Hs _ [IH1 IH2]]; cbn [map fst snd];
    [split; constructor|].
  apply forecast_step_inv in Hs. destruct Hs as (fi & _ & _ & _ & -> & ->).
  rewrite (max_nan _ _ (Hsum fi)), (ltb_nan _ _ (Hsum fi)).
  split; constructor; try assumption.
  - vm_compute. reflexivity.
  - vm_compute. split; reflexivity.
Qed.

Lemma forecast_of_missing_rate_witness :
  (is_nan (AdoptionPredictor.hist_adoption_rate {| AdoptionPredictor.adoption_rate_item := None |})
   = true \/
   is_nan (AdoptionPredictor.hist_adoption_rate
             (List.last [ {| AdoptionPredictor.adoption_rate_item := None |};
                          {| AdoptionPredictor.adoption_rate_item := Some 40%float |} ]
                        {| AdoptionPredictor.adoption_rate_item := None |})) = true) /\
  exists predictions confidence_intervals,
    AdoptionPredictor.predict clock_2026
      [ {| AdoptionPredictor.adoption_rate_item := None |};
        {| AdoptionPredictor.adoption_rate_item := Some 40%float |} ] 2
      = Ok (predictions, confidence_intervals) /\
    Forall (fun p => AdoptionPredictor.adoption_rate p = 10%float) predictions /\
    Forall (fun c => AdoptionPredictor.lower_bound c = 5%float /\
                     AdoptionPredictor.upper_bound c = 15.000000000000002%float)
           confidence_intervals.
Proof.
  assert (H : is_nan (AdoptionPredictor.hist_adoption_rate
                        {| AdoptionPredictor.adoption_rate_item := None |}) = true \/
              is_nan (AdoptionPredictor.hist_adoption_rate
                        (List.last [ {| AdoptionPredictor.adoption_rate_item := None |};
                                     {| AdoptionPredictor.adoption_rate_item := Some 40%float |} ]
                                   {| AdoptionPredictor.adoption_rate_item := None |})) = true)
    by (left; reflexivity).
  split; [exact H|].
  eexists _, _. split; [vm_compute; reflexivity|].
  apply (forecast_of_missing_rate clock_2026
           {| AdoptionPredictor.adoption_rate_item := None |}
           {| AdoptionPredictor.adoption_rate_item := Some 40%float |} [] 2 _ _ H).
  vm_compute. reflexivity.
Defined.

(** ** Without a history *)

Lemma is_float_0_65 :
  is_float (Prim2SF 0.65) false (5854679515581645 / 9007199254740992)%R.
Proof.
  exists 5854679515581645%positive, (-53). repeat split; try reflexivity; try lia.
  rewrite F2R_neg. reflexivity.
Qed.

(** The clamped default trend at period [i]. *)
Lemma default_trend_rate i fi :
  1 <= i <= 2 ^ 40 -> float_of_int i = Ok fi ->
  round2 (Py.min 0.95 (Py.max 0.1 (0.65 + 0.05 * fi)) * 100)%float
  = if i <=? 5 then decimal false (6500 + 500 * i) else 95%float.
Proof.
  intros Hi Hfi.
  destruct (Z_le_gt_dec i 7) as [Hs|Hl].
  - assert (Hc : i = 1 \/ i = 2 \/ i = 3 \/ i = 4 \/ i = 5 \/ i = 6 \/ i = 7) by lia.
    destruct Hc as [-> | [-> | [-> | [-> | [-> | [-> | ->]]]]]];
      vm_compute in Hfi; injection Hfi as <-; vm_compute; reflexivity.
  - replace (i <=? 5) with false by (symmetry; apply Z.leb_gt; lia).
    destruct (float_of_int_near i) as (fi' & FI & Hfi' & FFI & NFI); [lia | |].
    { rewrite Z.abs_eq by lia. apply Z.le_lt_trans with (2 ^ 40); [lia | reflexivity]. }
    rewrite Hfi in Hfi'. injection Hfi' as <-.
    replace (i <? 0) with false in FFI by (symmetry; apply Z.ltb_ge; lia).
    rewrite Z.abs_eq in NFI by lia.
    assert (HI0 : (8 <= IZR i)%R) by (apply IZR_le; lia).
    assert (HI1 : (IZR i <= 1099511627776)%R) by (apply (IZR_le i (2 ^ 40)); lia).
    pose proof (bpow_small (-1021) ltac:(lia)) as HL1.
    assert (HT : (IZR (2 ^ 50) <= bpow 1023)%R)
      by (rewrite <- bpow_IZR by lia; apply bpow_le; lia).
    change (IZR (2 ^ 50)) with 1125899906842624%R in HT.
    remember (bpow 1023) as T eqn:ET. remember (IZR i) as N eqn:EN.
    unfold near in NFI. rewrite u_eq in NFI.
    destruct (mul_near 0.05 fi _ _ _ _ is_float_0_05 FFI) as (P & FP & NP); [lra | lra |].
    unfold near in NP. rewrite u_eq in NP. cbn [xorb] in FP.
    destruct (add_near 0.65 (0.05 * fi) _ _ is_float_0_65 FP) as (S & FS & NS); [lra|].
    unfold near in NS. rewrite u_eq in NS.
    assert (H1 : (0.1 <? 0.65 + 0.05 * fi)%float = true).
    { apply (ltb_pos _ _ _ _ is_float_0_1 FS). lra. }
    assert (H2 : (0.65 + 0.05 * fi <? 0.95)%float = false).
    { destruct ((0.65 + 0.05 * fi <? 0.95)%float) eqn:H; [|reflexivity].
      apply (ltb_pos _ _ _ _ FS is_float_0_95) in H. lra. }
    unfold Py.max. rewrite H1. unfold Py.min. rewrite H2. vm_compute. reflexivity.
Qed.

(** X4: With fewer than two historical points the industry averages are
    used: the forecast starts at 70.0, grows by five points per period
    and stays at 95.0 from period 6 on. *)
Theorem forecast_without_history
    (clock : Z -> Z) (historical_data : list AdoptionPredictor.HistoricalPoint)
    (forecast_periods : Z)
    (predictions : list AdoptionPredictor.ForecastPoint)
    (confidence_intervals : list AdoptionPredictor.ConfidenceBand) :
  len historical_data < 2 ->
  AdoptionPredictor.predict clock historical_data forecast_periods
    = Ok (predictions, confidence_intervals) ->
  Forall (fun p =>
            AdoptionPredictor.adoption_rate p =
              if AdoptionPredictor.period p <=? 5
              then decimal false (6500 + 500 * AdoptionPredictor.period p)
              else 95%float)
         predictions.
Proof.
  intros Hlen. unfold AdoptionPredictor.predict.
  assert (Ht : AdoptionPredictor.trend historical_data
               = Ok (AdoptionPredictor.python_float, 0.65, 0.05)%float).
  { unfold AdoptionPredictor.trend.
    replace (len historical_data <? 2) with true by (symmetry; apply Z.ltb_lt; exact Hlen).
    reflexivity. }
  rewrite Ht. cbn [bind]. intros H. invert_binds H. injection H as <- <-.
  apply mapM_Ok_inv in E.
  assert (Hr : Forall (fun i => 1 <= i) (range 1 (forecast_periods + 1))).
  { apply Forall_forall. intros i Hi. apply In_range in Hi. lia. }
  revert E Hr. generalize (range 1 (forecast_periods + 1)). intros l E Hr.
  induction E as [|i [p c] l steps Hs _ IH]; cbn [map fst]; constructor.
  - apply Forall_inv in Hr.
    apply forecast_step_inv in Hs. destruct Hs as (fi & Hfi & Hd & _ & -> & _).
    cbn [AdoptionPredictor.adoption_rate AdoptionPredictor.period].
    replace (if (0.1 <? 0.65 + 0.05 * fi)%float && (0.65 + 0.05 * fi <? 0.95)%float
             then AdoptionPredictor.python_float else AdoptionPredictor.python_float)
      with AdoptionPredictor.python_float
      by (destruct ((0.1 <? 0.65 + 0.05 * fi)%float && (0.65 + 0.05 * fi <? 0.95)%float);
          reflexivity).
    cbn [AdoptionPredictor.round_2].
    apply default_trend_rate; [|exact Hfi].
    split; [exact Hr|]. apply Z.le_trans with 999999999; [lia | discriminate].
  - apply IH. apply Forall_inv_tail in Hr. exact Hr.
Qed.

Lemma forecast_without_history_witness :
  len (@nil AdoptionPredictor.HistoricalPoint) < 2 /\
  exists predictions confidence_intervals,
    AdoptionPredictor.predict clock_2026 [] 7 = Ok (predictions, confidence_intervals) /\
    map AdoptionPredictor.adoption_rate predictions = [70; 75; 80; 85; 90; 95; 95]%float /\
    Forall (fun p =>
              AdoptionPredictor.adoption_rate p =
                if AdoptionPredictor.period p <=? 5
                then decimal false (6500 + 500 * AdoptionPredictor.period p)
                else 95%float)
           predictions.
Proof.
  assert (H : len (@nil AdoptionPredictor.HistoricalPoint) < 2) by reflexivity.
  split; [exact H|].
  eexists _, _. split; [vm_compute; reflexivity|]. split; [vm_compute; reflexivity|].
  eapply (forecast_without_history clock_2026 [] 7 _ _ H). vm_compute. reflexivity.
Defined.

(** ** Non-positive employee counts *)

Lemma decimal_normal s h :
  0 < h -> (IZR h / 100 < bpow 1023)%R ->
  exists c, is_float (Prim2SF (decimal s h)) s c /\ near c (IZR h / 100).
Proof.
  intros H0 H1. unfold decimal. destruct h as [|p|p]; try lia. cbn [SF_of_sign_mag].
  assert (HF : F2R (Zpos p) 0 = IZR (Zpos p)) by (unfold F2R; rewrite bpow_0; ring).
  assert (HG : F2R 100 0 = 100%R) by (unfold F2R; rewrite bpow_0; ring).
  destruct (SFdiv_near s false p 0 100 0) as (c & Hc & Hn).
  - rewrite HF, HG. assert (1 <= IZR (Zpos p))%R by (apply IZR_le; lia).
    assert (bpow (-1020) <= / 100)%R.
    { apply Rle_trans with (bpow (-7)); [apply bpow_le; lia|].
      change (-7) with (- (7)). rewrite bpow_neg by lia. change (2 ^ 7) with 128.
      apply Rinv_le_contravar; lra. }
    unfold Rdiv. apply Rle_trans with (1 * / 100)%R; [lra|].
    apply Rmult_le_compat_r; [apply Rlt_le, Rinv_0_lt_compat; lra | assumption].
  - rewrite HF, HG. exact H1.
  - rewrite HF, HG in Hn. exists c. split; [|exact Hn].
    rewrite xorb_false_r in Hc.
    assert (Hv := is_float_valid _ _ _ Hc).
    rewrite Prim2SF_SF2Prim; assumption.
Qed.

Lemma ltb_neg_0 f a : is_float (Prim2SF f) true a -> (f <? 0)%float = true.
Proof.
  intros (m & e & Hf & _). rewrite ltb_spec, Hf. reflexivity.
Qed.

(** Rounding a negative amount of at least one unit to cents leaves it
    negative. *)
Lemma round2_negative x X :
  is_float (Prim2SF x) true X -> (1 <= X)%R -> (X + 1 <= bpow 1023)%R ->
  (round2 x <? 0)%float = true.
Proof.
  intros FX H1 H2.
  destruct (round2_spec _ _ _ FX) as (h & Hh & Hh1).
  assert (Hhpos : 0 < h) by (apply lt_IZR; lra).
  destruct (decimal_normal true h Hhpos) as (c & Fc & _); [lra|].
  rewrite Hh. apply (ltb_neg_0 _ _ Fc).
Qed.

Lemma year_projection_fields year_benefits year_costs y :
  ROIPredictor.year_projection year_benefits year_costs = Ok y ->
  ROIPredictor.costs y = year_costs /\ ROIPredictor.benefits y = round2 year_benefits.
Proof.
  unfold ROIPredictor.year_projection. intros H. invert_binds H. injection H as <-.
  split; reflexivity.
Qed.

(** The projection for a negative count. *)
Lemma predict_negative_projection n industry company_size :
  n < 0 -> - 2 ^ 1023 < n * 1200 ->
  exists r, ROIPredictor.predict n industry company_size = Ok r /\
            ROIPredictor.breakeven_month r = 24 /\
            Forall (fun y => ROIPredictor.costs y < 0 /\
                             (ROIPredictor.benefits y <? 0)%float = true)
                   [ROIPredictor.year1 r; ROIPredictor.year2 r; ROIPredictor.year3 r].
Proof.
  intros Hn0 Hn1.
  destruct (breakeven_negative n Hn0 Hn1) as (g & mc & c & C & Hg & Hmc & Hlt & Hc & FC).
  destruct (float_of_int_near (n * 360)) as (c2 & C2 & Hc2 & FC2 & _); [lia|lia|].
  destruct (year_projection_Ok (g * 0.6) _ _ _ _ Hc FC) as (y1 & Hy1).
  destruct (year_projection_Ok (g * 0.8) _ _ _ _ Hc2 FC2) as (y2 & Hy2).
  destruct (year_projection_Ok (g * 0.9) _ _ _ _ Hc2 FC2) as (y3 & Hy3).
  unfold ROIPredictor.predict.
  rewrite Hg. cbn [bind]. rewrite Hmc. cbn [bind]. rewrite Hlt. cbn [bind].
  rewrite Hy1. cbn [bind]. rewrite Hy2. cbn [bind]. rewrite Hy3. cbn [bind].
  eexists. split; [reflexivity|]. split; [reflexivity|].
  cbn [ROIPredictor.year1 ROIPredictor.year2 ROIPredictor.year3].
  apply year_projection_fields in Hy1, Hy2, Hy3.
  destruct Hy1 as [K1 V1]. destruct Hy2 as [K2 V2]. destruct Hy3 as [K3 V3].
  (* the benefits *)
  assert (HN0 : (1 <= IZR (- n))%R) by (apply IZR_le; lia).
  assert (HN1 : (IZR (- n) * 1200 < bpow 1023)%R).
  { rewrite bpow_IZR by lia. rewrite <- mult_IZR. apply IZR_lt. lia. }
  pose proof (bpow_low_1 (-1021) ltac:(lia)) as HL1.
  assert (HT : (IZR (2 ^ 50) <= bpow 1023)%R)
    by (rewrite <- bpow_IZR by lia; apply bpow_le; lia).
  change (IZR (2 ^ 50)) with 1125899906842624%R in HT.
  remember (bpow 1023) as T eqn:ET. remember (IZR (- n)) as N eqn:EN.
  destruct (float_of_int_near (n * 1200)) as (g' & G & Hg' & FG & NG); [lia|lia|].
  rewrite Hg in Hg'. injection Hg' as <-.
  replace (n * 1200 <? 0) with true in FG by (symmetry; apply Z.ltb_lt; lia).
  replace (Z.abs (n * 1200)) with (- n * 1200) in NG by lia.
  rewrite mult_IZR, <- EN in NG. unfold near in NG. rewrite u_eq in NG.
  destruct (mul_near g 0.6 _ _ _ _ FG is_float_0_6) as (B1 & FB1 & NB1); [lra | lra |].
  destruct (mul_near g 0.8 _ _ _ _ FG is_float_0_8) as (B2 & FB2 & NB2); [lra | lra |].
  destruct (mul_near g 0.9 _ _ _ _ FG is_float_0_9) as (B3 & FB3 & NB3); [lra | lra |].
  unfold near in NB1, NB2, NB3. rewrite u_eq in NB1, NB2, NB3. cbn [xorb] in FB1, FB2, FB3.
  repeat constructor; rewrite ?K1, ?K2, ?K3, ?V1, ?V2, ?V3; try lia.
  - apply (round2_negative _ _ FB1); rewrite <- ?ET; lra.
  - apply (round2_negative _ _ FB2); rewrite <- ?ET; lra.
  - apply (round2_negative _ _ FB3); rewrite <- ?ET; lra.
Qed.

(** C8 (as amended): a non-positive [employee_count] is not validated.
    Zero fails, with the [ZeroDivisionError] of the year-1 ROI; a
    negative count (with [1200 * employee_count] above [-2^1023]) does
    not fail: a projection is returned, whose costs and benefits are
    negative in each of the three years, with the fallback
    [breakeven_month = 24]. *)
Theorem C8_nonpositive_employee_count (employee_count : Z) (industry company_size : string) :
  employee_count <= 0 -> - 2 ^ 1023 < employee_count * 1200 ->
  (employee_count = 0 /\
   ROIPredictor.predict employee_count industry company_size = Raise ZeroDivisionError) \/
  (employee_count < 0 /\
   exists r, ROIPredictor.predict employee_count industry company_size = Ok r /\
             ROIPredictor.breakeven_month r = 24 /\
             Forall (fun y => ROIPredictor.costs y < 0 /\
                              (ROIPredictor.benefits y <? 0)%float = true)
                    [ROIPredictor.year1 r; ROIPredictor.year2 r; ROIPredictor.year3 r]).
Proof.
  intros Hn Hb. destruct (Z.eq_dec employee_count 0) as [->|Hne].
  - left. split; [reflexivity | apply predict_zero].
  - right. split; [lia|]. apply predict_negative_projection; lia.
Qed.

Lemma C8_witness :
  -5 <= 0 /\ - 2 ^ 1023 < -5 * 1200 /\
  ((-5 = 0 /\ ROIPredictor.predict (-5) "retail" "small" = Raise ZeroDivisionError) \/
   (-5 < 0 /\
    exists r, ROIPredictor.predict (-5) "retail" "small" = Ok r /\
              ROIPredictor.breakeven_month r = 24 /\
              Forall (fun y => ROIPredictor.costs y < 0 /\
                               (ROIPredictor.benefits y <? 0)%float = true)
                     [ROIPredictor.year1 r; ROIPredictor.year2 r; ROIPredictor.year3 r])).
Proof.
  split; [lia|]. split; [reflexivity|].
  apply (C8_nonpositive_employee_count (-5) "retail" "small"); [lia | reflexivity].
Defined.

(** C8 (as stated) fails: [employee_count = -1] is accepted and a
    projection is returned, with year-1 costs of -510 and benefits of
    -720.0. *)
Lemma C8_counterexample :
  exists r, ROIPredictor.predict (-1) "technology" "large" = Ok r /\
            ROIPredictor.breakeven_month r = 24 /\
            ROIPredictor.costs (ROIPredictor.year1 r) = -510 /\
            ROIPredictor.benefits (ROIPredictor.year1 r) = (-720)%float.
Proof. eexists. repeat split; vm_compute; reflexivity. Qed.

(** ** The segment sizes and the population *)

(** The size of a share of [k] percent, for up to [2 ^ 32] users: the
    exact floor, or one less when the share is a whole number. *)
Ltac share_by_bounds n Fx k :=
  match goal with
  | Hn : 0 < n <= 2 ^ 32 |- exists z, int_of_float (float_of_ssize n * ?x)%float = Ok z /\ _ =>
      let a := fresh "a" in let Fa := fresh "Fa" in let Na := fresh "Na" in
      destruct (float_of_ssize_normal n) as (a & Fa & Na);
        [unfold sys_maxsize; split; [lia|]; apply Z.le_trans with (2 ^ 32); [lia | discriminate]|];
      unfold near in Na; rewrite u_eq in Na;
      let HN0 := fresh "HN0" in let HN1 := fresh "HN1" in
      assert (HN0 : (1 <= IZR n)%R) by (apply IZR_le; lia);
      assert (HN1 : (IZR n <= 4294967296)%R) by (apply (IZR_le n (2 ^ 32)); lia);
      let HL1 := fresh "HL1" in
      pose proof (bpow_small (-1021) ltac:(lia)) as HL1;
      let HT := fresh "HT" in
      assert (HT : (IZR (2 ^ 50) <= bpow 1023)%R)
        by (rewrite <- bpow_IZR by lia; apply bpow_le; lia);
      change (IZR (2 ^ 50)) with 1125899906842624%R in HT;
      let T := fresh "T" in let ET := fresh "ET" in
      remember (bpow 1023) as T eqn:ET;
      let c := fresh "c" in let Fc := fresh "Fc" in let Nc := fresh "Nc" in
      destruct (mul_near _ x _ _ _ _ Fa Fx) as (c & Fc & Nc); [lra | lra |];
      unfold near in Nc; rewrite u_eq in Nc; cbn [xorb] in Fc;
      let Hdm := fresh "Hdm" in let Hr := fresh "Hr" in
      pose proof (Z.div_mod (k * n) 100 ltac:(lia)) as Hdm;
      pose proof (Z.mod_pos_bound (k * n) 100 ltac:(lia)) as Hr;
      let q := fresh "q" in let Hq := fresh "Hq" in
      let r := fresh "r" in let Hrr := fresh "Hrr" in
      remember (k * n / 100) as q eqn:Hq; remember ((k * n) mod 100) as r eqn:Hrr;
      let HR := fresh "HR" in
      assert (HR : (IZR k * IZR n = 100 * IZR q + IZR r)%R)
        by (rewrite <- !mult_IZR, <- plus_IZR; f_equal; exact Hdm);
      let N := fresh "N" in let EN := fresh "EN" in
      remember (IZR n) as N eqn:EN;
      destruct (Z.eq_dec r 0) as [Hz|Hnz];
      [ subst r; rewrite Hz in HR;
        destruct (Rle_dec (IZR q) c) as [Hge|Hlt];
        [ exists q; split;
          [apply (int_of_float_trunc _ false c q Fc); lra | split; [lia | intros; reflexivity]]
        | exists (q - 1); split;
          [apply (int_of_float_trunc _ false c (q - 1) Fc); rewrite minus_IZR; lra
          | split; [lia | intros Hc; rewrite Hz in Hc; contradiction Hc; reflexivity]] ]
      | let HR0 := fresh "HR0" in let HR1 := fresh "HR1" in
        assert (HR0 : (1 <= IZR r)%R) by (apply IZR_le; lia);
        assert (HR1 : (IZR r <= 99)%R) by (apply IZR_le; lia);
        exists q; split;
        [apply (int_of_float_trunc _ false c q Fc); lra | split; [lia | intros; reflexivity]] ]
  end.

Lemma share_15 n :
  0 < n <= 2 ^ 32 ->
  exists z, int_of_float (float_of_ssize n * 0.15)%float = Ok z /\
            15 * n / 100 - 1 <= z <= 15 * n / 100 /\
            ((15 * n) mod 100 <> 0 -> z = 15 * n / 100).
Proof. intros Hn. share_by_bounds n is_float_0_15 15. Qed.

Lemma share_35 n :
  0 < n <= 2 ^ 32 ->
  exists z, int_of_float (float_of_ssize n * 0.35)%float = Ok z /\
            35 * n / 100 - 1 <= z <= 35 * n / 100 /\
            ((35 * n) mod 100 <> 0 -> z = 35 * n / 100).
Proof. intros Hn. share_by_bounds n is_float_0_35 35. Qed.

(** C5 (as amended): every population that fits in memory is split into
    exactly the four personas champions, engaged, casual and at-risk,
    whatever [n_segments] is; the sizes are non-negative integers, the
    same for champions and at-risk and the same for engaged and casual.
    They are taken from binary64 products, so they are not always the
    floors of 15 and 35 percent: for up to [2 ^ 32] users a size is the
    floor of its share when the share is no whole number, and the share
    or one less when it is.  For [N = 20] the sizes are 3, 7, 7 and 3,
    which sum to 20. *)
Theorem C5_four_segments (User : Type) (user_data : list User) (n_segments : Z) :
  len user_data <= sys_maxsize ->
  exists champions engaged casual at_risk,
    UserSegmenter.segment user_data n_segments
      = Ok ([champions; engaged; casual; at_risk], UserSegmenter.recommendations) /\
    map UserSegmenter.segment_id [champions; engaged; casual; at_risk]
      = ["champions"; "engaged"; "casual"; "at_risk"]%string /\
    UserSegmenter.size at_risk = UserSegmenter.size champions /\
    UserSegmenter.size casual = UserSegmenter.size engaged /\
    Forall (fun s => 0 <= UserSegmenter.size s) [champions; engaged; casual; at_risk] /\
    (len user_data <= 2 ^ 32 ->
     15 * len user_data / 100 - 1 <= UserSegmenter.size champions <= 15 * len user_data / 100 /\
     ((15 * len user_data) mod 100 <> 0 ->
      UserSegmenter.size champions = 15 * len user_data / 100) /\
     35 * len user_data / 100 - 1 <= UserSegmenter.size engaged <= 35 * len user_data / 100 /\
     ((35 * len user_data) mod 100 <> 0 ->
      UserSegmenter.size engaged = 35 * len user_data / 100)) /\
    (len user_data = 20 ->
     map UserSegmenter.size [champions; engaged; casual; at_risk] = [3; 7; 7; 3] /\
     3 + 7 + 7 + 3 <= 20).
Proof.
  intros Hlen. unfold UserSegmenter.segment.
  assert (H0 : 0 <= len user_data) by (unfold len; lia).
  remember (len user_data) as n eqn:En.
  assert (Hsizes :
    (int_of_float (float_of_ssize n * 0.15) = Ok (float_floor (float_of_ssize n * 0.15)) /\
     0 <= float_floor (float_of_ssize n * 0.15)) /\
    (int_of_float (float_of_ssize n * 0.35) = Ok (float_floor (float_of_ssize n * 0.35)) /\
     0 <= float_floor (float_of_ssize n * 0.35))).
  { destruct (Z.eq_dec n 0) as [->|Hne].
    - repeat split; vm_compute; congruence.
    - assert (Hpos : 0 < n <= sys_maxsize) by lia.
      split.
      + apply (share_floor _ _ _ Hpos is_float_0_15). lra.
      + apply (share_floor _ _ _ Hpos is_float_0_35). lra. }
  destruct Hsizes as [[H15 P15] [H35 P35]].
  rewrite H15, H35. cbn [bind].
  eexists _, _, _, _. split; [reflexivity|].
  cbn [map UserSegmenter.segment_id UserSegmenter.size].
  do 3 (split; [reflexivity|]). split; [|split].
  - repeat constructor; cbn [UserSegmenter.size]; assumption.
  - intros H32. destruct (Z.eq_dec n 0) as [->|Hne].
    + vm_compute. repeat split; congruence.
    + destruct (share_15 n ltac:(lia)) as (small & Hs & Hs1 & Hs2).
      destruct (share_35 n ltac:(lia)) as (large & Hl & Hl1 & Hl2).
      rewrite H15 in Hs. rewrite H35 in Hl. injection Hs as Hs. injection Hl as Hl.
      rewrite Hs, Hl. repeat split; try lia; assumption.
  - intros H20. rewrite H20. split; [vm_compute; reflexivity | lia].
Qed.

Lemma C5_witness :
  len (repeat tt 20) <= sys_maxsize /\
  exists champions engaged casual at_risk,
    UserSegmenter.segment (repeat tt 20) 7
      = Ok ([champions; engaged; casual; at_risk], UserSegmenter.recommendations) /\
    map UserSegmenter.segment_id [champions; engaged; casual; at_risk]
      = ["champions"; "engaged"; "casual"; "at_risk"]%string /\
    UserSegmenter.size at_risk = UserSegmenter.size champions /\
    UserSegmenter.size casual = UserSegmenter.size engaged /\
    Forall (fun s => 0 <= UserSegmenter.size s) [champions; engaged; casual; at_risk] /\
    (len (repeat tt 20) <= 2 ^ 32 ->
     15 * len (repeat tt 20) / 100 - 1 <= UserSegmenter.size champions
       <= 15 * len (repeat tt 20) / 100 /\
     ((15 * len (repeat tt 20)) mod 100 <> 0 ->
      UserSegmenter.size champions = 15 * len (repeat tt 20) / 100) /\
     35 * len (repeat tt 20) / 100 - 1 <= UserSegmenter.size engaged
       <= 35 * len (repeat tt 20) / 100 /\
     ((35 * len (repeat tt 20)) mod 100 <> 0 ->
      UserSegmenter.size engaged = 35 * len (repeat tt 20) / 100)) /\
    (len (repeat tt 20) = 20 ->
     map UserSegmenter.size [champions; engaged; casual; at_risk] = [3; 7; 7; 3] /\
     3 + 7 + 7 + 3 <= 20).
Proof.
  split; [vm_compute; discriminate|].
  apply (C5_four_segments unit (repeat tt 20) 7). vm_compute. discriminate.
Defined.

(** C5 (as stated) fails: the floor is taken of the binary64 product,
    and 180 users give 62 engaged and 62 casual users, where the floor
    of 35 percent of 180 is 63. *)
Lemma C5_counterexample :
  exists segments recs,
    UserSegmenter.segment (repeat tt 180) 4 = Ok (segments, recs) /\
    map UserSegmenter.size segments = [27; 62; 62; 27] /\
    180 * 35 / 100 = 63.
Proof. eexists _, _. repeat split. Qed.

(** X8: For up to [2 ^ 32] users the segment sizes are the exact floors of
    15 and 35 percent of the population, except that a share that is a
    whole number can come out one smaller; the four sizes never add up
    to more than the population, and leave out at most four users. *)
Theorem segment_sizes_cover_population (User : Type) (user_data : list User) (n_segments : Z) :
  len user_data <= 2 ^ 32 ->
  exists segments recs small large,
    UserSegmenter.segment user_data n_segments = Ok (segments, recs) /\
    map UserSegmenter.size segments = [small; large; large; small] /\
    15 * len user_data / 100 - 1 <= small <= 15 * len user_data / 100 /\
    ((15 * len user_data) mod 100 <> 0 -> small = 15 * len user_data / 100) /\
    35 * len user_data / 100 - 1 <= large <= 35 * len user_data / 100 /\
    ((35 * len user_data) mod 100 <> 0 -> large = 35 * len user_data / 100) /\
    len user_data - 4 <= small + large + large + small <= len user_data.
Proof.
  intros Hn. unfold UserSegmenter.segment.
  assert (H0 : 0 <= len user_data) by (unfold len; lia).
  remember (len user_data) as n eqn:En.
  destruct (Z.eq_dec n 0) as [->|Hnz].
  - eexists _, _, 0, 0. split; [vm_compute; reflexivity|].
    split; [reflexivity|]. repeat split; try discriminate; try reflexivity.
  - destruct (share_15 n ltac:(lia)) as (small & Hs & Hs1 & Hs2).
    destruct (share_35 n ltac:(lia)) as (large & Hl & Hl1 & Hl2).
    rewrite Hs, Hl. cbn [bind].
    eexists _, _, small, large. split; [reflexivity|].
    split; [reflexivity|].
    split; [exact Hs1|]. split; [exact Hs2|]. split; [exact Hl1|]. split; [exact Hl2|].
    clear Hs Hl. Z.div_mod_to_equations. lia.
Qed.

Lemma segment_sizes_cover_population_witness :
  len (repeat tt 180) <= 2 ^ 32 /\
  exists segments recs small large,
    UserSegmenter.segment (repeat tt 180) 4 = Ok (segments, recs) /\
    map UserSegmenter.size segments = [small; large; large; small] /\
    15 * len (repeat tt 180) / 100 - 1 <= small <= 15 * len (repeat tt 180) / 100 /\
    ((15 * len (repeat tt 180)) mod 100 <> 0 -> small = 15 * len (repeat tt 180) / 100) /\
    35 * len (repeat tt 180) / 100 - 1 <= large <= 35 * len (repeat tt 180) / 100 /\
    ((35 * len (repeat tt 180)) mod 100 <> 0 -> large = 35 * len (repeat tt 180) / 100) /\
    len (repeat tt 180) - 4 <= small + large + large + small <= len (repeat tt 180).
Proof.
  assert (H : len (repeat tt 180) <= 2 ^ 32) by (vm_compute; discriminate).
  split; [exact H|].
  exact (segment_sizes_cover_population unit (repeat tt 180) 4 H).
Defined.

(** ** ChurnPredictor: the scores that can occur *)


(** X10: The risk level is decided by the number of reported risk factors:
    three give [high], two give [medium], fewer give [low]; the
    variability rule, which reports no factor, never changes the level. *)
Theorem churn_level_by_factor_count (stats : Pandas.SeriesStats) (now : Z)
    (first : ChurnPredictor.EngagementRecord) (rest : list ChurnPredictor.EngagementRecord) :
  exists r,
    ChurnPredictor.predict now (first :: rest) = Ok r /\
    ChurnPredictor.risk_level r =
      match len (ChurnPredictor.key_risk_factors r) with
      | 3 => ChurnPredictor.high
      | 2 => ChurnPredictor.medium
      | _ => ChurnPredictor.low
      end.
Proof.
  eexists. split; [reflexivity|].
  cbn [ChurnPredictor.risk_level ChurnPredictor.key_risk_factors].
  match goal with
  | |- context [ChurnPredictor.churn_score ?d ?a ?t ?dev] =>
      generalize d, a, t, dev
  end.
  intros d a t dev. unfold ChurnPredictor.churn_score, ChurnPredictor.risk_factors.
  destruct (14 <? d)%Z, (a <? 2)%float, (t <? 0)%float, (5 <? dev)%float;
    vm_compute; reflexivity.
Qed.

(** ** The range of the predicted ROI *)

Lemma dict_get_In {V : Type} (d : list (string * V)) (key : string) (default : V) :
  In (dict_get d key default) (default :: map snd d).
Proof.
  induction d as [|[k v] d IH]; cbn [dict_get map snd].
  - left. reflexivity.
  - destruct (String.eqb key k).
    + right. left. reflexivity.
    + destruct IH as [IH|IH]; [left; exact IH | right; right; exact IH].
Qed.

Lemma roi_of_multipliers_range (i s : float) :
  In i (1.0%float :: map snd ROIPredictor.industry_multipliers) ->
  In s (1.0%float :: map snd ROIPredictor.size_multipliers) ->
  (162 <=? round2 (200 * i * s))%float = true /\
  (round2 (200 * i * s) <=? 312)%float = true.
Proof.
  intros Hi Hs.
  cbn [ROIPredictor.industry_multipliers ROIPredictor.size_multipliers map snd In] in Hi, Hs.
  repeat match type of Hi with _ \/ _ => destruct Hi as [<-|Hi] end; try contradiction;
    repeat match type of Hs with _ \/ _ => destruct Hs as [<-|Hs] end; try contradiction;
    split; vm_compute; reflexivity.
Qed.

(** X6: Whatever the industry and the size are, the predicted ROI lies
    between 162 (education, small) and 312 (technology, enterprise). *)
Theorem predicted_roi_range (employee_count : Z) (industry company_size : string)
    (r : ROIPredictor.ROIProjection) :
  ROIPredictor.predict employee_count industry company_size = Ok r ->
  (162 <=? ROIPredictor.predicted_roi r)%float = true /\
  (ROIPredictor.predicted_roi r <=? 312)%float = true.
Proof.
  intros H. apply predict_predicted_roi in H. rewrite H, <- predicted_roi_exact.
  apply roi_of_multipliers_range; apply dict_get_In.
Qed.

Lemma predicted_roi_range_witness :
  ROIPredictor.predict 250 "Education" "SMALL" = Ok
    {| ROIPredictor.predicted_roi := 162;
       ROIPredictor.year1 := {| ROIPredictor.costs := 127500; ROIPredictor.benefits := 180000; ROIPredictor.roi := 41.18 |};
       ROIPredictor.year2 := {| ROIPredictor.costs := 90000; ROIPredictor.benefits := 240000; ROIPredictor.roi := 166.67 |};
       ROIPredictor.year3 := {| ROIPredictor.costs := 90000; ROIPredictor.benefits := 270000; ROIPredictor.roi := 200 |};
       ROIPredictor.breakeven_month := 8;
       ROIPredictor.confidence_score := 0.85 |} /\
  (162 <=? 162)%float = true /\ (162 <=? 312)%float = true.
Proof.
  split; [vm_compute; reflexivity|].
  exact (predicted_roi_range 250 "Education" "SMALL" _ eq_refl).
Defined.

(** * The git statistics *)

(** ** Dicts with default values *)

Lemma update_sum {V : Type} (g : V -> Z) (x : Z) (d : list (string * V)) key default f :
  g default = 0 -> (forall v, g (f v) = g v + x) ->
  dict_sum g (GitStats.update d key default f) = dict_sum g d + x.
Proof.
  intros Hd Hf. unfold dict_sum, Zsum.
  induction d as [|[k v] d IH]; cbn [GitStats.update map fold_right snd].
  - rewrite Hf, Hd. lia.
  - destruct (String.eqb key k); cbn [map fold_right snd].
    + rewrite Hf. lia.
    + rewrite IH. lia.
Qed.

Lemma update_keys {V : Type} (d : list (string * V)) key default f :
  map fst (GitStats.update d key default f) =
    if existsb (String.eqb key) (map fst d) then map fst d else map fst d ++ [key].
Proof.
  induction d as [|[k v] d IH]; cbn [GitStats.update map fst existsb app]; [reflexivity|].
  destruct (String.eqb key k); cbn [map fst orb]; [reflexivity|].
  rewrite IH. destruct (existsb (String.eqb key) (map fst d)); reflexivity.
Qed.

Lemma existsb_eqb_In key (l : list string) :
  existsb (String.eqb key) l = true <-> In key l.
Proof.
  rewrite existsb_exists. split.
  - intros (k & Hk & He). apply String.eqb_eq in He. subst. exact Hk.
  - intros H. exists key. split; [exact H | apply String.eqb_refl].
Qed.

Lemma update_In {V : Type} (d : list (string * V)) key default f k :
  In k (map fst (GitStats.update d key default f)) <-> k = key \/ In k (map fst d).
Proof.
  rewrite update_keys. destruct (existsb (String.eqb key) (map fst d)) eqn:E.
  - apply existsb_eqb_In in E. split; [auto|]. intros [->|H]; assumption.
  - rewrite in_app_iff. cbn [In]. split.
    + intros [H|[H|[]]]; auto.
    + intros [->|H]; auto.
Qed.

Lemma update_NoDup {V : Type} (d : list (string * V)) key default f :
  NoDup (map fst d) -> NoDup (map fst (GitStats.update d key default f)).
Proof.
  intros H. rewrite update_keys. destruct (existsb (String.eqb key) (map fst d)) eqn:E; [exact H|].
  apply NoDup_app; [exact H | repeat constructor; intros [] |].
  intros k Hk [<-|[]]. apply existsb_eqb_In in Hk. congruence.
Qed.

(** ** The totals of the loops *)

Ltac update_sums :=
  repeat (erewrite update_sum;
          [ | reflexivity | intros; cbn [GitStats.author_added GitStats.author_deleted GitStats.commits
                                           GitStats.ext_added GitStats.ext_deleted GitStats.ext_files];
                            try reflexivity; symmetry; apply Z.add_0_r ]).

Lemma count_file_balanced a t f n m :
  balanced t n m ->
  balanced (GitStats.count_file a t f) n (m + 1) /\
  GitStats.t_added (GitStats.count_file a t f) = GitStats.t_added t + GitStats.added f /\
  GitStats.t_deleted (GitStats.count_file a t f) = GitStats.t_deleted t + GitStats.deleted f /\
  GitStats.t_features (GitStats.count_file a t f) = GitStats.t_features t.
Proof.
  intros (H1 & H2 & H3 & H4 & H5 & H6). unfold balanced, GitStats.count_file.
  cbn [GitStats.t_added GitStats.t_deleted GitStats.t_by_author GitStats.t_by_extension
       GitStats.t_features].
  update_sums. rewrite H1, H2, H3, H4, H5, H6. repeat split; lia.
Qed.

Lemma count_files_balanced a fs : forall t n m,
  balanced t n m ->
  let t' := fold_left (GitStats.count_file a) fs t in
  balanced t' n (m + len fs) /\
  GitStats.t_added t' = GitStats.t_added t + Zsum (map GitStats.added fs) /\
  GitStats.t_deleted t' = GitStats.t_deleted t + Zsum (map GitStats.deleted fs) /\
  GitStats.t_features t' = GitStats.t_features t.
Proof.
  unfold len. induction fs as [|f fs IH]; intros t n m Hb; cbn [fold_left map List.length].
  - cbv zeta. unfold Zsum. cbn [fold_right]. change (Z.of_nat 0) with 0. rewrite !Z.add_0_r.
    split; [exact Hb|]. repeat split; reflexivity.
  - destruct (count_file_balanced a t f n m Hb) as (Hb' & Ha & Hd & Hf).
    destruct (IH _ _ _ Hb') as (Hb'' & Ha' & Hd' & Hf').
    cbv zeta in *. rewrite Ha', Hd', Hf', Ha, Hd, Hf.
    replace (m + Z.of_nat (S (List.length fs))) with (m + 1 + Z.of_nat (List.length fs)) by lia.
    unfold Zsum. cbn [fold_right]. split; [exact Hb''|]. repeat split; lia.
Qed.

Lemma count_commit_balanced t c n m :
  balanced t n m ->
  let t' := GitStats.count_commit t c in
  balanced t' (n + 1) (m + len (GitStats.files c)) /\
  GitStats.t_added t' = GitStats.t_added t + Zsum (map GitStats.added (GitStats.files c)) /\
  GitStats.t_deleted t' = GitStats.t_deleted t + Zsum (map GitStats.deleted (GitStats.files c)).
Proof.
  intros (H1 & H2 & H3 & H4 & H5 & H6). cbv zeta. unfold GitStats.count_commit.
  match goal with
  | |- context [fold_left (GitStats.count_file ?a) ?fs ?t0] =>
      destruct (count_files_balanced a fs t0 (n + 1) m) as (Hb & Ha & Hd & Hf)
  end.
  { unfold balanced.
    cbn [GitStats.t_added GitStats.t_deleted GitStats.t_by_author GitStats.t_by_extension].
    update_sums. repeat split; lia. }
  cbv zeta in Hb, Ha, Hd, Hf.
  cbn [GitStats.t_added GitStats.t_deleted] in Ha, Hd.
  destruct (0 <? len (GitStats.files c));
    [destruct (_ || _)|]; cbn [GitStats.t_added GitStats.t_deleted];
    (split; [exact Hb | split; assumption]).
Qed.

Lemma count_commits_balanced cs : forall t n m,
  balanced t n m ->
  let t' := fold_left GitStats.count_commit cs t in
  balanced t' (n + len cs) (m + len (flat_map GitStats.files cs)) /\
  GitStats.t_added t' = GitStats.t_added t + Zsum (map GitStats.added (flat_map GitStats.files cs)) /\
  GitStats.t_deleted t' = GitStats.t_deleted t + Zsum (map GitStats.deleted (flat_map GitStats.files cs)).
Proof.
  unfold len. induction cs as [|c cs IH]; intros t n m Hb; cbn [fold_left flat_map List.length].
  - cbv zeta. unfold Zsum. cbn [map fold_right]. change (Z.of_nat 0) with 0. rewrite !Z.add_0_r.
    split; [exact Hb|]. split; reflexivity.
  - destruct (count_commit_balanced t c n m Hb) as (Hb' & Ha & Hd).
    destruct (IH _ _ _ Hb') as (Hb'' & Ha' & Hd').
    cbv zeta in *. rewrite Ha', Hd', Ha, Hd.
    rewrite !map_app, length_app. unfold Zsum. rewrite !fold_right_app.
    assert (Hs : forall l1 l2, fold_right Z.add (fold_right Z.add 0 l2) l1
                               = fold_right Z.add 0 l1 + fold_right Z.add 0 l2).
    { induction l1 as [|x l1 IH1]; intros l2; cbn [fold_right]; [lia|]. rewrite IH1. lia. }
    rewrite !Hs. unfold len in Hb''.
    replace (n + Z.of_nat (S (List.length cs))) with (n + 1 + Z.of_nat (List.length cs)) by lia.
    replace (m + Z.of_nat (List.length (GitStats.files c) + List.length (flat_map GitStats.files cs)))
      with (m + Z.of_nat (List.length (GitStats.files c)) + Z.of_nat (List.length (flat_map GitStats.files cs)))
      by lia.
    split; [exact Hb''|]. split; lia.
Qed.

Lemma flat_map_has_files cs :
  flat_map GitStats.files (filter GitStats.has_files cs) = flat_map GitStats.files cs.
Proof.
  induction cs as [|c cs IH]; [reflexivity|]. cbn [filter flat_map].
  unfold GitStats.has_files at 1. destruct (GitStats.files c) eqn:E.
  - exact IH.
  - cbn [flat_map]. rewrite E, IH. reflexivity.
Qed.

Lemma analyze_totals (commits : list GitStats.Commit) :
  let stats := GitStats.analyze_commits commits in
  let changes := flat_map GitStats.files commits in
  GitStats.total_added stats = Zsum (map GitStats.added changes) /\
  GitStats.total_deleted stats = Zsum (map GitStats.deleted changes) /\
  dict_sum GitStats.author_added (GitStats.by_author stats) = GitStats.total_added stats /\
  dict_sum GitStats.author_deleted (GitStats.by_author stats) = GitStats.total_deleted stats /\
  dict_sum GitStats.commits (GitStats.by_author stats) = GitStats.total_commits stats /\
  dict_sum GitStats.ext_added (GitStats.by_extension stats) = GitStats.total_added stats /\
  dict_sum GitStats.ext_deleted (GitStats.by_extension stats) = GitStats.total_deleted stats /\
  dict_sum GitStats.ext_files (GitStats.by_extension stats) = len changes.
Proof.
  cbv zeta. unfold GitStats.analyze_commits.
  cbn [GitStats.total_added GitStats.total_deleted GitStats.total_commits
       GitStats.by_author GitStats.by_extension].
  match goal with
  | |- context [fold_left GitStats.count_commit ?cs ?t0] =>
      destruct (count_commits_balanced cs t0 0 0) as ((H1 & H2 & H3 & H4 & H5 & H6) & Ha & Hd)
  end.
  { unfold balanced. cbn. repeat split; reflexivity. }
  cbv zeta in *. cbn [GitStats.t_added GitStats.t_deleted] in Ha, Hd.
  rewrite flat_map_has_files in *. rewrite Z.add_0_l in *.
  rewrite H1, H2, H3, H4, H5, H6, Ha, Hd. repeat split; reflexivity.
Qed.

(** X19: The totals agree: the lines added and deleted are those of all the
    file changes of the log, the per-author and the per-extension
    figures each add up to the overall totals, the commits of the
    authors add up to the number of commits counted and the files of the
    extensions to the number of file changes. *)
Theorem analyze_totals_agree (commits : list GitStats.Commit) :
  let stats := GitStats.analyze_commits commits in
  let changes := flat_map GitStats.files commits in
  GitStats.total_added stats = Zsum (map GitStats.added changes) /\
  GitStats.total_deleted stats = Zsum (map GitStats.deleted changes) /\
  dict_sum GitStats.author_added (GitStats.by_author stats) = GitStats.total_added stats /\
  dict_sum GitStats.author_deleted (GitStats.by_author stats) = GitStats.total_deleted stats /\
  dict_sum GitStats.commits (GitStats.by_author stats) = GitStats.total_commits stats /\
  dict_sum GitStats.ext_added (GitStats.by_extension stats) = GitStats.total_added stats /\
  dict_sum GitStats.ext_deleted (GitStats.by_extension stats) = GitStats.total_deleted stats /\
  dict_sum GitStats.ext_files (GitStats.by_extension stats) = len changes.
Proof. exact (analyze_totals commits). Qed.

(** ** Splitting *)

Lemma split_not_nil sep s : Str.split sep s <> [].
Proof.
  destruct s as [|c s]; cbn [Str.split]; [discriminate|].
  destruct (Ascii.eqb c sep); [discriminate|]. destruct (Str.split sep s); discriminate.
Qed.

Lemma split_no_sep sep s : Str.contains_char sep s = false -> Str.split sep s = [s].
Proof.
  induction s as [|c s IH]; cbn [Str.split Str.contains_char]; [reflexivity|].
  intros H. apply orb_false_elim in H. destruct H as [Hc Hs].
  rewrite Hc, (IH Hs). reflexivity.
Qed.

Lemma split_pieces sep s w : In w (Str.split sep s) -> Str.contains_char sep w = false.
Proof.
  revert w. induction s as [|c s IH]; cbn [Str.split]; intros w.
  - intros [<-|[]]. reflexivity.
  - destruct (Ascii.eqb c sep) eqn:Hc.
    + intros [<-|H]; [reflexivity | apply IH; exact H].
    + destruct (Str.split sep s) as [|w0 ws] eqn:Hs.
      * intros [<-|[]]. cbn [Str.contains_char]. rewrite Hc. reflexivity.
      * intros [<-|H].
        -- cbn [Str.contains_char]. rewrite Hc. apply IH. left. reflexivity.
        -- apply IH. right. exact H.
Qed.

Lemma split_with_sep sep s :
  Str.contains_char sep s = true -> exists w w' ws, Str.split sep s = w :: w' :: ws.
Proof.
  induction s as [|c s IH]; cbn [Str.split Str.contains_char]; [discriminate|].
  destruct (Ascii.eqb c sep); cbn [orb].
  - intros _. destruct (Str.split sep s) as [|w ws] eqn:Hs; [exfalso; exact (split_not_nil _ _ Hs)|].
    eexists _, _, _. reflexivity.
  - intros H. destruct (IH H) as (w & w' & ws & ->). eexists _, _, _. reflexivity.
Qed.

(** The last piece follows the last separator. *)
Lemma split_last sep s :
  Str.contains_char sep s = true ->
  exists stem, s = (stem ++ String sep (List.last (Str.split sep s) ""))%string.
Proof.
  induction s as [|c s IH]; cbn [Str.contains_char]; [discriminate|].
  destruct (Ascii.eqb c sep) eqn:Hc; cbn [orb].
  - intros _. apply Ascii.eqb_eq in Hc. subst c. cbn [Str.split]. rewrite Ascii.eqb_refl.
    destruct (Str.contains_char sep s) eqn:Hs.
    + destruct (IH eq_refl) as (stem & Hstem). exists (String sep stem).
      destruct (Str.split sep s) as [|w ws] eqn:E; [exfalso; exact (split_not_nil _ _ E)|].
      cbn [append]. rewrite Hstem at 1. reflexivity.
    + exists EmptyString. rewrite (split_no_sep _ _ Hs). reflexivity.
  - intros H. destruct (IH H) as (stem & Hstem). exists (String c stem).
    cbn [Str.split]. rewrite Hc.
    destruct (split_with_sep _ _ H) as (w & w' & ws & E). rewrite E in *.
    cbn [append]. rewrite Hstem at 1. reflexivity.
Qed.

(** X18: The extension of a file name is the text after its last dot, and
    has no dot itself; a name without a dot has the extension
    [no-extension]. *)
Theorem extension_after_last_dot (filename : string) :
  Str.contains_char "." (GitStats.extension filename) = false /\
  (Str.contains_char "." filename = false -> GitStats.extension filename = "no-extension"%string) /\
  (Str.contains_char "." filename = true ->
   exists stem, filename = (stem ++ "." ++ GitStats.extension filename)%string).
Proof.
  unfold GitStats.extension. destruct (Str.contains_char "." filename) eqn:H.
  - split; [|split; [discriminate|]].
    + apply (split_pieces "." filename).
      destruct (split_with_sep _ _ H) as (w & w' & ws & E). rewrite E.
      destruct (@exists_last _ (w :: w' :: ws) ltac:(discriminate)) as (l' & x & El).
      rewrite El, last_last. apply in_or_app. right. left. reflexivity.
    + intros _. apply split_last. exact H.
  - split; [reflexivity|]. split; [reflexivity | discriminate].
Qed.

(** ** Keys *)

Lemma count_file_keys a t f :
  (forall k, In k (map fst (GitStats.t_by_author (GitStats.count_file a t f))) <->
             k = a \/ In k (map fst (GitStats.t_by_author t))) /\
  (forall k, In k (map fst (GitStats.t_by_extension (GitStats.count_file a t f))) <->
             k = GitStats.extension (GitStats.filename f) \/
             In k (map fst (GitStats.t_by_extension t))) /\
  (NoDup (map fst (GitStats.t_by_author t)) ->
   NoDup (map fst (GitStats.t_by_author (GitStats.count_file a t f)))) /\
  (NoDup (map fst (GitStats.t_by_extension t)) ->
   NoDup (map fst (GitStats.t_by_extension (GitStats.count_file a t f)))).
Proof.
  unfold GitStats.count_file. cbn [GitStats.t_by_author GitStats.t_by_extension].
  repeat split.
  - rewrite !update_In. tauto.
  - rewrite !update_In. tauto.
  - rewrite !update_In. tauto.
  - rewrite !update_In. tauto.
  - intros H. repeat apply update_NoDup. exact H.
  - intros H. repeat apply update_NoDup. exact H.
Qed.

Lemma count_files_keys a fs : forall t,
  let t' := fold_left (GitStats.count_file a) fs t in
  (forall k, In k (map fst (GitStats.t_by_author t')) <->
             (fs <> [] /\ k = a) \/ In k (map fst (GitStats.t_by_author t))) /\
  (forall k, In k (map fst (GitStats.t_by_extension t')) <->
             (exists f, In f fs /\ k = GitStats.extension (GitStats.filename f)) \/
             In k (map fst (GitStats.t_by_extension t))) /\
  (NoDup (map fst (GitStats.t_by_author t)) -> NoDup (map fst (GitStats.t_by_author t'))) /\
  (NoDup (map fst (GitStats.t_by_extension t)) -> NoDup (map fst (GitStats.t_by_extension t'))).
Proof.
  induction fs as [|f fs IH]; intros t; cbn [fold_left]; cbv zeta.
  - split; [intros k; split;
              [intros H; right; exact H
              |intros [[H _]|H]; [exfalso; apply H; reflexivity | exact H]]|].
    split; [intros k; split;
              [intros H; right; exact H | intros [(f & [] & _)|H]; exact H]|].
    split; auto.
  - destruct (IH (GitStats.count_file a t f)) as (I1 & I2 & I3 & I4).
    destruct (count_file_keys a t f) as (K1 & K2 & K3 & K4).
    cbv zeta in *. repeat split.
    + rewrite I1, K1. intros [[_ ->]|[->|H]]; auto; left; split; congruence.
    + rewrite I1, K1. intros [[_ ->]|H]; auto.
    + rewrite I2, K2. intros [(f' & Hf & ->)|[->|H]]; auto.
      * left. exists f'. split; [right; exact Hf | reflexivity].
      * left. exists f. split; [left; reflexivity | reflexivity].
    + rewrite I2, K2. intros [(f' & [<-|Hf] & ->)|H]; auto.
      left. exists f'. split; [exact Hf | reflexivity].
    + intros H. apply I3, K3, H.
    + intros H. apply I4, K4, H.
Qed.

Lemma count_files_features a fs : forall t,
  GitStats.t_features (fold_left (GitStats.count_file a) fs t) = GitStats.t_features t.
Proof.
  induction fs as [|f fs IH]; intros t; cbn [fold_left]; [reflexivity|].
  rewrite IH. reflexivity.
Qed.

Lemma len_has_files c : (0 <? len (GitStats.files c)) = GitStats.has_files c.
Proof.
  unfold GitStats.has_files, len. destruct (GitStats.files c); reflexivity.
Qed.

Lemma count_commit_shape t c :
  GitStats.has_files c = true ->
  let t' := GitStats.count_commit t c in
  (forall k, In k (map fst (GitStats.t_by_author t')) <->
             k = GitStats.author c \/ In k (map fst (GitStats.t_by_author t))) /\
  (forall k, In k (map fst (GitStats.t_by_extension t')) <->
             (exists f, In f (GitStats.files c) /\ k = GitStats.extension (GitStats.filename f)) \/
             In k (map fst (GitStats.t_by_extension t))) /\
  (NoDup (map fst (GitStats.t_by_author t)) -> NoDup (map fst (GitStats.t_by_author t'))) /\
  (NoDup (map fst (GitStats.t_by_extension t)) -> NoDup (map fst (GitStats.t_by_extension t'))) /\
  GitStats.t_features t' =
    GitStats.t_features t ++ (if notable c then [feature_of c] else []).
Proof.
  intros Hc. cbv zeta. unfold GitStats.count_commit. rewrite len_has_files, Hc.
  fold (notable c).
  match goal with
  | |- context [fold_left (GitStats.count_file ?a) ?fs ?t0] =>
      destruct (count_files_keys a fs t0) as (K1 & K2 & K3 & K4);
      pose proof (count_files_features a fs t0) as Hf;
      remember (fold_left (GitStats.count_file a) fs t0) as t1 eqn:Et1
  end.
  cbv zeta in *.
  cbn [GitStats.t_by_author GitStats.t_by_extension GitStats.t_features] in K1, K2, K3, K4, Hf.
  assert (HA : forall k, In k (map fst (GitStats.t_by_author t1)) <->
                         k = GitStats.author c \/ In k (map fst (GitStats.t_by_author t))).
  { intros k. rewrite K1, update_In. tauto. }
  assert (HN : NoDup (map fst (GitStats.t_by_author t)) -> NoDup (map fst (GitStats.t_by_author t1))).
  { intros H. apply K3, update_NoDup, H. }
  destruct (notable c);
    cbn [GitStats.t_by_author GitStats.t_by_extension GitStats.t_features];
    rewrite ?Hf, ?app_nil_r; repeat split; try (apply HA); try (apply K2); auto.
Qed.

Lemma count_commits_shape cs : forall t,
  Forall (fun c => GitStats.has_files c = true) cs ->
  let t' := fold_left GitStats.count_commit cs t in
  (forall k, In k (map fst (GitStats.t_by_author t')) <->
             (exists c, In c cs /\ k = GitStats.author c) \/
             In k (map fst (GitStats.t_by_author t))) /\
  (forall k, In k (map fst (GitStats.t_by_extension t')) <->
             (exists c f, In c cs /\ In f (GitStats.files c) /\
                          k = GitStats.extension (GitStats.filename f)) \/
             In k (map fst (GitStats.t_by_extension t))) /\
  (NoDup (map fst (GitStats.t_by_author t)) -> NoDup (map fst (GitStats.t_by_author t'))) /\
  (NoDup (map fst (GitStats.t_by_extension t)) -> NoDup (map fst (GitStats.t_by_extension t'))) /\
  GitStats.t_features t' = GitStats.t_features t ++ map feature_of (filter notable cs).
Proof.
  induction cs as [|c cs IH]; intros t Hall; cbn [fold_left]; cbv zeta.
  - cbn [filter map]. rewrite app_nil_r. repeat split; auto.
    + intros [(c & [] & _)|H]; exact H.
    + intros [(c & f & [] & _)|H]; exact H.
  - pose proof (Forall_inv Hall) as Hc. apply Forall_inv_tail in Hall.
    destruct (IH (GitStats.count_commit t c) Hall) as (I1 & I2 & I3 & I4 & I5).
    destruct (count_commit_shape t c Hc) as (K1 & K2 & K3 & K4 & K5).
    cbv zeta in *. repeat split.
    + rewrite I1, K1. intros [(c' & Hc' & ->)|[->|H]]; auto.
      * left. exists c'. split; [right; exact Hc' | reflexivity].
      * left. exists c. split; [left; reflexivity | reflexivity].
    + rewrite I1, K1. intros [(c' & [<-|Hc'] & ->)|H]; auto.
      left. exists c'. split; [exact Hc' | reflexivity].
    + rewrite I2, K2. intros [(c' & f & Hc' & Hf & ->)|[(f & Hf & ->)|H]]; auto.
      * left. exists c', f. repeat split; [right; exact Hc' | exact Hf].
      * left. exists c, f. repeat split; [left; reflexivity | exact Hf].
    + rewrite I2, K2. intros [(c' & f & [<-|Hc'] & Hf & ->)|H]; auto.
      * right. left. exists f. split; [exact Hf | reflexivity].
      * left. exists c', f. repeat split; assumption.
    + intros H. apply I3, K3, H.
    + intros H. apply I4, K4, H.
    + rewrite I5, K5, <- app_assoc. f_equal. cbn [filter].
      destruct (notable c); reflexivity.
Qed.

(** X20: Every author of a commit that changes files has one entry in
    [by_author] and nobody else has one; every extension of a changed
    file has one entry in [by_extension] and no other key occurs. *)
Theorem analyze_keys (commits : list GitStats.Commit) :
  let stats := GitStats.analyze_commits commits in
  NoDup (map fst (GitStats.by_author stats)) /\
  NoDup (map fst (GitStats.by_extension stats)) /\
  (forall a, In a (map fst (GitStats.by_author stats)) <->
             exists c, In c commits /\ GitStats.files c <> [] /\ GitStats.author c = a) /\
  (forall e, In e (map fst (GitStats.by_extension stats)) <->
             exists c f, In c commits /\ In f (GitStats.files c) /\
                         GitStats.extension (GitStats.filename f) = e).
Proof.
  cbv zeta. unfold GitStats.analyze_commits.
  cbn [GitStats.by_author GitStats.by_extension].
  match goal with
  | |- context [fold_left GitStats.count_commit ?cs ?t0] =>
      destruct (count_commits_shape cs t0) as (K1 & K2 & K3 & K4 & _)
  end.
  { apply Forall_forall. intros c Hc. apply filter_In in Hc. apply Hc. }
  cbv zeta in *. cbn [GitStats.t_by_author GitStats.t_by_extension map] in K1, K2, K3, K4.
  split; [apply K3; constructor|]. split; [apply K4; constructor|]. split.
  - intros a. rewrite K1. split.
    + intros [(c & Hc & ->)|[]]. apply filter_In in Hc. destruct Hc as [Hin Hf].
      exists c. repeat split; [exact Hin|]. unfold GitStats.has_files in Hf.
      destruct (GitStats.files c); [discriminate | discriminate].
    + intros (c & Hin & Hf & <-). left. exists c. split; [|reflexivity].
      apply filter_In. split; [exact Hin|]. unfold GitStats.has_files.
      destruct (GitStats.files c); [contradiction Hf; reflexivity | reflexivity].
  - intros e. rewrite K2. split.
    + intros [(c & f & Hc & Hf & ->)|[]]. apply filter_In in Hc. destruct Hc as [Hin _].
      exists c, f. repeat split; assumption.
    + intros (c & f & Hin & Hf & <-). left. exists c, f. repeat split; [|exact Hf].
      apply filter_In. split; [exact Hin|]. unfold GitStats.has_files.
      destruct (GitStats.files c); [destruct Hf | reflexivity].
Qed.

(** X21: The features are the commits that change files and either change
    more than 50 lines or mention a keyword, in the order of the log;
    there are never more of them than commits counted. *)
Theorem analyze_features (commits : list GitStats.Commit) :
  let stats := GitStats.analyze_commits commits in
  GitStats.features stats
    = map feature_of (filter notable (filter GitStats.has_files commits)) /\
  len (GitStats.features stats) <= GitStats.total_commits stats.
Proof.
  cbv zeta. unfold GitStats.analyze_commits.
  cbn [GitStats.features GitStats.total_commits].
  match goal with
  | |- context [fold_left GitStats.count_commit ?cs ?t0] =>
      destruct (count_commits_shape cs t0) as (_ & _ & _ & _ & K5)
  end.
  { apply Forall_forall. intros c Hc. apply filter_In in Hc. apply Hc. }
  cbv zeta in K5. cbn [GitStats.t_features] in K5. rewrite app_nil_l in K5. rewrite K5.
  split; [reflexivity|]. unfold len. rewrite length_map.
  apply inj_le, filter_length_le.
Qed.

(** ** Text *)

Lemma contains_char_app c a b :
  Str.contains_char c (a ++ b) = Str.contains_char c a || Str.contains_char c b.
Proof.
  induction a as [|x a IH]; cbn [append Str.contains_char]; [reflexivity|].
  rewrite IH. apply orb_assoc.
Qed.

Lemma split_app_sep sep a b :
  Str.contains_char sep a = false ->
  Str.split sep (a ++ String sep b) = a :: Str.split sep b.
Proof.
  induction a as [|x a IH]; cbn [append Str.split Str.contains_char].
  - intros _. rewrite Ascii.eqb_refl. reflexivity.
  - intros H. apply orb_false_elim in H. destruct H as [Hx Ha].
    rewrite Hx, (IH Ha). reflexivity.
Qed.

Lemma split_join sep (ls : list string) :
  ls <> [] -> Forall (fun l => Str.contains_char sep l = false) ls ->
  Str.split sep (Str.join (String sep EmptyString) ls) = ls.
Proof.
  induction ls as [|l ls IH]; [congruence|]. intros _ Hall.
  pose proof (Forall_inv Hall) as Hl. apply Forall_inv_tail in Hall.
  destruct ls as [|l' ls].
  - cbn [Str.join]. apply split_no_sep. exact Hl.
  - change (Str.join (String sep EmptyString) (l :: l' :: ls))
      with (l ++ String sep EmptyString ++ Str.join (String sep EmptyString) (l' :: ls))%string.
    cbn [append]. rewrite (split_app_sep _ _ _ Hl), IH; [reflexivity | discriminate | exact Hall].
Qed.

Lemma length_split sep s : List.length (Str.split sep s) = S (count_char sep s).
Proof.
  induction s as [|c s IH]; cbn [Str.split count_char]; [reflexivity|].
  destruct (Ascii.eqb c sep); cbn [List.length]; [rewrite IH; reflexivity|].
  destruct (Str.split sep s); cbn [List.length] in *; [discriminate IH | exact IH].
Qed.

(** ** Replacing *)

Lemma prefix_split p s : String.prefix p s = true -> exists rest, s = (p ++ rest)%string.
Proof.
  revert s. induction p as [|a p IH]; intros s.
  - intros _. exists s. reflexivity.
  - destruct s as [|b s]; cbn [String.prefix]; [discriminate|].
    destruct (ascii_dec a b) as [<-|]; [|discriminate].
    intros H. destruct (IH s H) as (rest & ->). exists rest. reflexivity.
Qed.

Lemma replace_skip old new (o rest : string) :
  Str.replace_from old new (String.length o) (o ++ rest) = Str.replace_from old new 0 rest.
Proof.
  induction o as [|a o IH]; cbn [String.length append]; [reflexivity|].
  cbn [Str.replace_from]. exact IH.
Qed.

Lemma prefix_app p rest : String.prefix p (p ++ rest) = true.
Proof.
  induction p as [|a p IH]; cbn [append String.prefix]; [destruct rest; reflexivity|].
  destruct (ascii_dec a a) as [_|H]; [exact IH | congruence].
Qed.

(** One step of [replace]: an occurrence at the start is replaced, any
    other first character is kept. *)
Lemma replace_cases old new s :
  old <> EmptyString ->
  (exists rest, s = (old ++ rest)%string /\
                Str.replace old new s = (new ++ Str.replace old new rest)%string) \/
  (String.prefix old s = false /\
   Str.replace old new s =
     match s with
     | EmptyString => EmptyString
     | String c s' => String c (Str.replace old new s')
     end).
Proof.
  intros Hold. unfold Str.replace. destruct s as [|c s'].
  - right. split; [|reflexivity]. destruct old; [congruence | reflexivity].
  - cbn [Str.replace_from]. destruct (String.prefix old (String c s')) eqn:Hp.
    + left. destruct (prefix_split _ _ Hp) as (rest & Hrest). exists rest.
      split; [exact Hrest|]. f_equal.
      destruct old as [|a old']; [congruence|]. cbn [append] in Hrest. injection Hrest as <- ->.
      cbn [String.length]. replace (S (String.length old') - 1)%nat with (String.length old') by lia.
      apply replace_skip.
    + right. split; reflexivity.
Qed.

Lemma length_app_string a b : String.length (a ++ b) = (String.length a + String.length b)%nat.
Proof. induction a as [|x a IH]; cbn [append String.length]; [reflexivity | rewrite IH; reflexivity]. Qed.

Lemma count_char_app c a b : count_char c (a ++ b) = (count_char c a + count_char c b)%nat.
Proof.
  induction a as [|x a IH]; cbn [append count_char]; [reflexivity|].
  destruct (Ascii.eqb x c); rewrite IH; reflexivity.
Qed.

(** Removing a pattern keeps the characters the pattern does not have. *)
Lemma count_char_replace c old s :
  old <> EmptyString -> count_char c old = O ->
  count_char c (Str.replace old "" s) = count_char c s.
Proof.
  intros Hold Hc.
  assert (H : forall n s, (String.length s <= n)%nat ->
                          count_char c (Str.replace old "" s) = count_char c s).
  { clear s. induction n as [|n IH]; intros s Hn.
    - destruct s; [reflexivity | cbn [String.length] in Hn; lia].
    - destruct (replace_cases old "" s Hold) as [(rest & -> & ->)|[_ ->]].
      + cbn [append]. rewrite count_char_app, Hc. cbn [Nat.add]. apply IH.
        rewrite length_app_string in Hn.
        destruct old; [congruence | cbn [String.length] in Hn; lia].
      + destruct s as [|x s']; [reflexivity|]. cbn [count_char]. cbn [String.length] in Hn.
        rewrite IH by lia. reflexivity. }
  apply (H (String.length s)). lia.
Qed.

Lemma contains_cons sub c s :
  Str.contains sub (String c s) = false ->
  String.prefix sub (String c s) = false /\ Str.contains sub s = false.
Proof. cbn [Str.contains]. intros H. apply orb_false_elim in H. exact H. Qed.

(** A text without the pattern is left as it is. *)
Lemma replace_absent old new s :
  old <> EmptyString -> Str.contains old s = false -> Str.replace old new s = s.
Proof.
  intros Hold. unfold Str.replace.
  induction s as [|c s IH]; [reflexivity|]. intros H.
  apply contains_cons in H. destruct H as [Hp Hs].
  cbn [Str.replace_from]. rewrite Hp, (IH Hs). reflexivity.
Qed.

Lemma replace_at_start old new rest :
  old <> EmptyString -> Str.contains old rest = false ->
  Str.replace old new (old ++ rest) = (new ++ rest)%string.
Proof.
  intros Hold Hrest.
  destruct (replace_cases old new (old ++ rest) Hold) as [(rest' & Heq & ->)|[Hp _]].
  - assert (rest' = rest).
    { clear - Heq. induction old as [|a o IH]; cbn [append] in Heq; [congruence|].
      injection Heq as Heq. exact (IH Heq). }
    subst rest'. rewrite (replace_absent _ _ _ Hold Hrest). reflexivity.
  - rewrite prefix_app in Hp. discriminate.
Qed.

(** ** The failure of the parser *)

Lemma header_IndexError line :
  GitStats.header line = GitStats.IndexError <-> (count_char "|" line < 3)%nat.
Proof.
  unfold GitStats.header.
  pose proof (length_split "|" (Str.replace "COMMIT:" "" line)) as Hl.
  rewrite count_char_replace in Hl by (discriminate || reflexivity).
  destruct (Str.split "|" (Str.replace "COMMIT:" "" line)) as [|p0 [|p1 [|p2 [|p3 rest]]]];
    cbn [List.length] in Hl; split; intros H; try reflexivity; try discriminate; lia.
Qed.

Lemma parse_line_IndexError st line :
  GitStats.parse_line st line = GitStats.IndexError <->
  Str.startswith "COMMIT:" line = true /\ GitStats.header line = GitStats.IndexError.
Proof.
  unfold GitStats.parse_line. destruct (Str.startswith "COMMIT:" line).
  - destruct (GitStats.header line); split; try discriminate; auto.
    intros [_ H]; discriminate.
  - split; [|intros [H _]; discriminate].
    destruct (snd st); [|discriminate].
    destruct (_ && _); [destruct (GitStats.numstat line)|]; discriminate.
Qed.

Lemma parse_lines_IndexError lines : forall st,
  GitStats.parse_lines st lines = GitStats.IndexError <->
  exists line, In line lines /\ Str.startswith "COMMIT:" line = true /\
               GitStats.header line = GitStats.IndexError.
Proof.
  induction lines as [|l lines IH]; intros st; cbn [GitStats.parse_lines].
  - split; [discriminate | intros (line & [] & _)].
  - destruct (GitStats.parse_line st l) as [st'|] eqn:Hl.
    + rewrite IH. split.
      * intros (line & Hin & H). exists line. split; [right; exact Hin | exact H].
      * intros (line & [<-|Hin] & H).
        -- apply (parse_line_IndexError st) in H. congruence.
        -- exists line. split; assumption.
    + split; [|reflexivity]. intros _. exists l. split; [left; reflexivity|].
      apply (parse_line_IndexError st). exact Hl.
Qed.

(** X15: The parser fails exactly when some line of the output starts with
    [COMMIT:] and has fewer than three bars; then it raises
    [IndexError], and it raises nothing else. *)
Theorem parse_fails_on_short_headers (output : string) :
  GitStats.parse_git_log output = GitStats.IndexError <->
  exists line, In line (Str.split "010" output) /\
               Str.startswith "COMMIT:" line = true /\ (count_char "|" line < 3)%nat.
Proof.
  unfold GitStats.parse_git_log. rewrite parse_lines_IndexError.
  split; intros (line & Hin & Hs & H); exists line; (split; [exact Hin|]); (split; [exact Hs|]);
    apply header_IndexError; exact H.
Qed.

(** ** Integer literals *)

Lemma uint_value_acc d : forall acc : positive,
  uint_value (Zpos acc) d = Zpos (Pos.of_uint_acc d acc).
Proof.
  induction d; intros acc; cbn [uint_value Pos.of_uint_acc]; try reflexivity;
    match goal with
    | |- uint_value ?z _ = Zpos (Pos.of_uint_acc _ ?p) =>
        replace z with (Zpos p) by lia; apply IHd
    end.
Qed.

Lemma uint_value_0 d : uint_value 0 d = Z.of_N (Pos.of_uint d).
Proof.
  induction d; cbn [uint_value Pos.of_uint]; try reflexivity; try exact IHd;
    match goal with
    | |- uint_value ?z _ = _ => change z with (Zpos (Z.to_pos z)); apply uint_value_acc
    end.
Qed.

Lemma digits_value_uint d : forall acc b,
  (b = true \/ d <> Nil) ->
  Str.digits_value acc b (NilEmpty.string_of_uint d) = Some (uint_value acc d).
Proof.
  induction d; intros acc b Hb; cbn [NilEmpty.string_of_uint uint_value];
    [destruct Hb as [->|H]; [reflexivity | congruence] | ..];
    cbn [Str.digits_value]; apply IHd; left; reflexivity.
Qed.

Lemma to_uint_not_Nil n : N.to_uint n <> Nil.
Proof.
  destruct n as [|p]; [discriminate|]. cbn [N.to_uint].
  intros H. pose proof (DecimalPos.Unsigned.of_to p) as Hp. rewrite H in Hp. discriminate.
Qed.

Lemma decimal_digits_eq n : decimal_digits n = NilEmpty.string_of_uint (N.to_uint n).
Proof.
  unfold decimal_digits, NilZero.string_of_uint.
  pose proof (to_uint_not_Nil n). destruct (N.to_uint n); congruence || reflexivity.
Qed.

Lemma uint_digits d :
  Forall (fun c => Str.isdigit c = true) (list_ascii_of_string (NilEmpty.string_of_uint d)).
Proof.
  induction d; cbn [NilEmpty.string_of_uint list_ascii_of_string]; constructor;
    try reflexivity; exact IHd.
Qed.

Lemma count_digits_all s :
  Forall (fun c => Str.isdigit c = true) (list_ascii_of_string s) ->
  Str.count_digits s = String.length s.
Proof.
  induction s as [|c s IH]; cbn [list_ascii_of_string Str.count_digits String.length];
    [reflexivity|].
  intros H. rewrite (Forall_inv H), IH by exact (Forall_inv_tail H). reflexivity.
Qed.

Lemma lstrip_first space c s : space c = false -> Str.lstrip_with space (String c s) = String c s.
Proof. intros H. cbn [Str.lstrip_with]. rewrite H. reflexivity. Qed.

Lemma rstrip_none space s :
  Forall (fun c => space c = false) (list_ascii_of_string s) -> Str.rstrip_with space s = s.
Proof.
  induction s as [|c s IH]; cbn [list_ascii_of_string Str.rstrip_with]; [reflexivity|].
  intros H. rewrite (IH (Forall_inv_tail H)), (Forall_inv H). destruct s; reflexivity.
Qed.

Lemma isdigit_cases c :
  Str.isdigit c = true ->
  c = "0"%char \/ c = "1"%char \/ c = "2"%char \/ c = "3"%char \/ c = "4"%char \/
  c = "5"%char \/ c = "6"%char \/ c = "7"%char \/ c = "8"%char \/ c = "9"%char.
Proof.
  destruct c as [[] [] [] [] [] [] [] []]; vm_compute; intros H; try discriminate; tauto.
Qed.

Lemma isdigit_not_space c : Str.isdigit c = true -> Str.isspace_c c = false /\ Str.isspace c = false.
Proof.
  intros H. destruct (isdigit_cases c H) as [->|[->|[->|[->|[->|[->|[->|[->|[->| ->]]]]]]]]];
    split; reflexivity.
Qed.

(** [int] reads a decimal numeral back. *)
Lemma int_decimal_digits n :
  (String.length (decimal_digits n) <= 4300)%nat ->
  Str.int (decimal_digits n) = Some (Z.of_N n).
Proof.
  intros Hlen. rewrite decimal_digits_eq in *. unfold Str.int.
  pose proof (uint_digits (N.to_uint n)) as Hd.
  pose proof (to_uint_not_Nil n) as Hn.
  pose proof (DecimalN.Unsigned.of_to n) as Hof. unfold N.of_uint in Hof.
  remember (N.to_uint n) as d eqn:Ed.
  assert (Hstrip : Str.rstrip_with Str.isspace_c
                     (Str.lstrip_with Str.isspace_c (NilEmpty.string_of_uint d))
                   = NilEmpty.string_of_uint d).
  { assert (Hl : Str.lstrip_with Str.isspace_c (NilEmpty.string_of_uint d)
                 = NilEmpty.string_of_uint d).
    { destruct (NilEmpty.string_of_uint d) as [|c s] eqn:E; [reflexivity|].
      apply lstrip_first. cbn [list_ascii_of_string] in Hd.
      apply isdigit_not_space. exact (Forall_inv Hd). }
    rewrite Hl. apply rstrip_none.
    eapply Forall_impl; [|exact Hd]. intros c Hc. apply isdigit_not_space. exact Hc. }
  rewrite Hstrip, (count_digits_all _ Hd).
  replace (4300 <? String.length (NilEmpty.string_of_uint d))%nat with false
    by (symmetry; apply Nat.ltb_ge; exact Hlen).
  assert (Hv : Str.digits_value 0 false (NilEmpty.string_of_uint d) = Some (Z.of_N n)).
  { rewrite digits_value_uint by (right; exact Hn). rewrite uint_value_0, Hof. reflexivity. }
  destruct (NilEmpty.string_of_uint d) as [|c s] eqn:E; [exact Hv|].
  cbn [list_ascii_of_string] in Hd.
  destruct (isdigit_cases c (Forall_inv Hd)) as [->|[->|[->|[->|[->|[->|[->|[->|[->| ->]]]]]]]]];
    exact Hv.
Qed.

(** ** Reading a log back *)

Lemma plain_field_spec s :
  plain_field s = true ->
  Str.contains_char "|" s = false /\ Str.contains_char "010" s = false.
Proof.
  unfold plain_field. intros H. apply andb_prop in H. destruct H as [H1 H2].
  apply negb_true_iff in H1, H2. split; assumption.
Qed.

Lemma digits_no_char c s :
  Str.isdigit c = false ->
  Forall (fun x => Str.isdigit x = true) (list_ascii_of_string s) ->
  Str.contains_char c s = false.
Proof.
  intros Hc. induction s as [|x s IH]; cbn [list_ascii_of_string Str.contains_char];
    [reflexivity|].
  intros H. rewrite (IH (Forall_inv_tail H)), orb_false_r.
  apply Ascii.eqb_neq. intros ->. rewrite (Forall_inv H) in Hc. discriminate.
Qed.

Lemma decimal_digits_plain n c :
  Str.isdigit c = false -> Str.contains_char c (decimal_digits n) = false.
Proof.
  intros Hc. rewrite decimal_digits_eq. apply digits_no_char; [exact Hc | apply uint_digits].
Qed.

Lemma decimal_digits_first n :
  exists c s, decimal_digits n = String c s /\ Str.isdigit c = true.
Proof.
  rewrite decimal_digits_eq. pose proof (uint_digits (N.to_uint n)) as Hd.
  pose proof (to_uint_not_Nil n) as Hn.
  destruct (N.to_uint n); try congruence; cbn [NilEmpty.string_of_uint] in *;
    eexists _, _; (split; [reflexivity|]); reflexivity.
Qed.

Lemma decimal_digits_not_dash n : String.eqb (decimal_digits n) "-" = false.
Proof.
  destruct (decimal_digits_first n) as (c & s & -> & Hc).
  destruct (isdigit_cases c Hc) as [->|[->|[->|[->|[->|[->|[->|[->|[->| ->]]]]]]]]];
    reflexivity.
Qed.

Lemma rstrip_keeps space c s : space c = false -> Str.rstrip_with space (String c s) <> EmptyString.
Proof.
  intros H. cbn [Str.rstrip_with]. destruct (Str.rstrip_with space s); [rewrite H|]; discriminate.
Qed.

Lemma truthy_strip c s : Str.isspace c = false -> Str.truthy (Str.strip (String c s)) = true.
Proof.
  intros H. unfold Str.strip. rewrite lstrip_first by exact H.
  pose proof (rstrip_keeps Str.isspace c s H) as Hr.
  destruct (Str.rstrip_with Str.isspace (String c s)); [congruence | reflexivity].
Qed.

(** A numstat line is read as the change it stands for. *)
Lemma numstat_numstat_line f :
  plain_file f = true -> GitStats.numstat (numstat_line f) = Some (change_of f).
Proof.
  unfold plain_file. intros H. apply andb_prop in H. destruct H as [H Hc].
  apply andb_prop in H. destruct H as [Ht Hn]. apply negb_true_iff in Ht.
  unfold GitStats.numstat, numstat_line, change_of.
  destruct (logged_counts f) as [a d|].
  - apply andb_prop in Hc. destruct Hc as [Ha Hd]. apply Nat.leb_le in Ha, Hd.
    rewrite split_app_sep by (apply decimal_digits_plain; reflexivity).
    rewrite split_app_sep by (apply decimal_digits_plain; reflexivity).
    rewrite (split_no_sep _ _ Ht), !decimal_digits_not_dash.
    rewrite (int_decimal_digits a Ha), (int_decimal_digits d Hd). reflexivity.
  - change (String "-" (String "009" (String "-" (String "009" (logged_name f)))))
      with ("-" ++ String "009" ("-" ++ String "009" (logged_name f)))%string.
    rewrite !split_app_sep by reflexivity. rewrite (split_no_sep _ _ Ht). reflexivity.
Qed.

Lemma numstat_line_shape f :
  Str.startswith "COMMIT:" (numstat_line f) = false /\
  Str.truthy (Str.strip (numstat_line f)) = true /\
  Str.contains_char "009" (numstat_line f) = true.
Proof.
  unfold numstat_line. destruct (logged_counts f) as [a d|].
  - destruct (decimal_digits_first a) as (c & s & -> & Hc). cbn [append].
    split; [|split].
    + destruct (isdigit_cases c Hc) as [->|[->|[->|[->|[->|[->|[->|[->|[->| ->]]]]]]]]];
        reflexivity.
    + apply truthy_strip. apply isdigit_not_space. exact Hc.
    + change (String c (s ++ String "009" (decimal_digits d ++ String "009" (logged_name f))))
        with ((String c s) ++ String "009" (decimal_digits d ++ String "009" (logged_name f)))%string.
      rewrite contains_char_app. cbn [Str.contains_char]. rewrite Ascii.eqb_refl.
      apply orb_true_r.
  - split; [reflexivity|]. split; [apply truthy_strip; reflexivity | reflexivity].
Qed.

Lemma parse_numstat_lines fs : forall closed c rest,
  forallb plain_file fs = true ->
  GitStats.parse_lines (closed, Some c) (map numstat_line fs ++ rest) =
  GitStats.parse_lines
    (closed, Some {| GitStats.hash := GitStats.hash c; GitStats.author := GitStats.author c;
                     GitStats.email := GitStats.email c; GitStats.date := GitStats.date c;
                     GitStats.message := GitStats.message c;
                     GitStats.files := GitStats.files c ++ map change_of fs |}) rest.
Proof.
  induction fs as [|f fs IH]; intros closed c rest Hall; cbn [map app].
  - rewrite app_nil_r. destruct c; reflexivity.
  - cbn [forallb] in Hall. apply andb_prop in Hall. destruct Hall as [Hf Hall].
    rewrite <- app_comm_cons.
    cbn [GitStats.parse_lines]. unfold GitStats.parse_line.
    destruct (numstat_line_shape f) as (H1 & H2 & H3).
    rewrite H1, H2, H3. cbn [snd fst andb].
    rewrite (numstat_numstat_line f Hf). rewrite (IH _ _ _ Hall).
    unfold GitStats.add_file. cbn [GitStats.hash GitStats.author GitStats.email GitStats.date
                                   GitStats.message GitStats.files].
    rewrite <- app_assoc. reflexivity.
Qed.

Lemma plain_commit_spec c :
  plain_commit c = true ->
  (Str.contains_char "|" (logged_hash c) = false /\ Str.contains_char "010" (logged_hash c) = false) /\
  (Str.contains_char "|" (logged_author c) = false /\ Str.contains_char "010" (logged_author c) = false) /\
  (Str.contains_char "|" (logged_email c) = false /\ Str.contains_char "010" (logged_email c) = false) /\
  (Str.contains_char "|" (logged_date c) = false /\ Str.contains_char "010" (logged_date c) = false) /\
  (Str.contains_char "|" (logged_subject c) = false /\ Str.contains_char "010" (logged_subject c) = false) /\
  Str.contains "COMMIT:" (header_fields c) = false /\
  forallb plain_file (logged_files c) = true.
Proof.
  unfold plain_commit. rewrite !andb_true_iff, negb_true_iff.
  intros ((((((H1 & H2) & H3) & H4) & H5) & H6) & H7).
  repeat split; try assumption; apply plain_field_spec; assumption.
Qed.

Lemma header_header_line c :
  plain_commit c = true ->
  Str.startswith "COMMIT:" (header_line c) = true /\
  GitStats.header (header_line c) =
    GitStats.Returns
      {| GitStats.hash := logged_hash c; GitStats.author := logged_author c;
         GitStats.email := logged_email c; GitStats.date := logged_date c;
         GitStats.message := logged_subject c; GitStats.files := [] |}.
Proof.
  intros H. apply plain_commit_spec in H.
  destruct H as ((H1 & _) & (H2 & _) & (H3 & _) & (H4 & _) & (H5 & _) & H6 & _).
  split; [apply prefix_app|].
  unfold GitStats.header, header_line.
  rewrite (replace_at_start "COMMIT:" "" (header_fields c)) by (discriminate || exact H6).
  unfold header_fields. cbn [append].
  rewrite (split_app_sep _ _ _ H1), (split_app_sep _ _ _ H2), (split_app_sep _ _ _ H3),
    (split_app_sep _ _ _ H4), (split_no_sep _ _ H5).
  reflexivity.
Qed.

Lemma parse_commit_lines c : forall st rest,
  plain_commit c = true ->
  GitStats.parse_lines st (commit_lines c ++ rest) =
  GitStats.parse_lines (GitStats.close st, Some (commit_of c)) rest.
Proof.
  intros st rest Hc. destruct (header_header_line c Hc) as [Hs Hh].
  unfold commit_lines. rewrite <- app_comm_cons. cbn [GitStats.parse_lines].
  unfold GitStats.parse_line at 1. rewrite Hs, Hh.
  rewrite <- app_assoc. rewrite parse_numstat_lines.
  - rewrite <- app_comm_cons, app_nil_l. cbn [GitStats.parse_lines].
    unfold GitStats.parse_line. cbn. reflexivity.
  - apply plain_commit_spec in Hc. apply Hc.
Qed.

Lemma parse_log_lines log : forall st,
  forallb plain_commit log = true ->
  GitStats.parse_lines st (flat_map commit_lines log) =
  GitStats.Returns (GitStats.close st ++ map commit_of log).
Proof.
  induction log as [|c log IH]; intros st Hall; cbn [flat_map map].
  - rewrite app_nil_r. reflexivity.
  - cbn [forallb] in Hall. apply andb_prop in Hall. destruct Hall as [Hc Hall].
    rewrite (parse_commit_lines c st _ Hc), (IH _ Hall).
    unfold GitStats.close at 1. cbn [snd fst]. rewrite <- app_assoc. reflexivity.
Qed.

Lemma line_breaks_numstat f :
  plain_file f = true -> Str.contains_char "010" (numstat_line f) = false.
Proof.
  unfold plain_file. intros H. apply andb_prop in H. destruct H as [H _].
  apply andb_prop in H. destruct H as [_ Hn]. apply negb_true_iff in Hn.
  unfold numstat_line. destruct (logged_counts f) as [a d|].
  - rewrite !contains_char_app. cbn [Str.contains_char].
    rewrite !contains_char_app. cbn [Str.contains_char].
    rewrite !decimal_digits_plain by reflexivity. rewrite Hn. reflexivity.
  - cbn [Str.contains_char]. rewrite Hn. reflexivity.
Qed.

Lemma line_breaks_header c :
  plain_commit c = true -> Str.contains_char "010" (header_line c) = false.
Proof.
  intros H. apply plain_commit_spec in H.
  destruct H as ((_ & H1) & (_ & H2) & (_ & H3) & (_ & H4) & (_ & H5) & _).
  unfold header_line, header_fields.
  rewrite !contains_char_app. cbn [Str.contains_char Ascii.eqb].
  rewrite H1, H2, H3, H4, H5. reflexivity.
Qed.

Lemma parse_render_log (log : list LoggedCommit) :
  forallb plain_commit log = true ->
  GitStats.parse_git_log (render_log log) = GitStats.Returns (map commit_of log).
Proof.
  intros Hall. unfold GitStats.parse_git_log, render_log.
  destruct log as [|c log]; [reflexivity|].
  rewrite split_join.
  - rewrite parse_log_lines by exact Hall. reflexivity.
  - discriminate.
  - apply Forall_forall. intros l Hl. apply in_flat_map in Hl. destruct Hl as (c' & Hc' & Hl).
    rewrite forallb_forall in Hall. specialize (Hall c' Hc').
    destruct Hl as [<-|Hl]; [apply line_breaks_header; exact Hall|].
    apply in_app_or in Hl. destruct Hl as [Hl|[<-|[]]]; [|reflexivity].
    apply in_map_iff in Hl. destruct Hl as (f & <- & Hf). apply line_breaks_numstat.
    apply plain_commit_spec in Hall. destruct Hall as (_ & _ & _ & _ & _ & _ & Hfs).
    rewrite forallb_forall in Hfs. apply Hfs. exact Hf.
Qed.

(** X16: A log that git prints in which no header field holds a bar and no
    header holds the text [COMMIT:] after its start is read back as it
    was written: the commits in order, each with its five header fields
    and its file changes, a binary file as a change of no line. *)
Theorem parse_reads_the_log_back (log : list LoggedCommit) :
  forallb plain_commit log = true ->
  GitStats.parse_git_log (render_log log) = GitStats.Returns (map commit_of log).
Proof. exact (parse_render_log log). Qed.

Lemma parse_reads_the_log_back_witness :
  forallb plain_commit sample_log = true /\
  GitStats.parse_git_log (render_log sample_log) = GitStats.Returns (map commit_of sample_log).
Proof.
  assert (H : forallb plain_commit sample_log = true) by (vm_compute; reflexivity).
  split; [exact H|]. exact (parse_reads_the_log_back sample_log H).
Defined.

(** ** What the parser loses *)

(** X17: A bar in the subject ends the message.  Take a header whose fields
    hold no bar and no line break; when a bar and more text are added to
    its subject, and the header still holds the text [COMMIT:] at its
    start only, the parser reads the same commit as before: what follows
    the bar is not read. *)
Theorem header_cuts_the_subject_at_a_bar (c : LoggedCommit) (tail : string) :
  plain_commit c = true ->
  Str.contains "COMMIT:" (header_fields c ++ "|" ++ tail) = false ->
  GitStats.header (header_line c ++ "|" ++ tail) =
    GitStats.Returns
      {| GitStats.hash := logged_hash c; GitStats.author := logged_author c;
         GitStats.email := logged_email c; GitStats.date := logged_date c;
         GitStats.message := logged_subject c; GitStats.files := [] |}.
Proof.
  intros H Htail. apply plain_commit_spec in H.
  destruct H as ((H1 & _) & (H2 & _) & (H3 & _) & (H4 & _) & (H5 & _) & _ & _).
  unfold GitStats.header, header_line.
  replace ("COMMIT:" ++ header_fields c ++ "|" ++ tail)%string
    with ("COMMIT:" ++ (header_fields c ++ "|" ++ tail))%string by reflexivity.
  assert (Ha : (("COMMIT:" ++ header_fields c) ++ "|" ++ tail
                = "COMMIT:" ++ (header_fields c ++ "|" ++ tail))%string) by reflexivity.
  rewrite Ha.
  rewrite (replace_at_start "COMMIT:" "" _) by (discriminate || exact Htail).
  unfold header_fields. cbn [append].
  assert (Happ : forall a b c' : string, ((a ++ b) ++ c' = a ++ (b ++ c'))%string).
  { intros a b c'. induction a as [|x a IH]; cbn [append]; [reflexivity | rewrite IH; reflexivity]. }
  repeat (rewrite Happ; cbn [append]).
  rewrite (split_app_sep _ _ _ H1), (split_app_sep _ _ _ H2), (split_app_sep _ _ _ H3),
    (split_app_sep _ _ _ H4), (split_app_sep _ _ _ H5).
  reflexivity.
Qed.

Lemma header_cuts_the_subject_at_a_bar_witness :
  plain_commit (hd_commit sample_log) = true /\
  Str.contains "COMMIT:" (header_fields (hd_commit sample_log) ++ "|" ++ "and the tests") = false /\
  GitStats.header (header_line (hd_commit sample_log) ++ "|" ++ "and the tests") =
    GitStats.Returns
      {| GitStats.hash := "9fceb02"; GitStats.author := "Ann";
         GitStats.email := "ann@example.org"; GitStats.date := "2024-05-06 10:00:00 +0000";
         GitStats.message := "Add the parser"; GitStats.files := [] |}.
Proof.
  assert (H1 : plain_commit (hd_commit sample_log) = true) by (vm_compute; reflexivity).
  assert (H2 : Str.contains "COMMIT:"
                 (header_fields (hd_commit sample_log) ++ "|" ++ "and the tests") = false)
    by (vm_compute; reflexivity).
  split; [exact H1|]. split; [exact H2|].
  exact (header_cuts_the_subject_at_a_bar (hd_commit sample_log) "and the tests" H1 H2).
Defined.

(** ** From the log to the totals *)

Lemma change_of_added fs :
  map GitStats.added (map change_of fs) = map logged_added fs /\
  map GitStats.deleted (map change_of fs) = map logged_deleted fs.
Proof.
  induction fs as [|f fs [IH1 IH2]]; [split; reflexivity|]. cbn [map].
  rewrite IH1, IH2. unfold change_of, logged_added, logged_deleted.
  destruct (logged_counts f); split; reflexivity.
Qed.

Lemma header_line_bars c : (3 <= count_char "|" (header_line c))%nat.
Proof.
  unfold header_line, header_fields. rewrite !count_char_app.
  change (count_char "|" "|") with 1%nat. lia.
Qed.

(** Every header line that git prints opens a commit without files. *)
Lemma header_of_header_line c :
  exists h, GitStats.header (header_line c) = GitStats.Returns h /\ GitStats.files h = [].
Proof.
  destruct (GitStats.header (header_line c)) as [h|] eqn:E.
  - exists h. split; [reflexivity|]. unfold GitStats.header in E.
    destruct (Str.split "|" (Str.replace "COMMIT:" "" (header_line c)))
      as [|p0 [|p1 [|p2 [|p3 rest]]]]; try discriminate.
    injection E as <-. reflexivity.
  - apply header_IndexError in E. pose proof (header_line_bars c). lia.
Qed.

Lemma parse_printed_commit c : forall st rest,
  printed_commit c = true ->
  exists h,
    GitStats.parse_lines st (commit_lines c ++ rest)
      = GitStats.parse_lines (GitStats.close st, Some h) rest /\
    GitStats.files h = changes_of c.
Proof.
  intros st rest Hc. unfold printed_commit in Hc. apply andb_prop in Hc. destruct Hc as [_ Hfs].
  destruct (header_of_header_line c) as (h & Hh & Hnil).
  eexists. split.
  - unfold commit_lines. rewrite <- app_comm_cons. cbn [GitStats.parse_lines].
    unfold GitStats.parse_line at 1. unfold header_line at 1.
    unfold Str.startswith. rewrite prefix_app. fold (header_line c). rewrite Hh.
    rewrite <- app_assoc. rewrite parse_numstat_lines by exact Hfs.
    rewrite <- app_comm_cons, app_nil_l. cbn [GitStats.parse_lines].
    unfold GitStats.parse_line. cbn. reflexivity.
  - cbn [GitStats.files]. rewrite Hnil. reflexivity.
Qed.

Lemma parse_printed_lines log : forall st,
  forallb printed_commit log = true ->
  exists commits,
    GitStats.parse_lines st (flat_map commit_lines log)
      = GitStats.Returns (GitStats.close st ++ commits) /\
    map GitStats.files commits = map changes_of log.
Proof.
  induction log as [|c log IH]; intros st Hall; cbn [flat_map map].
  - exists []. rewrite app_nil_r. split; reflexivity.
  - cbn [forallb] in Hall. apply andb_prop in Hall. destruct Hall as [Hc Hall].
    destruct (parse_printed_commit c st (flat_map commit_lines log) Hc) as (h & Hp & Hf).
    destruct (IH (GitStats.close st, Some h) Hall) as (commits & Hcs & Hfs).
    exists (h :: commits). split.
    + rewrite Hp, Hcs. unfold GitStats.close at 1. cbn [snd fst].
      rewrite <- app_assoc. reflexivity.
    + cbn [map]. rewrite Hf, Hfs. reflexivity.
Qed.

(** A printed log is parsed, and the file changes of its commits are
    those that the log stands for, commit by commit. *)
Lemma parse_printed_log (log : list LoggedCommit) :
  forallb printed_commit log = true ->
  exists commits,
    GitStats.parse_git_log (render_log log) = GitStats.Returns commits /\
    map GitStats.files commits = map changes_of log.
Proof.
  intros Hall. unfold GitStats.parse_git_log, render_log.
  destruct log as [|c log]; [exists []; split; reflexivity|].
  rewrite split_join.
  - destruct (parse_printed_lines (c :: log) ([], None) Hall) as (commits & Hp & Hf).
    exists commits. split; [exact Hp | exact Hf].
  - discriminate.
  - apply Forall_forall. intros l Hl. apply in_flat_map in Hl. destruct Hl as (c' & Hc' & Hl).
    rewrite forallb_forall in Hall. specialize (Hall c' Hc').
    unfold printed_commit in Hall. apply andb_prop in Hall. destruct Hall as [Hh Hfs].
    apply negb_true_iff in Hh.
    destruct Hl as [<-|Hl].
    + unfold header_line. rewrite contains_char_app, Hh. reflexivity.
    + apply in_app_or in Hl. destruct Hl as [Hl|[<-|[]]]; [|reflexivity].
      apply in_map_iff in Hl. destruct Hl as (f & <- & Hf). apply line_breaks_numstat.
      rewrite forallb_forall in Hfs. apply Hfs. exact Hf.
Qed.

Lemma flat_map_changes_of log :
  flat_map changes_of log = map change_of (flat_map logged_files log).
Proof.
  induction log as [|c log IH]; [reflexivity|]. cbn [flat_map].
  rewrite IH, map_app. reflexivity.
Qed.

Lemma flat_map_files commits : forall log,
  map GitStats.files commits = map changes_of log ->
  flat_map GitStats.files commits = map change_of (flat_map logged_files log).
Proof.
  intros log H. rewrite <- flat_map_changes_of, !flat_map_concat_map, H. reflexivity.
Qed.

Lemma filter_has_files commits : forall log,
  map GitStats.files commits = map changes_of log ->
  len (filter GitStats.has_files commits) = len (filter logged_has_files log).
Proof.
  unfold len. induction commits as [|h commits IH]; intros [|c log] H; try discriminate;
    [reflexivity|].
  cbn [map] in H. injection H as Hh Ht. cbn [filter].
  assert (E : GitStats.has_files h = logged_has_files c).
  { unfold GitStats.has_files, logged_has_files. rewrite Hh. unfold changes_of.
    destruct (logged_files c); reflexivity. }
  rewrite E. specialize (IH log Ht).
  destruct (logged_has_files c); cbn [List.length]; lia.
Qed.

(** The totals of a printed log. *)
Lemma printed_log_totals (log : list LoggedCommit) :
  forallb printed_commit log = true ->
  exists commits,
    GitStats.parse_git_log (render_log log) = GitStats.Returns commits /\
    let stats := GitStats.analyze_commits commits in
    GitStats.total_commits stats = len (filter logged_has_files log) /\
    GitStats.total_added stats = Zsum (map logged_added (flat_map logged_files log)) /\
    GitStats.total_deleted stats = Zsum (map logged_deleted (flat_map logged_files log)) /\
    dict_sum GitStats.ext_files (GitStats.by_extension stats)
      = len (flat_map logged_files log).
Proof.
  intros Hall. destruct (parse_printed_log log Hall) as (commits & Hp & Hfs).
  exists commits. split; [exact Hp|].
  destruct (analyze_totals commits) as (Ha & Hd & _ & _ & _ & _ & _ & Hf).
  cbv zeta in *. rewrite (flat_map_files _ _ Hfs) in Ha, Hd, Hf.
  destruct (change_of_added (flat_map logged_files log)) as [E1 E2].
  rewrite E1 in Ha. rewrite E2 in Hd. unfold len in Hf. rewrite length_map in Hf.
  split; [|repeat split; assumption].
  unfold GitStats.analyze_commits. cbn [GitStats.total_commits].
  apply filter_has_files. exact Hfs.
Qed.

(** X22: Parsing and analysing compose: for a log that git prints, whatever
    bars and marker texts its header fields hold, the totals are the
    sums of the counts printed in the log, binary files counting for no
    line, the commits counted are those that change a file, and every
    file is counted under one extension. *)
Theorem totals_of_a_log (log : list LoggedCommit) :
  forallb printed_commit log = true ->
  exists commits,
    GitStats.parse_git_log (render_log log) = GitStats.Returns commits /\
    map GitStats.files commits = map changes_of log /\
    let stats := GitStats.analyze_commits commits in
    GitStats.total_commits stats = len (filter logged_has_files log) /\
    GitStats.total_added stats = Zsum (map logged_added (flat_map logged_files log)) /\
    GitStats.total_deleted stats = Zsum (map logged_deleted (flat_map logged_files log)) /\
    dict_sum GitStats.ext_files (GitStats.by_extension stats)
      = len (flat_map logged_files log).
Proof.
  intros Hall. destruct (parse_printed_log log Hall) as (commits & Hp & Hfs).
  destruct (printed_log_totals log Hall) as (commits' & Hp' & Ht).
  rewrite Hp in Hp'. injection Hp' as <-.
  exists commits. split; [exact Hp|]. split; [exact Hfs | exact Ht].
Qed.

Lemma totals_of_a_log_witness :
  forallb printed_commit marked_log = true /\
  exists commits,
    GitStats.parse_git_log (render_log marked_log) = GitStats.Returns commits /\
    map GitStats.files commits = map changes_of marked_log /\
    let stats := GitStats.analyze_commits commits in
    GitStats.total_commits stats = len (filter logged_has_files marked_log) /\
    GitStats.total_added stats = Zsum (map logged_added (flat_map logged_files marked_log)) /\
    GitStats.total_deleted stats = Zsum (map logged_deleted (flat_map logged_files marked_log)) /\
    dict_sum GitStats.ext_files (GitStats.by_extension stats)
      = len (flat_map logged_files marked_log).
Proof.
  assert (H : forallb printed_commit marked_log = true) by (vm_compute; reflexivity).
  split; [exact H|]. exact (totals_of_a_log marked_log H).
Defined.

(** ** The report *)

Section Sorting.
Context {A : Type} (key : A -> Z).

Lemma insert_Permutation x l : Permutation (Report.insert key x l) (x :: l).
Proof.
  induction l as [|y l IH]; cbn [Report.insert]; [reflexivity|].
  destruct (key x <? key y); [|reflexivity].
  rewrite IH. apply perm_swap.
Qed.

Lemma sorted_reverse_Permutation l : Permutation (Report.sorted_reverse key l) l.
Proof.
  induction l as [|x l IH]; cbn [Report.sorted_reverse fold_right]; [reflexivity|].
  rewrite insert_Permutation. apply perm_skip. exact IH.
Qed.

Lemma insert_descending x l :
  StronglySorted (descending key) l -> StronglySorted (descending key) (Report.insert key x l).
Proof.
  induction l as [|y l IH]; intros Hs; cbn [Report.insert].
  - constructor; constructor.
  - inversion Hs as [|? ? Hl Hy]; subst.
    destruct (key x <? key y) eqn:E.
    + constructor; [apply IH; exact Hl|].
      apply Forall_forall. intros z Hz.
      apply (Permutation_in _ (insert_Permutation x l)) in Hz.
      destruct Hz as [<-|Hz].
      * unfold descending. apply Z.ltb_lt in E. lia.
      * rewrite Forall_forall in Hy. apply Hy. exact Hz.
    + constructor; [exact Hs|].
      apply Z.ltb_ge in E. constructor; [exact E|].
      apply Forall_forall. intros z Hz. rewrite Forall_forall in Hy.
      specialize (Hy z Hz). unfold descending in *. lia.
Qed.

Lemma sorted_reverse_descending l : StronglySorted (descending key) (Report.sorted_reverse key l).
Proof.
  induction l as [|x l IH]; cbn [Report.sorted_reverse fold_right]; [constructor|].
  apply insert_descending. exact IH.
Qed.

Lemma insert_stable k x l :
  filter (fun y => key y =? k) (Report.insert key x l) = filter (fun y => key y =? k) (x :: l).
Proof.
  induction l as [|y l IH]; cbn [Report.insert]; [reflexivity|].
  destruct (key x <? key y) eqn:E; [|reflexivity].
  apply Z.ltb_lt in E. cbn [filter] in *. rewrite IH.
  destruct (key x =? k) eqn:Ex, (key y =? k) eqn:Ey; try reflexivity.
  apply Z.eqb_eq in Ex, Ey. lia.
Qed.

Lemma sorted_reverse_stable k l :
  filter (fun y => key y =? k) (Report.sorted_reverse key l) = filter (fun y => key y =? k) l.
Proof.
  induction l as [|x l IH]; cbn [Report.sorted_reverse fold_right]; [reflexivity|].
  rewrite insert_stable. cbn [filter]. fold (Report.sorted_reverse key l). rewrite IH. reflexivity.
Qed.

Lemma descending_app l1 l2 :
  StronglySorted (descending key) (l1 ++ l2) ->
  StronglySorted (descending key) l1 /\
  forall a b, In a l1 -> In b l2 -> key b <= key a.
Proof.
  induction l1 as [|x l1 IH]; cbn [app]; intros Hs.
  - split; [constructor | intros a b []].
  - inversion Hs as [|? ? Hl Hx]; subst. destruct (IH Hl) as [IH1 IH2].
    apply Forall_app in Hx. destruct Hx as [Hx1 Hx2]. split.
    + constructor; assumption.
    + intros a b [<-|Ha] Hb; [|apply IH2; assumption].
      rewrite Forall_forall in Hx2. apply Hx2. exact Hb.
Qed.

Lemma firstn_largest n l :
  largest key (Z.of_nat n) l (firstn n (Report.sorted_reverse key l)).
Proof.
  unfold largest. split; [|split].
  - unfold len. rewrite length_firstn.
    rewrite (Permutation_length (sorted_reverse_Permutation l)). lia.
  - apply (descending_app _ (skipn n (Report.sorted_reverse key l))).
    rewrite firstn_skipn. apply sorted_reverse_descending.
  - exists (skipn n (Report.sorted_reverse key l)). split; [|split].
    + rewrite firstn_skipn. apply sorted_reverse_Permutation.
    + apply descending_app. rewrite firstn_skipn. apply sorted_reverse_descending.
    + intros k. rewrite firstn_skipn. apply sorted_reverse_stable.
Qed.

End Sorting.

(** X23: The report lists the fifteen file types with the most changed lines
    and the twenty features with the most changed lines, each list by
    decreasing lines; what it leaves out has no more lines than what it
    lists, and entries of equal lines keep the order of the
    statistics. *)
Theorem report_lists_the_largest (stats : GitStats.Stats) :
  largest Report.ext_total 15 (GitStats.by_extension stats) (Report.top_extensions stats) /\
  largest GitStats.lines 20 (GitStats.features stats) (Report.top_features stats).
Proof.
  split.
  - exact (firstn_largest Report.ext_total 15 (GitStats.by_extension stats)).
  - exact (firstn_largest GitStats.lines 20 (GitStats.features stats)).
Qed.

(** X24: From the log to the report: for a log that git prints, whatever
    bars and marker texts its header fields hold, the run ends normally,
    and after the title the report gives the number of commits that
    change a file, the lines that the log adds and deletes, binary files
    counting for none, and their difference. *)
Theorem main_reports_the_totals_of_the_log (log : list LoggedCommit) :
  forallb printed_commit log = true ->
  let added := Zsum (map logged_added (flat_map logged_files log)) in
  let deleted := Zsum (map logged_deleted (flat_map logged_files log)) in
  exists rest,
    Report.main (render_log log) =
      ( [ "Analyzing git history...";
          Report.rule;
          "GIT HISTORY ANALYSIS - LAST 7 DAYS";
          Report.rule;
          "";
          "📊 OVERALL STATISTICS";
          "   Total Commits (non-merge): " ++ Format.str (len (filter logged_has_files log));
          "   Total Lines Added: " ++ Format.commas added;
          "   Total Lines Deleted: " ++ Format.commas deleted;
          "   Net Lines Changed: " ++ Format.commas (added - deleted);
          "";
          "👥 BY AUTHOR" ]%string ++ rest,
        GitStats.Returns tt ).
Proof.
  intros Hall added deleted. unfold Report.main.
  destruct (printed_log_totals log Hall) as (commits & Hp & Hc & Ha & Hd & _).
  rewrite Hp. cbv zeta in Hc, Ha, Hd. fold added in Ha. fold deleted in Hd.
  cbv zeta. unfold Report.print_report. rewrite Ha, Hd, Hc.
  eexists. cbn [app]. reflexivity.
Qed.

Lemma main_reports_the_totals_of_the_log_witness :
  forallb printed_commit marked_log = true /\
  exists rest,
    Report.main (render_log marked_log) =
      ( [ "Analyzing git history...";
          Report.rule;
          "GIT HISTORY ANALYSIS - LAST 7 DAYS";
          Report.rule;
          "";
          "📊 OVERALL STATISTICS";
          "   Total Commits (non-merge): 2";
          "   Total Lines Added: 123";
          "   Total Lines Deleted: 7";
          "   Net Lines Changed: 116";
          "";
          "👥 BY AUTHOR" ]%string ++ rest,
        GitStats.Returns tt ).
Proof.
  assert (H : forallb printed_commit marked_log = true) by (vm_compute; reflexivity).
  split; [exact H|]. exact (main_reports_the_totals_of_the_log marked_log H).
Defined.

(** * The request handlers *)

(** ** A timestamp is no float literal *)

Lemma isoformat_colon t : Str.contains_char ":" (Isoformat.isoformat t) = true.
Proof.
  unfold Isoformat.isoformat.
  destruct (Isoformat.ord2ymd _) as [[year month] day].
  rewrite !contains_char_app.
  change (Str.contains_char ":" ":") with true.
  rewrite !orb_true_r, ?orb_true_l. reflexivity.
Qed.

Lemma lstrip_keeps space c s :
  space c = false -> Str.contains_char c s = true ->
  Str.contains_char c (Str.lstrip_with space s) = true.
Proof.
  intros Hc. induction s as [|x s IH]; cbn [Str.lstrip_with Str.contains_char]; [discriminate|].
  destruct (space x) eqn:Hx; [|auto].
  destruct (Ascii.eqb x c) eqn:E; [apply Ascii.eqb_eq in E; congruence | exact IH].
Qed.

Lemma rstrip_keeps_char space c s :
  space c = false -> Str.contains_char c s = true ->
  Str.contains_char c (Str.rstrip_with space s) = true.
Proof.
  intros Hc. induction s as [|x s IH]; cbn [Str.rstrip_with Str.contains_char]; [discriminate|].
  destruct (Ascii.eqb x c) eqn:E; cbn [orb].
  - intros _. apply Ascii.eqb_eq in E. subst x.
    destruct (Str.rstrip_with space s); [rewrite Hc|]; cbn [Str.contains_char];
      rewrite Ascii.eqb_refl; reflexivity.
  - intros H. specialize (IH H).
    destruct (Str.rstrip_with space s) as [|y r]; [discriminate IH|].
    cbn [Str.contains_char] in *. rewrite E. exact IH.
Qed.

Lemma remove_underscores_keeps c s :
  Ascii.eqb c "_" = false ->
  Str.contains_char c (FloatLiteral.remove_underscores s) = Str.contains_char c s.
Proof.
  intros Hc. induction s as [|x s IH]; cbn [FloatLiteral.remove_underscores Str.contains_char];
    [reflexivity|].
  destruct (Ascii.eqb x "_") eqn:E.
  - apply Ascii.eqb_eq in E. subst x. rewrite Ascii.eqb_sym, Hc. exact IH.
  - cbn [Str.contains_char]. rewrite IH. reflexivity.
Qed.

Lemma read_sign_keeps c s :
  Ascii.eqb c "+" = false -> Ascii.eqb c "-" = false ->
  Str.contains_char c s = true ->
  Str.contains_char c (snd (FloatLiteral.read_sign s)) = true.
Proof.
  intros Hp Hm. destruct s as [|x s]; cbn [FloatLiteral.read_sign]; [auto|].
  destruct (Ascii.eqb x "+") eqn:E1; [|destruct (Ascii.eqb x "-") eqn:E2]; cbn [snd]; auto.
  - apply Ascii.eqb_eq in E1. subst x. cbn [Str.contains_char].
    rewrite Ascii.eqb_sym, Hp. auto.
  - apply Ascii.eqb_eq in E2. subst x. cbn [Str.contains_char].
    rewrite Ascii.eqb_sym, Hm. auto.
Qed.

Lemma span_digits_keeps c s :
  Str.isdigit c = false -> Str.contains_char c s = true ->
  Str.contains_char c (snd (FloatLiteral.span_digits s)) = true.
Proof.
  intros Hc. induction s as [|x s IH]; cbn [FloatLiteral.span_digits Str.contains_char];
    [discriminate|].
  destruct (Str.isdigit x) eqn:Hx.
  - destruct (Ascii.eqb x c) eqn:E; [apply Ascii.eqb_eq in E; congruence|]. cbn [orb].
    intros H. specialize (IH H). destruct (FloatLiteral.span_digits s). exact IH.
  - cbn [snd Str.contains_char]. auto.
Qed.

Lemma lower_ascii_colon x : Ascii.eqb (lower_ascii x) ":" = Ascii.eqb x ":".
Proof. destruct x as [[] [] [] [] [] [] [] []]; reflexivity. Qed.

Lemma lower_colon s : Str.contains_char ":" (lower s) = Str.contains_char ":" s.
Proof.
  induction s as [|x s IH]; cbn [lower Str.contains_char]; [reflexivity|].
  rewrite lower_ascii_colon, IH. reflexivity.
Qed.

Lemma read_exponent_colon s :
  Str.contains_char ":" s = true -> FloatLiteral.read_exponent s = None.
Proof.
  destruct s as [|c s]; cbn [Str.contains_char FloatLiteral.read_exponent]; [discriminate|].
  destruct (Ascii.eqb c "e" || Ascii.eqb c "E") eqn:E; [|reflexivity].
  assert (Hc : Ascii.eqb c ":" = false).
  { apply orb_prop in E. destruct E as [E|E]; apply Ascii.eqb_eq in E; subst c; reflexivity. }
  rewrite Hc. cbn [orb]. intros H.
  pose proof (read_sign_keeps ":" s eq_refl eq_refl H) as Hs.
  destruct (FloatLiteral.read_sign s) as [negative s'']. cbn [snd] in Hs.
  pose proof (span_digits_keeps ":" s'' eq_refl Hs) as Hd.
  destruct (FloatLiteral.span_digits s'') as [d rest]. cbn [snd] in Hd.
  destruct d; [reflexivity|]. destruct rest; [discriminate Hd | reflexivity].
Qed.

Lemma read_number_colon negative s :
  Str.contains_char ":" s = true -> FloatLiteral.read_number negative s = None.
Proof.
  intros H. unfold FloatLiteral.read_number.
  pose proof (span_digits_keeps ":" s eq_refl H) as H1.
  destruct (FloatLiteral.span_digits s) as [int_part rest]. cbn [snd] in H1.
  destruct rest as [|c rest']; [discriminate H1|].
  destruct (Ascii.eqb c ".") eqn:E.
  - apply Ascii.eqb_eq in E. subst c. cbn [Str.contains_char Ascii.eqb orb] in H1.
    change (Ascii.eqb "." ":") with false in H1. cbn [orb] in H1.
    pose proof (span_digits_keeps ":" rest' eq_refl H1) as H2.
    destruct (FloatLiteral.span_digits rest') as [frac_part rest2]. cbn [snd] in H2.
    rewrite (read_exponent_colon _ H2).
    destruct int_part, frac_part; reflexivity.
  - rewrite (read_exponent_colon _ H1). destruct int_part; reflexivity.
Qed.

(** No text with a colon is a float literal. *)
Lemma float_of_str_colon s :
  Str.contains_char ":" s = true -> FloatLiteral.float_of_str s = None.
Proof.
  intros H. unfold FloatLiteral.float_of_str.
  apply (lstrip_keeps Str.isspace_c ":" s eq_refl) in H.
  apply (rstrip_keeps_char Str.isspace_c ":" _ eq_refl) in H.
  remember (Str.rstrip_with Str.isspace_c (Str.lstrip_with Str.isspace_c s)) as t eqn:Et.
  destruct (FloatLiteral.underscores_ok false t); [|reflexivity].
  rewrite <- (remove_underscores_keeps ":" t eq_refl) in H.
  apply (read_sign_keeps ":" _ eq_refl eq_refl) in H.
  destruct (FloatLiteral.read_sign (FloatLiteral.remove_underscores t)) as [negative u].
  cbn [snd] in H.
  destruct (String.eqb (lower u) "inf") eqn:E1.
  { apply String.eqb_eq in E1. rewrite <- lower_colon, E1 in H. discriminate. }
  destruct (String.eqb (lower u) "infinity") eqn:E2.
  { apply String.eqb_eq in E2. rewrite <- lower_colon, E2 in H. discriminate. }
  destruct (String.eqb (lower u) "nan") eqn:E3.
  { apply String.eqb_eq in E3. rewrite <- lower_colon, E3 in H. discriminate. }
  cbn [orb]. apply read_number_colon. exact H.
Qed.

(** X11: The adoption endpoint cannot return a forecast.  A history of two
    or more records none of which holds an adoption rate is answered
    with the status 500 and the predictor's [KeyError].  Any other
    request that forecasts a period is answered with the status 500 as
    well: either the predictor raises [OverflowError], or the response
    is refused, as a timestamp is no [float].  Any other request that
    forecasts no period is answered with empty lists. *)
Theorem predict_adoption_answers (clock : Z -> Z)
    (request : Api.AdoptionPredictionRequest) :
  (2 <= len (Api.historical_data request) /\
   existsb AdoptionPredictor.has_adoption_rate (Api.historical_data request) = false ->
   Api.predict_adoption clock request = Api.HTTPException 500 (Api.Raised KeyError)) /\
  (len (Api.historical_data request) < 2 \/
   existsb AdoptionPredictor.has_adoption_rate (Api.historical_data request) = true ->
   (1 <= Api.forecast_periods request ->
    Api.predict_adoption clock request = Api.HTTPException 500 (Api.Raised OverflowError) \/
    Api.predict_adoption clock request = Api.HTTPException 500 Api.ValidationError) /\
   (Api.forecast_periods request < 1 ->
    Api.predict_adoption clock request =
      Api.Response
        {| Api.adoption_response_organization_id := Api.adoption_organization_id request;
           Api.predictions := [];
           Api.confidence_intervals := [];
           Api.key_drivers :=
             [ "Training completion rate"; "Champion engagement";
               "Feature availability"; "Leadership support" ]%string;
           Api.adoption_recommendations :=
             [ "Increase training accessibility"; "Activate champion program";
               "Communicate quick wins"; "Measure and share success stories" ]%string |})).
Proof.
  unfold Api.predict_adoption. split.
  - intros [Hge Hno]. rewrite (predict_KeyError clock _ _ Hge Hno). reflexivity.
  - intros Hcol.
    destruct (trend_Ok _ Hcol) as (kind & b & g & Ht). split.
    + intros Hn.
      destruct (AdoptionPredictor.predict clock (Api.historical_data request)
                  (Api.forecast_periods request)) as [[ps cs]|e] eqn:Hp.
      * right.
        unfold AdoptionPredictor.predict in Hp. rewrite Ht in Hp. cbn [bind] in Hp.
        invert_binds Hp. injection Hp as <- <-.
        apply mapM_Ok_inv in E.
        assert (Hr : range 1 (Api.forecast_periods request + 1)
                     = 1 :: range 2 (Api.forecast_periods request + 1)).
        { unfold range. replace (Z.to_nat (Api.forecast_periods request + 1 - 1))
            with (S (Z.to_nat (Api.forecast_periods request + 1 - 2))) by lia.
          reflexivity. }
        rewrite Hr in E. inversion E as [|i [p c] l steps Hstep Hrest]; subst.
        cbn [map fst Api.validate_dicts].
        apply forecast_step_inv in Hstep. destruct Hstep as (fi & Hfi & _ & _ & Hpc & _).
        assert (Hv : Api.validate_dict (Api.prediction_dict p) = inl Api.ValidationError).
        { unfold Api.prediction_dict. cbn [Api.validate_dict Api.validate_float].
          rewrite Hpc. cbn [AdoptionPredictor.period]. rewrite Hfi.
          rewrite (float_of_str_colon _ (isoformat_colon _)). reflexivity. }
        rewrite Hv. reflexivity.
      * left. unfold AdoptionPredictor.predict in Hp. rewrite Ht in Hp. cbn [bind] in Hp.
        destruct (mapM _ _) as [steps|e'] eqn:Hm in Hp; cbn [bind] in Hp; [discriminate|].
        injection Hp as <-. apply mapM_Raise_inv in Hm. destruct Hm as (i & _ & Hs).
        apply forecast_step_exn in Hs. subst e'. reflexivity.
    + intros Hn. unfold AdoptionPredictor.predict. rewrite Ht. cbn [bind].
      rewrite range_empty by lia. reflexivity.
Qed.

(** ** The other endpoints *)



(** X12: The ROI endpoint answers 500 for [employee_count = 0] (the
    predictor divides by the costs) and answers every other count within
    the binary64 range; the costs are returned as floats. *)
Theorem predict_roi_answers (request : Api.ROIPredictionRequest) :
  (Api.employee_count request = 0 ->
   Api.predict_roi request = Api.HTTPException 500 (Api.Raised ZeroDivisionError)) /\
  (Api.employee_count request <> 0 ->
   Z.abs (Api.employee_count request) * 1200 < 2 ^ 1023 ->
   exists result response costs1 costs2,
     ROIPredictor.predict (Api.employee_count request) (Api.industry request)
       (Api.company_size request) = Ok result /\
     Api.predict_roi request = Api.Response response /\
     float_of_int (510 * Api.employee_count request) = Ok costs1 /\
     float_of_int (360 * Api.employee_count request) = Ok costs2 /\
     Api.predicted_roi response = ROIPredictor.predicted_roi result /\
     Api.breakeven_month response = ROIPredictor.breakeven_month result /\
     Api.year1_projection response =
       [ ("costs", costs1); ("benefits", ROIPredictor.benefits (ROIPredictor.year1 result));
         ("roi", ROIPredictor.roi (ROIPredictor.year1 result)) ]%string /\
     Api.year2_projection response =
       [ ("costs", costs2); ("benefits", ROIPredictor.benefits (ROIPredictor.year2 result));
         ("roi", ROIPredictor.roi (ROIPredictor.year2 result)) ]%string /\
     Api.year3_projection response =
       [ ("costs", costs2); ("benefits", ROIPredictor.benefits (ROIPredictor.year3 result));
         ("roi", ROIPredictor.roi (ROIPredictor.year3 result)) ]%string).
Proof.
  unfold Api.predict_roi. split.
  - intros ->. rewrite predict_zero. reflexivity.
  - intros Hn Hb.
    remember (Api.employee_count request) as n eqn:En.
    assert (Hr : exists result, ROIPredictor.predict n (Api.industry request)
                                  (Api.company_size request) = Ok result).
    { destruct (Z_lt_le_dec 0 n) as [Hp|Hp].
      - destruct (predict_positive n (Api.industry request) (Api.company_size request))
          as (r & Hr & _); [lia | lia | exists r; exact Hr].
      - destruct (predict_negative n (Api.industry request) (Api.company_size request))
          as (r & Hr & _); [lia | lia | exists r; exact Hr]. }
    destruct Hr as (result & Hr). rewrite Hr.
    destruct (float_of_int_Ok (510 * n)) as (c1 & Hc1); [lia|].
    destruct (float_of_int_Ok (360 * n)) as (c2 & Hc2); [lia|].
    assert (Hcosts : ROIPredictor.costs (ROIPredictor.year1 result) = 510 * n /\
                     ROIPredictor.costs (ROIPredictor.year2 result) = 360 * n /\
                     ROIPredictor.costs (ROIPredictor.year3 result) = 360 * n).
    { unfold ROIPredictor.predict in Hr. invert_binds Hr. injection Hr as <-.
      cbn [ROIPredictor.year1 ROIPredictor.year2 ROIPredictor.year3].
      unfold ROIPredictor.year_projection in E2, E3, E4.
      invert_binds E2. invert_binds E3. invert_binds E4.
      injection E2 as <-. injection E3 as <-. injection E4 as <-.
      cbn [ROIPredictor.costs]. lia. }
    destruct Hcosts as (K1 & K2 & K3).
    unfold Api.projection_dict. cbn [Api.validate_dict Api.validate_float].
    rewrite K1, K2, K3, Hc1, Hc2.
    exists result. eexists. exists c1, c2.
    split; [reflexivity|]. split; [reflexivity|]. repeat split; assumption || reflexivity.
Qed.

Example predict_roi_of_100 :
  exists response,
    Api.predict_roi {| Api.roi_organization_id := "acme"; Api.employee_count := 100;
                       Api.industry := "technology"; Api.company_size := "large" |}
      = Api.Response response /\
    Api.year1_projection response = [ ("costs", 51000); ("benefits", 72000); ("roi", 41.18) ]%float%string.
Proof. eexists. split; vm_compute; reflexivity. Qed.

(** X13: The segmentation endpoint answers every request that fits in
    memory: it returns the four segments twice, as [segments] and as
    [segment_characteristics], and three recommendations for the
    identifier of each segment. *)
Theorem segment_users_answers (User : Type) (request : Api.UserSegmentationRequest User) :
  len (Api.user_data request) <= sys_maxsize ->
  exists response,
    Api.segment_users request = Api.Response response /\
    Api.segment_characteristics response = Api.segments response /\
    map UserSegmenter.segment_id (Api.segments response)
      = map fst (Api.segmentation_recommendations response) /\
    Forall (fun s =>
              exists recs,
                Api.dict_getitem (Api.segmentation_recommendations response)
                  (UserSegmenter.segment_id s) = Ok recs /\ len recs = 3)
           (Api.segments response).
Proof.
  intros Hn. unfold Api.segment_users, UserSegmenter.segment.
  assert (H0 : 0 <= len (Api.user_data request)) by (unfold len; lia).
  remember (len (Api.user_data request)) as n eqn:En.
  assert (Hs : forall x b, is_float (Prim2SF x) false b -> (/ 8 <= b <= 1)%R ->
                 exists z, int_of_float (float_of_ssize n * x) = Ok z).
  { intros x b Fx Hb. destruct (Z.eq_dec n 0) as [->|Hnz].
    - destruct Fx as (m & e & Hx & _).
      unfold int_of_float. rewrite mul_spec, Hx.
      change (Prim2SF (float_of_ssize 0)) with (S754_zero false). cbn. eexists. reflexivity.
    - destruct (share_floor n x b) as [Hz _]; [lia | exact Fx | exact Hb |].
      eexists. exact Hz. }
  destruct (Hs 0.15%float _ is_float_0_15) as (z1 & Hz1); [lra|].
  destruct (Hs 0.35%float _ is_float_0_35) as (z2 & Hz2); [lra|].
  rewrite Hz1, Hz2. cbn [bind]. eexists. split; [reflexivity|].
  cbn [Api.segment_characteristics Api.segments Api.segmentation_recommendations map
       UserSegmenter.segment_id fst UserSegmenter.recommendations].
  split; [reflexivity|]. split; [reflexivity|].
  repeat constructor; eexists; split; reflexivity.
Qed.

Lemma segment_users_answers_witness :
  len (Api.user_data {| Api.segmentation_organization_id := "acme";
                        Api.user_data := repeat tt 20; Api.n_segments := 4 |}) <= sys_maxsize /\
  exists response,
    Api.segment_users {| Api.segmentation_organization_id := "acme";
                         Api.user_data := repeat tt 20; Api.n_segments := 4 |}
      = Api.Response response /\
    Api.segment_characteristics response = Api.segments response /\
    map UserSegmenter.segment_id (Api.segments response)
      = map fst (Api.segmentation_recommendations response) /\
    Forall (fun s =>
              exists recs,
                Api.dict_getitem (Api.segmentation_recommendations response)
                  (UserSegmenter.segment_id s) = Ok recs /\ len recs = 3)
           (Api.segments response).
Proof.
  assert (H : len (Api.user_data {| Api.segmentation_organization_id := "acme"%string;
                                    Api.user_data := repeat tt 20; Api.n_segments := 4 |})
              <= sys_maxsize) by (vm_compute; discriminate).
  split; [exact H|].
  exact (segment_users_answers unit _ H).
Defined.

(** ** Beyond the binary64 range *)

Lemma binary_round_aux_overflow sx p ex lx :
  53 <= Zpos (digits2_pos p) -> 1025 <= Zpos (digits2_pos p) + ex ->
  binary_round_aux prec emax sx (Zpos p) ex lx = S754_infinity sx.
Proof.
  intros Hd Hx.
  destruct (shr_fexp_spec p ex lx Hd ltac:(lia)) as (mrs & Hs & Hm).
  unfold binary_round_aux. rewrite Hs.
  set (d := Zpos (digits2_pos p)) in *.
  set (q := Zpos p / 2 ^ (d - 53)) in *.
  assert (Hq : 2 ^ 52 <= q < 2 ^ 53).
  { pose proof (digits2_bounds p) as Hb. fold d in Hb.
    assert (Hp : 0 < 2 ^ (d - 53)) by (apply Z.pow_pos_nonneg; lia).
    replace (d - 1) with (52 + (d - 53)) in Hb by lia.
    replace d with (53 + (d - 53)) in Hb at 2 by lia.
    rewrite !Z.pow_add_r in Hb by lia.
    unfold q. split.
    - apply Z.div_le_lower_bound; lia.
    - apply Z.div_lt_upper_bound; lia. }
  set (m2 := round_nearest_even (shr_m mrs) (loc_of_shr_record mrs)).
  assert (Hm2 : m2 = q \/ m2 = q + 1) by (unfold m2; rewrite <- Hm; apply rne_cases).
  assert (Hpos : 0 < m2) by lia.
  destruct m2 as [|p2|p2] eqn:Ep2; try lia.
  destruct (Z.eq_dec (Zpos p2) (2 ^ 53)) as [Hc|Hc].
  - assert (Hd2 : Zpos (digits2_pos p2) = 54).
    { apply (digits2_unique p2 53); [lia|]. change (53 + 1) with 54. lia. }
    unfold shr_fexp. cbn [Zdigits2]. rewrite Hd2.
    rewrite fexp_normal by lia.
    replace (54 + (d + ex - 53) - 53 - (d + ex - 53)) with 1 by lia.
    cbn [shr SpecFloat.iter_pos shr_record_of_loc].
    assert (Hp2 : p2 = (2 ^ 53)%positive) by (apply Pos2Z.inj; exact Hc).
    subst p2. cbn [shr_1 shr_m].
    replace (d + ex - 53 + 1 <=? emax - prec) with false
      by (symmetry; apply Z.leb_gt; unfold emax, prec; lia).
    reflexivity.
  - assert (Hd2 : Zpos (digits2_pos p2) = 53).
    { apply (digits2_unique p2 52); [lia|]. change (52 + 1) with 53. lia. }
    unfold shr_fexp. cbn [Zdigits2]. rewrite Hd2.
    rewrite fexp_normal by lia.
    replace (53 + (d + ex - 53) - 53 - (d + ex - 53)) with 0 by lia.
    cbn [shr shr_record_of_loc shr_m].
    replace (d + ex - 53 <=? emax - prec) with false
      by (symmetry; apply Z.leb_gt; unfold emax, prec; lia).
    reflexivity.
Qed.

(** [float(n)] raises [OverflowError] from [2 ^ 1024] on. *)
Lemma float_of_int_overflow n :
  2 ^ 1024 <= Z.abs n -> float_of_int n = Raise OverflowError.
Proof.
  intros Hn. unfold float_of_int.
  assert (Hr : forall s p, 2 ^ 1024 <= Zpos p ->
                 binary_round prec emax s p 0 = S754_infinity s).
  { intros s p Hp. unfold binary_round.
    destruct (digits2_bounds p) as [_ Hb].
    assert (Hd : 1025 <= Zpos (digits2_pos p)).
    { destruct (Z_le_gt_dec 1025 (Zpos (digits2_pos p))) as [|Hg]; [assumption|].
      assert (2 ^ Zpos (digits2_pos p) <= 2 ^ 1024) by (apply Z.pow_le_mono_r; lia). lia. }
    rewrite Z.add_0_r, fexp_normal by lia.
    unfold shl_align. destruct (Zpos (digits2_pos p) - 53 - 0) eqn:E; try lia.
    apply binary_round_aux_overflow; lia. }
  destruct n as [|p|p]; cbn [Z.abs] in Hn.
  - exfalso. assert (0 < 2 ^ 1024) by (apply Z.pow_pos_nonneg; lia). lia.
  - cbn [binary_normalize]. rewrite (Hr false p Hn). reflexivity.
  - cbn [binary_normalize]. rewrite (Hr true p Hn). reflexivity.
Qed.

(** X7: An [employee_count] whose yearly productivity value
    [1200 * employee_count] reaches [2 ^ 1024] in magnitude cannot be
    projected: the predictor raises [OverflowError]. *)
Theorem roi_overflows_beyond_binary64 (employee_count : Z) (industry company_size : string) :
  2 ^ 1024 <= Z.abs employee_count * 1200 ->
  ROIPredictor.predict employee_count industry company_size = Raise OverflowError.
Proof.
  intros Hn. unfold ROIPredictor.predict.
  rewrite float_of_int_overflow; [reflexivity|].
  rewrite Z.abs_mul. change (Z.abs 1200) with 1200. exact Hn.
Qed.

Lemma roi_overflows_beyond_binary64_witness :
  2 ^ 1024 <= Z.abs (2 ^ 1020) * 1200 /\
  ROIPredictor.predict (2 ^ 1020) "retail" "small" = Raise OverflowError.
Proof.
  assert (H : 2 ^ 1024 <= Z.abs (2 ^ 1020) * 1200) by (vm_compute; discriminate).
  split; [exact H|]. exact (roi_overflows_beyond_binary64 (2 ^ 1020) "retail" "small" H).
Defined.
